(** * bdn-audio: the network family of [app/models.py]

    A shallow embedding of the modules of [app/models.py] (squeeze-excitation
    gates, residual bottlenecks, down/up sampling blocks, the top-level
    architectures and the two losses) together with the properties the
    specification states about them and further properties of the code.

    Every [forward] is written once, over an interface [TensorOps] of the
    torch operators it calls, and is read in two tensor domains:

    - [shape]: a tensor is its size, a [list Z]; every operator computes the
      size of its result or raises, following the size arithmetic and the
      checks of the torch operators.  Everything is executable there;
    - [rtensor]: a tensor is a size and a row-major list of real numbers;
      pointwise operators are defined on the elements, the learned and
      windowed kernels (convolution, normalisation, pooling, ...) are
      arbitrary functions.  Tensor elements are idealised as real numbers:
      rounding and the special values of floating point are outside the
      model.

    Python exceptions are the constructors of [error]; a Python function
    that may raise returns a [result]. *)

From Stdlib Require Import ZArith List Bool Lia Reals Lra.
Import ListNotations.
Local Open Scope Z_scope.

Set Implicit Arguments.

(** ** Exceptions and the result monad *)

Inductive error : Type :=
| RuntimeError        (* raised by torch on incompatible sizes *)
| ValueError
| AttributeError
| ZeroDivisionError
| IndexError
| NotImplementedError.

Inductive result (A : Type) : Type :=
| Ok (a : A)
| Raise (e : error).

Arguments Ok {A} a.
Arguments Raise {A} e.

Definition bind {A B : Type} (r : result A) (k : A -> result B) : result B :=
  match r with
  | Ok a => k a
  | Raise e => Raise e
  end.

Declare Scope result_scope.
Delimit Scope result_scope with result.
Notation "x <- c ;; k" := (bind c (fun x => k))
  (at level 61, c at next level, right associativity) : result_scope.
Local Open Scope result_scope.

Definition is_ok {A : Type} (r : result A) : bool :=
  match r with Ok _ => true | Raise _ => false end.

(** Access to an attribute that [__init__] sets only on some paths. *)
Definition getattr {A : Type} (o : option A) : result A :=
  match o with
  | Some a => Ok a
  | None => Raise AttributeError
  end.

(** Python's [a // b] on integers. *)
Definition floordiv (a b : Z) : result Z :=
  if b =? 0 then Raise ZeroDivisionError else Ok (a / b).

(** ** The torch operators used by the models *)

Inductive interp_mode : Type := linear | bilinear_mode.

(** The pooling strategies a bottleneck may be built with
    ([t.Literal["max", "avg"]]). *)
Inductive pool_kind : Type := pool_max | pool_avg.

Class TensorOps (T : Type) : Type := {
  size : T -> list Z;
  (* allocation of parameters and buffers *)
  torch_empty : list Z -> result T;
  torch_zeros : list Z -> result T;
  torch_ones : list Z -> result T;
  (* input, weight, bias, stride, padding, dilation *)
  F_conv1d : T -> T -> option T -> Z -> Z -> Z -> result T;
  F_conv2d : T -> T -> option T -> Z -> Z -> Z -> result T;
  (* input, weight, bias, stride, padding *)
  F_conv_transpose1d : T -> T -> option T -> Z -> Z -> result T;
  F_conv_transpose2d : T -> T -> option T -> Z -> Z -> result T;
  (* input, running_mean, running_var, weight, bias, training *)
  F_batch_norm : T -> T -> T -> T -> T -> bool -> result T;
  F_relu : T -> T;
  torch_sigmoid : T -> T;
  F_hardtanh : T -> R -> R -> T;
  (* input, kernel_size, stride *)
  F_max_pool1d : T -> Z -> Z -> result T;
  F_max_pool2d : T -> Z -> Z -> result T;
  F_avg_pool1d : T -> Z -> Z -> result T;
  F_avg_pool2d : T -> Z -> Z -> result T;
  (* input, output_size *)
  F_adaptive_avg_pool1d : T -> Z -> result T;
  F_adaptive_avg_pool2d : T -> Z -> result T;
  (* input, scale_factor, mode (align_corners=True) *)
  F_interpolate : T -> Z -> interp_mode -> result T;
  (* input, pad (constant mode, value 0) *)
  F_pad : T -> list Z -> result T;
  (* tensors, dim *)
  torch_cat : list T -> Z -> result T;
  torch_add : T -> T -> result T;
  torch_mul : T -> T -> result T;
  torch_log : T -> T;
  torch_exp : T -> T;
  torch_pow : T -> R -> T;
  view : T -> list Z -> result T;
  (* input, target, with reduction 'none' *)
  F_binary_cross_entropy : T -> T -> result T;
  torch_neg : T -> T;
  torch_rsub : R -> T -> T;          (* scalar - tensor *)
  torch_scale : R -> T -> T;         (* scalar * tensor *)
  torch_mean : T -> T
}.

(** ** The size domain

    The size arithmetic and the checks of the torch operators, for batched
    inputs: a convolution or pooling applied to an input of another rank
    raises here (torch also takes unbatched inputs there; the batch
    normalisation that follows refuses them).  The model is meant for
    tensors without empty extents: on an extent 0 it may refuse a call that
    torch accepts. *)

Module Shape.

Definition shape : Type := list Z.

Definition numel (s : shape) : Z := fold_right Z.mul 1 s.

Fixpoint shape_eqb (a b : shape) : bool :=
  match a, b with
  | [], [] => true
  | x :: a', y :: b' => (x =? y) && shape_eqb a' b'
  | _, _ => false
  end.

Definition empty (s : shape) : result shape :=
  if forallb (fun d => 0 <=? d) s then Ok s else Raise RuntimeError.

(** Output extent of a convolution window. *)
Definition conv_out (l k s p d : Z) : Z := (l + 2 * p - d * (k - 1) - 1) / s + 1.

Definition conv_args_ok (s p d : Z) : bool := (1 <=? s) && (0 <=? p) && (1 <=? d).

Definition conv_fits (l k p d : Z) : bool := d * (k - 1) + 1 <=? l + 2 * p.

Definition bias_ok (b : option shape) (co : Z) : bool :=
  match b with
  | None => true
  | Some [c] => c =? co
  | Some _ => false
  end.

Definition conv1d (x w : shape) (b : option shape) (s p d : Z) : result shape :=
  match x, w with
  | [n; c; l], [co; ci; k] =>
      if (c =? ci) && bias_ok b co && conv_args_ok s p d && conv_fits l k p d
      then Ok [n; co; conv_out l k s p d]
      else Raise RuntimeError
  | _, _ => Raise RuntimeError
  end.

Definition conv2d (x w : shape) (b : option shape) (s p d : Z) : result shape :=
  match x, w with
  | [n; c; h; wd], [co; ci; kh; kw] =>
      if (c =? ci) && bias_ok b co && conv_args_ok s p d
         && conv_fits h kh p d && conv_fits wd kw p d
      then Ok [n; co; conv_out h kh s p d; conv_out wd kw s p d]
      else Raise RuntimeError
  | _, _ => Raise RuntimeError
  end.

(** Output extent of a transposed convolution (dilation 1, no output
    padding). *)
Definition conv_transpose_out (l k s p : Z) : Z := (l - 1) * s - 2 * p + (k - 1) + 1.

Definition conv_transpose1d (x w : shape) (b : option shape) (s p : Z) : result shape :=
  match x, w with
  | [n; c; l], [ci; co; k] =>
      if (c =? ci) && bias_ok b co && (1 <=? s) && (0 <=? p)
         && (1 <=? conv_transpose_out l k s p)
      then Ok [n; co; conv_transpose_out l k s p]
      else Raise RuntimeError
  | _, _ => Raise RuntimeError
  end.

Definition conv_transpose2d (x w : shape) (b : option shape) (s p : Z) : result shape :=
  match x, w with
  | [n; c; h; wd], [ci; co; kh; kw] =>
      if (c =? ci) && bias_ok b co && (1 <=? s) && (0 <=? p)
         && (1 <=? conv_transpose_out h kh s p) && (1 <=? conv_transpose_out wd kw s p)
      then Ok [n; co; conv_transpose_out h kh s p; conv_transpose_out wd kw s p]
      else Raise RuntimeError
  | _, _ => Raise RuntimeError
  end.

(** [F.batch_norm]: the per-channel statistics and affine parameters have
    one entry per channel; in training mode a batch with a single value per
    channel is refused. *)
Definition batch_norm (x rm rv w b : shape) (training : bool) : result shape :=
  match x with
  | n :: c :: rest =>
      if negb (shape_eqb rm [c] && shape_eqb rv [c] && shape_eqb w [c] && shape_eqb b [c])
      then Raise RuntimeError
      else if training && (n * numel rest =? 1) then Raise ValueError
      else Ok x
  | _ => Raise RuntimeError
  end.

(** Output extent of a pooling window (no padding, no dilation, floor mode). *)
Definition pool_out (l k s : Z) : Z := (l - k) / s + 1.

Definition pool1d (x : shape) (k s : Z) : result shape :=
  match x with
  | [n; c; l] =>
      if (1 <=? k) && (1 <=? s) && (1 <=? pool_out l k s)
      then Ok [n; c; pool_out l k s]
      else Raise RuntimeError
  | _ => Raise RuntimeError
  end.

Definition pool2d (x : shape) (k s : Z) : result shape :=
  match x with
  | [n; c; h; w] =>
      if (1 <=? k) && (1 <=? s) && (1 <=? pool_out h k s) && (1 <=? pool_out w k s)
      then Ok [n; c; pool_out h k s; pool_out w k s]
      else Raise RuntimeError
  | _ => Raise RuntimeError
  end.

Definition adaptive_avg_pool1d (x : shape) (o : Z) : result shape :=
  match x with
  | [n; c; l] => if (1 <=? l) && (0 <=? o) then Ok [n; c; o] else Raise RuntimeError
  | _ => Raise RuntimeError
  end.

Definition adaptive_avg_pool2d (x : shape) (o : Z) : result shape :=
  match x with
  | [n; c; h; w] =>
      if (1 <=? h) && (1 <=? w) && (0 <=? o) then Ok [n; c; o; o] else Raise RuntimeError
  | _ => Raise RuntimeError
  end.

(** [F.interpolate] with an integer [scale_factor]: [linear] wants a 3-D
    input, [bilinear] a 4-D one. *)
Definition interpolate (x : shape) (scale : Z) (mode : interp_mode) : result shape :=
  match mode, x with
  | linear, [n; c; l] =>
      if (1 <=? l) && (1 <=? l * scale) then Ok [n; c; l * scale] else Raise RuntimeError
  | bilinear_mode, [n; c; h; w] =>
      if (1 <=? h) && (1 <=? w) && (1 <=? h * scale) && (1 <=? w * scale)
      then Ok [n; c; h * scale; w * scale]
      else Raise RuntimeError
  | _, _ => Raise NotImplementedError
  end.

(** [F.pad] in constant mode.  [pad] lists (left, right) pairs starting from
    the LAST dimension.  A negative amount narrows the dimension; when some
    amount is positive every padded dimension must end up positive. *)
Definition narrow_ok (d l r : Z) : bool :=
  let d1 := if l <? 0 then d + l else d in
  let d2 := if r <? 0 then d1 + r else d1 in
  (0 <=? d1) && (0 <=? d2).

Fixpoint pad_rev (some_positive : bool) (rdims pad : list Z) {struct pad}
    : option (list Z) :=
  match pad with
  | [] => Some rdims
  | l :: r :: pad' =>
      match rdims with
      | [] => None
      | d :: rdims' =>
          if narrow_ok d l r && (negb some_positive || (0 <? d + l + r))
          then option_map (cons (d + l + r)) (pad_rev some_positive rdims' pad')
          else None
      end
  | [_] => None
  end.

Definition pad (x : shape) (p : list Z) : result shape :=
  match pad_rev (existsb (fun a => 0 <? a) p) (rev x) p with
  | Some r => Ok (rev r)
  | None => Raise RuntimeError
  end.

(** [torch.cat]: all sizes agree except along [dim], where they add up. *)
Fixpoint cat2 (a b : shape) (dim : nat) : option shape :=
  match a, b with
  | x :: a', y :: b' =>
      match dim with
      | O => if shape_eqb a' b' then Some ((x + y) :: a') else None
      | S dim' => if x =? y then option_map (cons x) (cat2 a' b' dim') else None
      end
  | _, _ => None
  end.

Definition cat (xs : list shape) (dim : Z) : result shape :=
  match xs with
  | [] => Raise RuntimeError
  | x :: rest =>
      if dim <? 0 then Raise IndexError
      else fold_left
             (fun acc y =>
                a <- acc ;;
                match cat2 a y (Z.to_nat dim) with
                | Some s => Ok s
                | None => Raise RuntimeError
                end)
             rest (Ok x)
  end.

(** Broadcasting of two sizes, aligned on the last dimension. *)
Fixpoint broadcast_rev (a b : list Z) : option (list Z) :=
  match a, b with
  | [], _ => Some b
  | _, [] => Some a
  | x :: a', y :: b' =>
      if x =? y then option_map (cons x) (broadcast_rev a' b')
      else if x =? 1 then option_map (cons y) (broadcast_rev a' b')
      else if y =? 1 then option_map (cons x) (broadcast_rev a' b')
      else None
  end.

Definition broadcast_shapes (a b : shape) : result shape :=
  match broadcast_rev (rev a) (rev b) with
  | Some r => Ok (rev r)
  | None => Raise RuntimeError
  end.

Definition view_shape (x s : shape) : result shape :=
  if forallb (fun d => 0 <=? d) s && (numel x =? numel s) then Ok s else Raise RuntimeError.

Definition binary_cross_entropy (x t : shape) : result shape :=
  if shape_eqb t x then Ok x else Raise ValueError.

#[global] Instance ops : TensorOps shape := {|
  size := fun x => x;
  torch_empty := empty;
  torch_zeros := empty;
  torch_ones := empty;
  F_conv1d := conv1d;
  F_conv2d := conv2d;
  F_conv_transpose1d := conv_transpose1d;
  F_conv_transpose2d := conv_transpose2d;
  F_batch_norm := batch_norm;
  F_relu := fun x => x;
  torch_sigmoid := fun x => x;
  F_hardtanh := fun x _ _ => x;
  F_max_pool1d := pool1d;
  F_max_pool2d := pool2d;
  F_avg_pool1d := pool1d;
  F_avg_pool2d := pool2d;
  F_adaptive_avg_pool1d := adaptive_avg_pool1d;
  F_adaptive_avg_pool2d := adaptive_avg_pool2d;
  F_interpolate := interpolate;
  F_pad := pad;
  torch_cat := cat;
  torch_add := broadcast_shapes;
  torch_mul := broadcast_shapes;
  torch_log := fun x => x;
  torch_exp := fun x => x;
  torch_pow := fun x _ => x;
  view := view_shape;
  F_binary_cross_entropy := binary_cross_entropy;
  torch_neg := fun x => x;
  torch_rsub := fun _ x => x;
  torch_scale := fun _ x => x;
  torch_mean := fun _ => []
|}.

End Shape.

(** ** torch.nn layers

    A layer is a record of its parameters (tensors) and hyper-parameters;
    [init] is its constructor, [forward] its call. *)

Definition size_at {T : Type} {ops : TensorOps T} (x : T) (i : nat) : result Z :=
  match nth_error (size x) i with
  | Some d => Ok d
  | None => Raise IndexError
  end.

Module Conv1d.
Section Def.
Context {T : Type} {ops : TensorOps T}.
Record t : Type := mk {
    weight : T; bias : option T; stride : Z; padding : Z; dilation : Z }.

Definition init (in_channels out_channels kernel_size stride padding dilation : Z)
      (bias : bool) : result t :=
    w <- torch_empty [out_channels; in_channels; kernel_size] ;;
    b <- (if bias then b <- torch_empty [out_channels] ;; Ok (Some b) else Ok None) ;;
    Ok (mk w b stride padding dilation).

Definition forward (self : t) (x : T) : result T :=
    F_conv1d x (weight self) (bias self) (stride self) (padding self) (dilation self).
End Def.
Arguments t : clear implicits.
End Conv1d.

Module Conv2d.
Section Def.
Context {T : Type} {ops : TensorOps T}.
Record t : Type := mk {
    weight : T; bias : option T; stride : Z; padding : Z; dilation : Z }.

Definition init (in_channels out_channels kernel_size stride padding dilation : Z)
      (bias : bool) : result t :=
    w <- torch_empty [out_channels; in_channels; kernel_size; kernel_size] ;;
    b <- (if bias then b <- torch_empty [out_channels] ;; Ok (Some b) else Ok None) ;;
    Ok (mk w b stride padding dilation).

Definition forward (self : t) (x : T) : result T :=
    F_conv2d x (weight self) (bias self) (stride self) (padding self) (dilation self).
End Def.
Arguments t : clear implicits.
End Conv2d.

Module ConvTranspose1d.
Section Def.
Context {T : Type} {ops : TensorOps T}.
Record t : Type := mk { weight : T; bias : option T; stride : Z; padding : Z }.

Definition init (in_channels out_channels kernel_size stride padding : Z) : result t :=
    w <- torch_empty [in_channels; out_channels; kernel_size] ;;
    b <- torch_empty [out_channels] ;;
    Ok (mk w (Some b) stride padding).

Definition forward (self : t) (x : T) : result T :=
    F_conv_transpose1d x (weight self) (bias self) (stride self) (padding self).
End Def.
Arguments t : clear implicits.
End ConvTranspose1d.

Module ConvTranspose2d.
Section Def.
Context {T : Type} {ops : TensorOps T}.
Record t : Type := mk { weight : T; bias : option T; stride : Z; padding : Z }.

Definition init (in_channels out_channels kernel_size stride padding : Z) : result t :=
    w <- torch_empty [in_channels; out_channels; kernel_size; kernel_size] ;;
    b <- torch_empty [out_channels] ;;
    Ok (mk w (Some b) stride padding).

Definition forward (self : t) (x : T) : result T :=
    F_conv_transpose2d x (weight self) (bias self) (stride self) (padding self).
End Def.
Arguments t : clear implicits.
End ConvTranspose2d.

(** Batch normalisation.  A fresh module is in training mode. *)
Module BatchNorm.
Section Def.
Context {T : Type} {ops : TensorOps T}.
Record t : Type := mk {
    weight : T; bias : T; running_mean : T; running_var : T; training : bool }.

Definition init (num_features : Z) : result t :=
    w <- torch_ones [num_features] ;;
    b <- torch_zeros [num_features] ;;
    rm <- torch_zeros [num_features] ;;
    rv <- torch_ones [num_features] ;;
    Ok (mk w b rm rv true).

Definition batch_norm (self : t) (x : T) : result T :=
    F_batch_norm x (running_mean self) (running_var self) (weight self) (bias self)
      (training self).

  (** [BatchNorm1d] accepts 2-D and 3-D inputs, [BatchNorm2d] 4-D inputs. *)
Definition forward1d (self : t) (x : T) : result T :=
    let dim := length (size x) in
    if negb (Nat.eqb dim 2) && negb (Nat.eqb dim 3) then Raise ValueError
    else batch_norm self x.

Definition forward2d (self : t) (x : T) : result T :=
    if negb (Nat.eqb (length (size x)) 4) then Raise ValueError
    else batch_norm self x.
End Def.
Arguments t : clear implicits.
End BatchNorm.

(** Layers without parameters. *)
Module ReLU.
Record t : Type := mk { inplace : bool }.
Definition forward {T : Type} {ops : TensorOps T} (self : t) (x : T) : result T :=
    Ok (F_relu x).
End ReLU.

Module Sigmoid.
Record t : Type := mk { }.
Definition forward {T : Type} {ops : TensorOps T} (self : t) (x : T) : result T :=
    Ok (torch_sigmoid x).
End Sigmoid.

Module Hardtanh.
Record t : Type := mk { min_val : R; max_val : R }.
Definition forward {T : Type} {ops : TensorOps T} (self : t) (x : T) : result T :=
    Ok (F_hardtanh x (min_val self) (max_val self)).
End Hardtanh.

(** [self.pool]: [nn.MaxPool1d(stride, stride)] or [nn.AvgPool1d(stride, stride)]. *)
Module Pool1d.
Inductive t : Type :=
  | MaxPool1d (kernel_size stride : Z)
  | AvgPool1d (kernel_size stride : Z).
Definition forward {T : Type} {ops : TensorOps T} (self : t) (x : T) : result T :=
    match self with
    | MaxPool1d k s => F_max_pool1d x k s
    | AvgPool1d k s => F_avg_pool1d x k s
    end.
End Pool1d.

Module Pool2d.
Inductive t : Type :=
  | MaxPool2d (kernel_size stride : Z)
  | AvgPool2d (kernel_size stride : Z).
Definition forward {T : Type} {ops : TensorOps T} (self : t) (x : T) : result T :=
    match self with
    | MaxPool2d k s => F_max_pool2d x k s
    | AvgPool2d k s => F_avg_pool2d x k s
    end.
End Pool2d.

Module AdaptiveAvgPool1d.
Record t : Type := mk { output_size : Z }.
Definition forward {T : Type} {ops : TensorOps T} (self : t) (x : T) : result T :=
    F_adaptive_avg_pool1d x (output_size self).
End AdaptiveAvgPool1d.

Module AdaptiveAvgPool2d.
Record t : Type := mk { output_size : Z }.
Definition forward {T : Type} {ops : TensorOps T} (self : t) (x : T) : result T :=
    F_adaptive_avg_pool2d x (output_size self).
End AdaptiveAvgPool2d.

Module Upsample.
Record t : Type := mk { scale_factor : Z; mode : interp_mode }.
Definition forward {T : Type} {ops : TensorOps T} (self : t) (x : T) : result T :=
    F_interpolate x (scale_factor self) (mode self).
End Upsample.

(** ** The modules of [app/models.py] *)

Module FocalLoss.
Record t : Type := mk { alpha : R; gamma : R; reduce : bool }.

Definition init (alpha gamma : R) (reduce : bool) : t := mk alpha gamma reduce.

Definition forward {T : Type} {ops : TensorOps T} (self : t) (inputs targets : T)
      : result T :=
    BCE_loss <- F_binary_cross_entropy inputs targets ;;
    let pt := torch_exp (torch_neg BCE_loss) in
    F_loss <- torch_mul (torch_scale (alpha self) (torch_pow (torch_rsub 1%R pt) (gamma self)))
                BCE_loss ;;
    if reduce self then Ok (torch_mean F_loss) else Ok F_loss.
End FocalLoss.

Module ConvBR2d.
Section Def.
Context {T : Type} {ops : TensorOps T}.
Record t : Type := mk {
    conv : Conv2d.t T; bn : BatchNorm.t T; is_activation : bool;
    activation : option ReLU.t }.

Definition init (in_channels out_channels kernel_size padding dilation stride : Z)
      (is_activation : bool) : result t :=
    conv <- Conv2d.init in_channels out_channels kernel_size stride padding dilation false ;;
    bn <- BatchNorm.init out_channels ;;
    Ok (mk conv bn is_activation
          (if is_activation then Some (ReLU.mk true) else None)).

Definition forward (self : t) (x : T) : result T :=
    x <- (c <- Conv2d.forward (conv self) x ;; BatchNorm.forward2d (bn self) c) ;;
    if is_activation self
    then (act <- getattr (activation self) ;; ReLU.forward act x)
    else Ok x.
End Def.
Arguments t : clear implicits.
End ConvBR2d.

Module ConvBR1d.
Section Def.
Context {T : Type} {ops : TensorOps T}.
Record t : Type := mk {
    conv : Conv1d.t T; bn : BatchNorm.t T; is_activation : bool;
    activation : option ReLU.t }.

Definition init (in_channels out_channels kernel_size padding dilation stride : Z)
      (is_activation : bool) : result t :=
    conv <- Conv1d.init in_channels out_channels kernel_size stride padding dilation true ;;
    bn <- BatchNorm.init out_channels ;;
    Ok (mk conv bn is_activation
          (if is_activation then Some (ReLU.mk true) else None)).

Definition forward (self : t) (x : T) : result T :=
    x <- (c <- Conv1d.forward (conv self) x ;; BatchNorm.forward1d (bn self) c) ;;
    if is_activation self
    then (act <- getattr (activation self) ;; ReLU.forward act x)
    else Ok x.
End Def.
Arguments t : clear implicits.
End ConvBR1d.

Module SSE2d.
Section Def.
Context {T : Type} {ops : TensorOps T}.
  (** [se = nn.Sequential(nn.Conv2d(in_channels, 1, 1), nn.Sigmoid())] *)
Record t : Type := mk { se_0 : Conv2d.t T; se_1 : Sigmoid.t }.

Definition init (in_channels : Z) : result t :=
    c <- Conv2d.init in_channels 1 1 1 0 1 true ;;
    Ok (mk c Sigmoid.mk).

Definition se (self : t) (x : T) : result T :=
    x <- Conv2d.forward (se_0 self) x ;;
    Sigmoid.forward (se_1 self) x.

Definition forward (self : t) (x : T) : result T :=
    g <- se self x ;;
    x <- torch_mul x g ;;
    Ok x.
End Def.
Arguments t : clear implicits.
End SSE2d.

Module CSE2d.
Section Def.
Context {T : Type} {ops : TensorOps T}.
Record t : Type := mk {
    se_0 : AdaptiveAvgPool2d.t; se_1 : Conv2d.t T; se_2 : ReLU.t;
    se_3 : Conv2d.t T; se_4 : Sigmoid.t }.

Definition init (in_channels reduction : Z) : result t :=
    let p := AdaptiveAvgPool2d.mk 1 in
    mid <- floordiv in_channels reduction ;;
    c1 <- Conv2d.init in_channels mid 1 1 0 1 true ;;
    let a := ReLU.mk true in
    mid' <- floordiv in_channels reduction ;;
    c2 <- Conv2d.init mid' in_channels 1 1 0 1 true ;;
    Ok (mk p c1 a c2 Sigmoid.mk).

Definition se (self : t) (x : T) : result T :=
    x <- AdaptiveAvgPool2d.forward (se_0 self) x ;;
    x <- Conv2d.forward (se_1 self) x ;;
    x <- ReLU.forward (se_2 self) x ;;
    x <- Conv2d.forward (se_3 self) x ;;
    Sigmoid.forward (se_4 self) x.

Definition forward (self : t) (x : T) : result T :=
    g <- se self x ;;
    x <- torch_mul x g ;;
    Ok x.
End Def.
Arguments t : clear implicits.
End CSE2d.

Module SCSE2d.
Section Def.
Context {T : Type} {ops : TensorOps T}.
Record t : Type := mk { c_se : CSE2d.t T; s_se : SSE2d.t T }.

Definition init (in_channels reduction : Z) : result t :=
    c <- CSE2d.init in_channels reduction ;;
    s <- SSE2d.init in_channels ;;
    Ok (mk c s).

Definition forward (self : t) (x : T) : result T :=
    a <- CSE2d.forward (c_se self) x ;;
    b <- SSE2d.forward (s_se self) x ;;
    torch_add a b.
End Def.
Arguments t : clear implicits.
End SCSE2d.

Module SSE1d.
Section Def.
Context {T : Type} {ops : TensorOps T}.
Record t : Type := mk { se_0 : Conv1d.t T; se_1 : Sigmoid.t }.

Definition init (in_channels : Z) : result t :=
    c <- Conv1d.init in_channels 1 1 1 0 1 true ;;
    Ok (mk c Sigmoid.mk).

Definition se (self : t) (x : T) : result T :=
    x <- Conv1d.forward (se_0 self) x ;;
    Sigmoid.forward (se_1 self) x.

Definition forward (self : t) (x : T) : result T :=
    g <- se self x ;;
    x <- torch_mul x g ;;
    Ok x.
End Def.
Arguments t : clear implicits.
End SSE1d.

Module CSE1d.
Section Def.
Context {T : Type} {ops : TensorOps T}.
Record t : Type := mk {
    se_0 : AdaptiveAvgPool1d.t; se_1 : Conv1d.t T; se_2 : ReLU.t;
    se_3 : Conv1d.t T; se_4 : Sigmoid.t }.

Definition init (in_channels reduction : Z) : result t :=
    let p := AdaptiveAvgPool1d.mk 1 in
    mid <- floordiv in_channels reduction ;;
    c1 <- Conv1d.init in_channels mid 1 1 0 1 true ;;
    let a := ReLU.mk true in
    mid' <- floordiv in_channels reduction ;;
    c2 <- Conv1d.init mid' in_channels 1 1 0 1 true ;;
    Ok (mk p c1 a c2 Sigmoid.mk).

Definition se (self : t) (x : T) : result T :=
    x <- AdaptiveAvgPool1d.forward (se_0 self) x ;;
    x <- Conv1d.forward (se_1 self) x ;;
    x <- ReLU.forward (se_2 self) x ;;
    x <- Conv1d.forward (se_3 self) x ;;
    Sigmoid.forward (se_4 self) x.

Definition forward (self : t) (x : T) : result T :=
    g <- se self x ;;
    x <- torch_mul x g ;;
    Ok x.
End Def.
Arguments t : clear implicits.
End CSE1d.

Module SCSE1d.
Section Def.
Context {T : Type} {ops : TensorOps T}.
Record t : Type := mk { c_se : CSE1d.t T; s_se : SSE1d.t T }.

Definition init (in_channels reduction : Z) : result t :=
    c <- CSE1d.init in_channels reduction ;;
    s <- SSE1d.init in_channels ;;
    Ok (mk c s).

Definition forward (self : t) (x : T) : result T :=
    a <- CSE1d.forward (c_se self) x ;;
    b <- SSE1d.forward (s_se self) x ;;
    torch_add a b.
End Def.
Arguments t : clear implicits.
End SCSE1d.

Module SENextBottleneck2d.
Section Def.
Context {T : Type} {ops : TensorOps T}.
Record t : Type := mk {
  conv1 : ConvBR2d.t T; conv2 : ConvBR2d.t T; se : CSE2d.t T;
  stride : Z; is_shortcut : bool; activation : ReLU.t;
  shortcut : option (ConvBR2d.t T); pool : option Pool2d.t }.

Definition init (in_channels out_channels stride reduction dilation padding : Z)
    (pool : pool_kind) (is_shortcut : bool) : result t :=
  mid_channels <- floordiv out_channels reduction ;;
  conv1 <- ConvBR2d.init in_channels out_channels 3 padding dilation 1 true ;;
  conv2 <- ConvBR2d.init in_channels out_channels 3 padding dilation 1 true ;;
  se <- CSE2d.init out_channels reduction ;;
  let activation := ReLU.mk true in
  shortcut <- (if is_shortcut
               then s <- ConvBR2d.init in_channels out_channels 1 0 1 1 false ;; Ok (Some s)
               else Ok None) ;;
  let pool :=
    if 1 <? stride
    then match pool with
         | pool_max => Some (Pool2d.MaxPool2d stride stride)
         | pool_avg => Some (Pool2d.AvgPool2d stride stride)
         end
    else None in
  Ok (mk conv1 conv2 se stride is_shortcut activation shortcut pool).

Definition forward (self : t) (x : T) : result T :=
  s <- ConvBR2d.forward (conv1 self) x ;;
  s <- ConvBR2d.forward (conv2 self) x ;;
  s <- (if 1 <? stride self
        then (p <- getattr (pool self) ;; Pool2d.forward p s)
        else Ok s) ;;
  s <- CSE2d.forward (se self) s ;;
  x <- (if is_shortcut self
        then
          x <- (if 1 <? stride self
                then F_avg_pool2d x (stride self) (stride self)
                else Ok x) ;;
          sc <- getattr (shortcut self) ;;
          ConvBR2d.forward sc x
        else Ok x) ;;
  x <- torch_add x s ;;
  x <- ReLU.forward (activation self) x ;;
  Ok x.
End Def.
Arguments t : clear implicits.
End SENextBottleneck2d.

Module SENextBottleneck1d.
Section Def.
Context {T : Type} {ops : TensorOps T}.
Record t : Type := mk {
  conv1 : ConvBR1d.t T; conv2 : ConvBR1d.t T; se : SCSE1d.t T;
  stride : Z; is_shortcut : bool; shortcut : option (ConvBR1d.t T);
  activation : ReLU.t; pool : option Pool1d.t }.

Definition init (in_channels out_channels stride reduction : Z)
    (pool : pool_kind) (is_shortcut : bool) : result t :=
  mid_channels <- floordiv out_channels reduction ;;
  conv1 <- ConvBR1d.init in_channels out_channels 3 1 1 1 true ;;
  conv2 <- ConvBR1d.init out_channels out_channels 3 1 1 1 true ;;
  se <- SCSE1d.init out_channels reduction ;;
  shortcut <- (if is_shortcut
               then s <- ConvBR1d.init in_channels out_channels 1 0 1 1 false ;; Ok (Some s)
               else Ok None) ;;
  let activation := ReLU.mk true in
  let pool :=
    if 1 <? stride
    then match pool with
         | pool_max => Some (Pool1d.MaxPool1d stride stride)
         | pool_avg => Some (Pool1d.AvgPool1d stride stride)
         end
    else None in
  Ok (mk conv1 conv2 se stride is_shortcut shortcut activation pool).

Definition forward (self : t) (x : T) : result T :=
  s <- ConvBR1d.forward (conv1 self) x ;;
  s <- ConvBR1d.forward (conv2 self) s ;;
  s <- (if 1 <? stride self
        then (p <- getattr (pool self) ;; Pool1d.forward p s)
        else Ok s) ;;
  s <- SCSE1d.forward (se self) s ;;
  x <- (if is_shortcut self
        then
          x <- (if 1 <? stride self
                then F_avg_pool1d x (stride self) (stride self)
                else Ok x) ;;
          sc <- getattr (shortcut self) ;;
          ConvBR1d.forward sc x
        else Ok x) ;;
  x <- torch_add x s ;;
  x <- ReLU.forward (activation self) x ;;
  Ok x.
End Def.
Arguments t : clear implicits.
End SENextBottleneck1d.

Module Down1d.
Section Def.
Context {T : Type} {ops : TensorOps T}.
Record t : Type := mk { block_0 : SENextBottleneck1d.t T }.

Definition init (in_channels out_channels : Z) (pool : pool_kind) : result t :=
  b <- SENextBottleneck1d.init in_channels out_channels 2 16 pool true ;;
  Ok (mk b).

Definition forward (self : t) (x : T) : result T :=
  SENextBottleneck1d.forward (block_0 self) x.
End Def.
Arguments t : clear implicits.
End Down1d.

Module Down2d.
Section Def.
Context {T : Type} {ops : TensorOps T}.
Record t : Type := mk {
  block_0 : SENextBottleneck2d.t T; block_1 : SENextBottleneck2d.t T }.

Definition init (in_channels out_channels : Z) (pool : pool_kind) : result t :=
  b0 <- SENextBottleneck2d.init in_channels out_channels 2 4 1 1 pool true ;;
  b1 <- SENextBottleneck2d.init out_channels out_channels 1 4 1 1 pool_max false ;;
  Ok (mk b0 b1).

Definition forward (self : t) (x : T) : result T :=
  x <- SENextBottleneck2d.forward (block_0 self) x ;;
  SENextBottleneck2d.forward (block_1 self) x.
End Def.
Arguments t : clear implicits.
End Down2d.

Module Up1d.
Section Def.
Context {T : Type} {ops : TensorOps T}.
(** [up: t.Union[nn.Upsample, nn.ConvTranspose1d]] *)
Inductive up_t : Type :=
| UpUpsample (u : Upsample.t)
| UpConvTranspose (c : ConvTranspose1d.t T).

Record t : Type := mk {
  merge : bool; up : up_t; conv1 : ConvBR1d.t T; conv2 : ConvBR1d.t T }.

Definition init (in_channels out_channels : Z) (bilinear merge : bool) : result t :=
  up <- (if bilinear
         then Ok (UpUpsample (Upsample.mk 2 linear))
         else c <- ConvTranspose1d.init in_channels in_channels 2 2 0 ;;
              Ok (UpConvTranspose c)) ;;
  conv1 <- (if merge
            then ConvBR1d.init (in_channels + out_channels) out_channels 3 1 1 1 true
            else ConvBR1d.init in_channels out_channels 3 1 1 1 true) ;;
  conv2 <- ConvBR1d.init out_channels out_channels 3 1 1 1 true ;;
  Ok (mk merge up conv1 conv2).

Definition up_forward (u : up_t) (x : T) : result T :=
  match u with
  | UpUpsample u => Upsample.forward u x
  | UpConvTranspose c => ConvTranspose1d.forward c x
  end.

(** The first three statements of [forward]: [x1] upsampled and padded
    towards the length of [x2].  [//] rounds down. *)
Definition aligned (self : t) (x1 x2 : T) : result T :=
  x1 <- up_forward (up self) x1 ;;
  a <- size_at x2 2 ;;
  b <- size_at x1 2 ;;
  let diff := a - b in
  F_pad x1 [diff / 2; diff - diff / 2].

Definition forward (self : t) (x1 x2 : T) : result T :=
  x1 <- aligned self x1 x2 ;;
  x <- (if merge self then torch_cat [x2; x1] 1 else Ok x1) ;;
  x <- ConvBR1d.forward (conv1 self) x ;;
  x <- ConvBR1d.forward (conv2 self) x ;;
  Ok x.
End Def.
Arguments t : clear implicits.
Arguments up_t : clear implicits.
End Up1d.

Module Up2d.
Section Def.
Context {T : Type} {ops : TensorOps T}.
Inductive up_t : Type :=
| UpUpsample (u : Upsample.t)
| UpConvTranspose (c : ConvTranspose2d.t T).

Record t : Type := mk {
  merge : bool; up : up_t; conv1 : ConvBR2d.t T; conv2 : SENextBottleneck2d.t T }.

Definition init (in_channels out_channels : Z) (bilinear merge : bool) : result t :=
  up <- (if bilinear
         then Ok (UpUpsample (Upsample.mk 2 bilinear_mode))
         else c <- ConvTranspose2d.init in_channels in_channels 2 2 0 ;;
              Ok (UpConvTranspose c)) ;;
  conv1 <- (if merge
            then ConvBR2d.init (in_channels + out_channels) in_channels 3 1 1 1 true
            else ConvBR2d.init in_channels in_channels 3 1 1 1 true) ;;
  conv2 <- SENextBottleneck2d.init in_channels out_channels 1 4 1 1 pool_max true ;;
  Ok (mk merge up conv1 conv2).

Definition up_forward (u : up_t) (x : T) : result T :=
  match u with
  | UpUpsample u => Upsample.forward u x
  | UpConvTranspose c => ConvTranspose2d.forward c x
  end.

(** The first four statements of [forward]: the pad list has TWO entries,
    so both amounts go to the last dimension (the width). *)
Definition aligned (self : t) (x1 x2 : T) : result T :=
  x1 <- up_forward (up self) x1 ;;
  a <- size_at x2 2 ;;
  b <- size_at x1 2 ;;
  let diff_h := a - b in
  a <- size_at x2 3 ;;
  b <- size_at x1 3 ;;
  let diff_w := a - b in
  F_pad x1 [diff_h - diff_h / 2; diff_w - diff_w / 2].

Definition forward (self : t) (x1 x2 : T) : result T :=
  x1 <- aligned self x1 x2 ;;
  x <- (if merge self then torch_cat [x2; x1] 1 else Ok x1) ;;
  x <- ConvBR2d.forward (conv1 self) x ;;
  x <- SENextBottleneck2d.forward (conv2 self) x ;;
  Ok x.
End Def.
Arguments t : clear implicits.
Arguments up_t : clear implicits.
End Up2d.

(** [x.view(x.shape[0], 1, *x.shape[1:])] *)
Definition view_add_channel {T : Type} {ops : TensorOps T} (x : T) : result T :=
  match size x with
  | [] => Raise IndexError
  | b :: rest => view x (b :: 1 :: rest)
  end.

Module UNet1d.
Section Def.
Context {T : Type} {ops : TensorOps T}.
Record t : Type := mk {
  inc_0 : Conv1d.t T;
  in_channels : Z;
  down1 : Down1d.t T; down2 : Down1d.t T; down3 : Down1d.t T; down4 : Down1d.t T;
  center : SENextBottleneck1d.t T;
  up4 : Up1d.t T; up3 : Up1d.t T; up2 : Up1d.t T; up1 : Up1d.t T;
  outc_0 : Conv1d.t T; outc_1 : Hardtanh.t }.

Definition init (in_channels out_channels : Z) : result t :=
  let base_channel := 128 * 1 in
  inc_0 <- Conv1d.init in_channels base_channel 3 1 2 1 true ;;
  down1 <- Down1d.init base_channel (base_channel * 2) pool_max ;;
  down2 <- Down1d.init (base_channel * 2) (base_channel * 4) pool_max ;;
  down3 <- Down1d.init (base_channel * 4) (base_channel * 8) pool_max ;;
  down4 <- Down1d.init (base_channel * 8) (base_channel * 16) pool_max ;;
  center <- SENextBottleneck1d.init (base_channel * 16) (base_channel * 16) 1 16
              pool_max false ;;
  up4 <- Up1d.init (base_channel * 16) (base_channel * 8) false true ;;
  up3 <- Up1d.init (base_channel * 8) (base_channel * 4) false true ;;
  up2 <- Up1d.init (base_channel * 4) (base_channel * 2) false true ;;
  up1 <- Up1d.init (base_channel * 2) base_channel false true ;;
  outc_0 <- Conv1d.init base_channel out_channels 3 1 0 1 true ;;
  Ok (mk inc_0 in_channels down1 down2 down3 down4 center up4 up3 up2 up1 outc_0
        (Hardtanh.mk (1 / 10000000000)%R 1%R)).

Definition inc (self : t) (x : T) : result T := Conv1d.forward (inc_0 self) x.

Definition outc (self : t) (x : T) : result T :=
  x <- Conv1d.forward (outc_0 self) x ;;
  Hardtanh.forward (outc_1 self) x.

Definition forward (self : t) (x : T) : result T :=
  n0 <- inc self x ;;
  n1 <- Down1d.forward (down1 self) n0 ;;
  n2 <- Down1d.forward (down2 self) n1 ;;
  n3 <- Down1d.forward (down3 self) n2 ;;
  n4 <- Down1d.forward (down4 self) n3 ;;
  n4 <- SENextBottleneck1d.forward (center self) n4 ;;
  n <- Up1d.forward (up4 self) n4 n3 ;;
  n <- Up1d.forward (up3 self) n3 n2 ;;
  n <- Up1d.forward (up2 self) n2 n1 ;;
  n <- Up1d.forward (up1 self) n1 n0 ;;
  x <- outc self n ;;
  Ok x.
End Def.
Arguments t : clear implicits.
End UNet1d.

Module UNet2d.
Section Def.
Context {T : Type} {ops : TensorOps T}.
Record t : Type := mk {
  in_channels : Z;
  inc_0 : Conv2d.t T;
  down1 : Down2d.t T; down2 : Down2d.t T; down3 : Down2d.t T;
  up3 : Up2d.t T; up2 : Up2d.t T; up1 : Up2d.t T;
  outc_0 : SENextBottleneck2d.t T; outc_1 : Conv2d.t T }.

Definition init (in_channels out_channels : Z) : result t :=
  let base_channel := 16 in
  inc_0 <- Conv2d.init 1 base_channel 3 1 1 1 true ;;
  down1 <- Down2d.init base_channel (base_channel * 2) pool_max ;;
  down2 <- Down2d.init (base_channel * 2) (base_channel * 4) pool_max ;;
  down3 <- Down2d.init (base_channel * 4) (base_channel * 8) pool_avg ;;
  up3 <- Up2d.init (base_channel * 8) (base_channel * 4) true true ;;
  up2 <- Up2d.init (base_channel * 4) (base_channel * 2) true true ;;
  up1 <- Up2d.init (base_channel * 2) base_channel true true ;;
  outc_0 <- SENextBottleneck2d.init base_channel base_channel 1 4 1 1 pool_max true ;;
  outc_1 <- Conv2d.init base_channel 1 1 1 0 1 true ;;
  Ok (mk in_channels inc_0 down1 down2 down3 up3 up2 up1 outc_0 outc_1).

Definition inc (self : t) (x : T) : result T := Conv2d.forward (inc_0 self) x.

Definition outc (self : t) (x : T) : result T :=
  x <- SENextBottleneck2d.forward (outc_0 self) x ;;
  Conv2d.forward (outc_1 self) x.

Definition forward (self : t) (x : T) : result T :=
  let input_shape := size x in
  x <- view_add_channel x ;;
  let x := torch_log x in
  n0 <- inc self x ;;
  n1 <- Down2d.forward (down1 self) n0 ;;
  n2 <- Down2d.forward (down2 self) n1 ;;
  n3 <- Down2d.forward (down3 self) n2 ;;
  n <- Up2d.forward (up3 self) n3 n2 ;;
  n <- Up2d.forward (up2 self) n2 n1 ;;
  n <- Up2d.forward (up1 self) n1 n0 ;;
  n <- outc self n ;;
  s <- torch_add n x ;;
  let x := torch_exp s in
  x <- view x input_shape ;;
  Ok x.
End Def.
Arguments t : clear implicits.
End UNet2d.

Module ResNext1d.
Section Def.
Context {T : Type} {ops : TensorOps T}.
(** [__init__] assigns [inc] and [outc] only: the module has no attribute
    [bottlenecks]. *)
Record t : Type := mk {
  inc_0 : Conv1d.t T;
  outc_0 : ConvBR1d.t T; outc_1 : ConvBR1d.t T; outc_2 : Conv1d.t T }.

Definition channels : list Z := [1024; 2048].

Definition init (in_channels out_channels : Z) : result t :=
  let c0 := nth 0 channels 0 in
  let c1 := nth 1 channels 0 in
  inc_0 <- Conv1d.init in_channels c0 5 1 2 1 true ;;
  outc_0 <- ConvBR1d.init c1 c1 5 2 1 1 true ;;
  outc_1 <- ConvBR1d.init c1 out_channels 3 1 1 1 true ;;
  outc_2 <- Conv1d.init out_channels out_channels 1 1 0 1 true ;;
  Ok (mk inc_0 outc_0 outc_1 outc_2).

Definition inc (self : t) (x : T) : result T := Conv1d.forward (inc_0 self) x.

Definition outc (self : t) (x : T) : result T :=
  x <- ConvBR1d.forward (outc_0 self) x ;;
  x <- ConvBR1d.forward (outc_1 self) x ;;
  Conv1d.forward (outc_2 self) x.

(** The attribute [self.bottlenecks]: never assigned, so the lookup fails. *)
Definition bottlenecks (self : t) : result (T -> result T) := getattr None.

Definition forward (self : t) (x : T) : result T :=
  let x := torch_pow x (1 / 2)%R in
  n <- inc self x ;;
  f <- bottlenecks self ;;
  n <- f n ;;
  n <- outc self n ;;
  s <- torch_add x n ;;
  let x := torch_pow s 2%R in
  Ok x.
End Def.
Arguments t : clear implicits.
End ResNext1d.

Module Micro2d.
Section Def.
Context {T : Type} {ops : TensorOps T}.
Record t : Type := mk {
  inc_0 : Conv2d.t T; inc_1 : ReLU.t;
  inc_2 : Conv2d.t T; inc_3 : ReLU.t;
  inc_4 : ConvTranspose2d.t T; inc_5 : ReLU.t;
  inc_6 : ConvTranspose2d.t T; inc_7 : ReLU.t;
  inc_8 : Conv2d.t T; inc_9 : Sigmoid.t }.

Definition channels : list Z := [128; 256; 512; 1024; 2048].

Definition init (in_channels out_channels : Z) : result t :=
  let c0 := nth 0 channels 0 in
  i0 <- Conv2d.init 1 c0 5 1 2 1 true ;;
  i2 <- Conv2d.init c0 c0 3 1 1 1 true ;;
  i4 <- ConvTranspose2d.init c0 c0 5 1 2 ;;
  i6 <- ConvTranspose2d.init c0 c0 3 1 0 ;;
  i8 <- Conv2d.init c0 1 3 1 0 1 true ;;
  Ok (mk i0 (ReLU.mk true) i2 (ReLU.mk true) i4 (ReLU.mk true) i6 (ReLU.mk true)
        i8 Sigmoid.mk).

Definition inc (self : t) (x : T) : result T :=
  x <- Conv2d.forward (inc_0 self) x ;;
  x <- ReLU.forward (inc_1 self) x ;;
  x <- Conv2d.forward (inc_2 self) x ;;
  x <- ReLU.forward (inc_3 self) x ;;
  x <- ConvTranspose2d.forward (inc_4 self) x ;;
  x <- ReLU.forward (inc_5 self) x ;;
  x <- ConvTranspose2d.forward (inc_6 self) x ;;
  x <- ReLU.forward (inc_7 self) x ;;
  x <- Conv2d.forward (inc_8 self) x ;;
  Sigmoid.forward (inc_9 self) x.

Definition forward (self : t) (x : T) : result T :=
  let input_shape := size x in
  x <- view_add_channel x ;;
  x <- inc self x ;;
  x <- view x input_shape ;;
  Ok x.
End Def.
Arguments t : clear implicits.
End Micro2d.

Module ResNext2d.
Section Def.
Context {T : Type} {ops : TensorOps T}.
Record t : Type := mk {
  inc_0 : ConvBR2d.t T; inc_1 : ConvBR2d.t T;
  bottlenecks_0 : SENextBottleneck2d.t T; bottlenecks_1 : SENextBottleneck2d.t T;
  outc_0 : Conv2d.t T; outc_1 : Sigmoid.t }.

Definition channels : list Z := [128; 256; 512; 1024; 2048].

Definition init (in_channels out_channels : Z) : result t :=
  let c0 := nth 0 channels 0 in
  let c1 := nth 1 channels 0 in
  let c2 := nth 2 channels 0 in
  i0 <- ConvBR2d.init 1 c0 5 2 1 1 true ;;
  i1 <- ConvBR2d.init c0 c0 3 1 1 1 true ;;
  b0 <- SENextBottleneck2d.init c0 c1 1 4 1 1 pool_max true ;;
  b1 <- SENextBottleneck2d.init c1 c2 1 4 1 1 pool_max true ;;
  o0 <- Conv2d.init c2 1 1 1 0 1 true ;;
  Ok (mk i0 i1 b0 b1 o0 Sigmoid.mk).

Definition inc (self : t) (x : T) : result T :=
  x <- ConvBR2d.forward (inc_0 self) x ;;
  ConvBR2d.forward (inc_1 self) x.

Definition bottlenecks (self : t) (x : T) : result T :=
  x <- SENextBottleneck2d.forward (bottlenecks_0 self) x ;;
  SENextBottleneck2d.forward (bottlenecks_1 self) x.

Definition outc (self : t) (x : T) : result T :=
  x <- Conv2d.forward (outc_0 self) x ;;
  Sigmoid.forward (outc_1 self) x.

Definition forward (self : t) (x : T) : result T :=
  let input_shape := size x in
  x <- view_add_channel x ;;
  n <- inc self x ;;
  n <- bottlenecks self n ;;
  n <- outc self n ;;
  x <- torch_add n x ;;
  x <- view x input_shape ;;
  Ok x.
End Def.
Arguments t : clear implicits.
End ResNext2d.

(** ** The value domain

    A tensor is a size and its elements in row-major order.  Pointwise
    operators are defined on the elements; the kernels that depend on
    learned weights or on windows of the input are the fields of [kernels],
    and every statement about values holds for all of them. *)

Module RTensor.

Record rtensor : Type := mk { rshape : list Z; rdata : list R }.

Class kernels : Type := {
  k_empty : list Z -> list R;
  k_conv1d : rtensor -> rtensor -> option rtensor -> Z -> Z -> Z -> result rtensor;
  k_conv2d : rtensor -> rtensor -> option rtensor -> Z -> Z -> Z -> result rtensor;
  k_conv_transpose1d : rtensor -> rtensor -> option rtensor -> Z -> Z -> result rtensor;
  k_conv_transpose2d : rtensor -> rtensor -> option rtensor -> Z -> Z -> result rtensor;
  k_batch_norm : rtensor -> rtensor -> rtensor -> rtensor -> rtensor -> bool -> result rtensor;
  k_max_pool1d : rtensor -> Z -> Z -> result rtensor;
  k_max_pool2d : rtensor -> Z -> Z -> result rtensor;
  k_avg_pool1d : rtensor -> Z -> Z -> result rtensor;
  k_avg_pool2d : rtensor -> Z -> Z -> result rtensor;
  k_adaptive_avg_pool1d : rtensor -> Z -> result rtensor;
  k_adaptive_avg_pool2d : rtensor -> Z -> result rtensor;
  k_interpolate : rtensor -> Z -> interp_mode -> result rtensor;
  k_pad : rtensor -> list Z -> result rtensor;
  k_cat : list rtensor -> Z -> result rtensor
}.

Definition pointwise (f : R -> R) (x : rtensor) : rtensor :=
  mk (rshape x) (map f (rdata x)).

Fixpoint map2 (f : R -> R -> R) (a b : list R) : list R :=
  match a, b with
  | x :: a', y :: b' => f x y :: map2 f a' b'
  | _, _ => []
  end.

Definition full (s : list Z) (v : R) : result rtensor :=
  if forallb (fun d => 0 <=? d) s
  then Ok (mk s (repeat v (Z.to_nat (Shape.numel s))))
  else Raise RuntimeError.

(** Row-major expansion of [data], of size [src], to the size [dst] of the
    same rank: a dimension of extent 1 is repeated. *)
Fixpoint chunks (n m : nat) (data : list R) : list (list R) :=
  match n with
  | O => []
  | S n' => firstn m data :: chunks n' m (skipn m data)
  end.

Fixpoint expand_rows (src dst : list Z) (data : list R) : list R :=
  match src, dst with
  | d :: src', e :: dst' =>
      let rows :=
        map (expand_rows src' dst')
            (chunks (Z.to_nat d) (Z.to_nat (Shape.numel src')) data) in
      if d =? e then concat rows else concat (repeat (concat rows) (Z.to_nat e))
  | _, _ => data
  end.

Definition expand_to (x : rtensor) (s : list Z) : list R :=
  if Shape.shape_eqb (rshape x) s then rdata x
  else expand_rows (repeat 1 (length s - length (rshape x)) ++ rshape x) s (rdata x).

(** A binary pointwise operator with broadcasting. *)
Definition broadcast2 (f : R -> R -> R) (a b : rtensor) : result rtensor :=
  s <- Shape.broadcast_shapes (rshape a) (rshape b) ;;
  Ok (mk s (map2 f (expand_to a s) (expand_to b s))).

Definition relu (v : R) : R := Rmax 0 v.

Definition sigmoid (v : R) : R := (/ (1 + exp (- v)))%R.

Definition hardtanh (lo hi v : R) : R := Rmin hi (Rmax lo v).

(** [base ** e] for the exponents the models use ([gamma], 1/2 and 2).
    With another exponent a base that is not positive yields 0. *)
Definition scalar_pow (e base : R) : R :=
  if Req_dec_T e 0 then 1%R
  else if Req_dec_T e 2 then (base * base)%R
  else if Rlt_dec 0 base then Rpower base e
  else 0%R.

Definition sum (l : list R) : R := fold_right Rplus 0%R l.

Definition mean (x : rtensor) : rtensor :=
  mk [] [(sum (rdata x) / INR (length (rdata x)))%R].

(** [F.binary_cross_entropy]: the logarithms are clamped at -100. *)
Definition clamped_log (v : R) : R :=
  if Rle_dec v 0 then (-100)%R else Rmax (ln v) (-100).

Definition bce (x t : R) : R :=
  (- (t * clamped_log x + (1 - t) * clamped_log (1 - x)))%R.

Definition in_unit_interval (v : R) : bool :=
  if Rle_dec 0 v then (if Rle_dec v 1 then true else false) else false.

Definition binary_cross_entropy (x t : rtensor) : result rtensor :=
  if negb (Shape.shape_eqb (rshape t) (rshape x)) then Raise ValueError
  else if negb (forallb in_unit_interval (rdata x)) then Raise RuntimeError
  else Ok (mk (rshape x) (map2 bce (rdata x) (rdata t))).

Definition view_data (x : rtensor) (s : list Z) : result rtensor :=
  s' <- Shape.view_shape (rshape x) s ;;
  Ok (mk s' (rdata x)).

Definition empty {K : kernels} (s : list Z) : result rtensor :=
  s' <- Shape.empty s ;;
  Ok (mk s' (k_empty s')).

#[global] Instance ops {K : kernels} : TensorOps rtensor := {|
  size := rshape;
  torch_empty := empty;
  torch_zeros := fun s => full s 0%R;
  torch_ones := fun s => full s 1%R;
  F_conv1d := k_conv1d;
  F_conv2d := k_conv2d;
  F_conv_transpose1d := k_conv_transpose1d;
  F_conv_transpose2d := k_conv_transpose2d;
  F_batch_norm := k_batch_norm;
  F_relu := pointwise relu;
  torch_sigmoid := pointwise sigmoid;
  F_hardtanh := fun x lo hi => pointwise (hardtanh lo hi) x;
  F_max_pool1d := k_max_pool1d;
  F_max_pool2d := k_max_pool2d;
  F_avg_pool1d := k_avg_pool1d;
  F_avg_pool2d := k_avg_pool2d;
  F_adaptive_avg_pool1d := k_adaptive_avg_pool1d;
  F_adaptive_avg_pool2d := k_adaptive_avg_pool2d;
  F_interpolate := k_interpolate;
  F_pad := k_pad;
  torch_cat := k_cat;
  torch_add := broadcast2 Rplus;
  torch_mul := broadcast2 Rmult;
  torch_log := pointwise ln;
  torch_exp := pointwise exp;
  torch_pow := fun x e => pointwise (scalar_pow e) x;
  view := view_data;
  F_binary_cross_entropy := binary_cross_entropy;
  torch_neg := pointwise Ropp;
  torch_rsub := fun c x => pointwise (fun v => (c - v)%R) x;
  torch_scale := fun c x => pointwise (fun v => (c * v)%R) x;
  torch_mean := mean
|}.

(** Kernels used to exhibit runs in the value domain: sizes as in the size
    domain, all elements zero. *)
Definition zeros_like (r : result Shape.shape) : result rtensor :=
  s <- r ;; full s 0%R.

Definition zero_kernels : kernels := {|
  k_empty := fun s => repeat 0%R (Z.to_nat (Shape.numel s));
  k_conv1d := fun x w b s p d =>
    zeros_like (Shape.conv1d (rshape x) (rshape w) (option_map rshape b) s p d);
  k_conv2d := fun x w b s p d =>
    zeros_like (Shape.conv2d (rshape x) (rshape w) (option_map rshape b) s p d);
  k_conv_transpose1d := fun x w b s p =>
    zeros_like (Shape.conv_transpose1d (rshape x) (rshape w) (option_map rshape b) s p);
  k_conv_transpose2d := fun x w b s p =>
    zeros_like (Shape.conv_transpose2d (rshape x) (rshape w) (option_map rshape b) s p);
  k_batch_norm := fun x rm rv w b tr =>
    zeros_like (Shape.batch_norm (rshape x) (rshape rm) (rshape rv) (rshape w) (rshape b) tr);
  k_max_pool1d := fun x k s => zeros_like (Shape.pool1d (rshape x) k s);
  k_max_pool2d := fun x k s => zeros_like (Shape.pool2d (rshape x) k s);
  k_avg_pool1d := fun x k s => zeros_like (Shape.pool1d (rshape x) k s);
  k_avg_pool2d := fun x k s => zeros_like (Shape.pool2d (rshape x) k s);
  k_adaptive_avg_pool1d := fun x o => zeros_like (Shape.adaptive_avg_pool1d (rshape x) o);
  k_adaptive_avg_pool2d := fun x o => zeros_like (Shape.adaptive_avg_pool2d (rshape x) o);
  k_interpolate := fun x sc m => zeros_like (Shape.interpolate (rshape x) sc m);
  k_pad := fun x p => zeros_like (Shape.pad (rshape x) p);
  k_cat := fun xs d => zeros_like (Shape.cat (map rshape xs) d)
|}.

End RTensor.

(** [LogCoshLoss] (in the value domain: it is a function of the elements). *)
Module LogCoshLoss.
Record t : Type := mk { }.

Definition init : t := mk.

Definition forward (self : t) (y_t y_prime_t : RTensor.rtensor)
    : result RTensor.rtensor :=
  ey_t <- RTensor.broadcast2 Rminus y_t y_prime_t ;;
  Ok (RTensor.mean
        (RTensor.pointwise ln
           (RTensor.pointwise cosh
              (RTensor.pointwise (fun v => (v + 1 / 1000000000000)%R) ey_t)))).
End LogCoshLoss.

(** ** Auxiliary definitions used in the statements *)

Section Aux.
Context {T : Type} {ops : TensorOps T}.

(** What [SENextBottleneck2d.forward] does with the branch [s] once both
    convolutions are done (the statements after [s = self.conv2(...)]). *)
Definition SENextBottleneck2d_tail (self : SENextBottleneck2d.t T) (x s : T) : result T :=
  s <- (if 1 <? SENextBottleneck2d.stride self
        then (p <- getattr (SENextBottleneck2d.pool self) ;; Pool2d.forward p s)
        else Ok s) ;;
  s <- CSE2d.forward (SENextBottleneck2d.se self) s ;;
  x <- (if SENextBottleneck2d.is_shortcut self
        then
          x <- (if 1 <? SENextBottleneck2d.stride self
                then F_avg_pool2d x (SENextBottleneck2d.stride self)
                       (SENextBottleneck2d.stride self)
                else Ok x) ;;
          sc <- getattr (SENextBottleneck2d.shortcut self) ;;
          ConvBR2d.forward sc x
        else Ok x) ;;
  x <- torch_add x s ;;
  ReLU.forward (SENextBottleneck2d.activation self) x.

Definition SENextBottleneck1d_tail (self : SENextBottleneck1d.t T) (x s : T) : result T :=
  s <- (if 1 <? SENextBottleneck1d.stride self
        then (p <- getattr (SENextBottleneck1d.pool self) ;; Pool1d.forward p s)
        else Ok s) ;;
  s <- SCSE1d.forward (SENextBottleneck1d.se self) s ;;
  x <- (if SENextBottleneck1d.is_shortcut self
        then
          x <- (if 1 <? SENextBottleneck1d.stride self
                then F_avg_pool1d x (SENextBottleneck1d.stride self)
                       (SENextBottleneck1d.stride self)
                else Ok x) ;;
          sc <- getattr (SENextBottleneck1d.shortcut self) ;;
          ConvBR1d.forward sc x
        else Ok x) ;;
  x <- torch_add x s ;;
  ReLU.forward (SENextBottleneck1d.activation self) x.

(** [UNet1d.forward] with the stages whose result it never uses left out. *)
Definition UNet1d_used_path (self : UNet1d.t T) (x : T) : result T :=
  n0 <- UNet1d.inc self x ;;
  n1 <- Down1d.forward (UNet1d.down1 self) n0 ;;
  n <- Up1d.forward (UNet1d.up1 self) n1 n0 ;;
  UNet1d.outc self n.

End Aux.

(** The modules the constructors build in the size domain, written out. *)
Definition conv2d_of (i o k s p d : Z) (b : bool) : Conv2d.t Shape.shape :=
  Conv2d.mk [o; i; k; k] (if b then Some [o] else None) s p d.

Definition conv1d_of (i o k s p d : Z) (b : bool) : Conv1d.t Shape.shape :=
  Conv1d.mk [o; i; k] (if b then Some [o] else None) s p d.

Definition bn_of (n : Z) : BatchNorm.t Shape.shape :=
  BatchNorm.mk [n] [n] [n] [n] true.

Definition convbr2d_of (i o k p d s : Z) (act : bool) : ConvBR2d.t Shape.shape :=
  ConvBR2d.mk (conv2d_of i o k s p d false) (bn_of o) act
    (if act then Some (ReLU.mk true) else None).

Definition convbr1d_of (i o k p d s : Z) (act : bool) : ConvBR1d.t Shape.shape :=
  ConvBR1d.mk (conv1d_of i o k s p d true) (bn_of o) act
    (if act then Some (ReLU.mk true) else None).

Definition cse2d_of (c r : Z) : CSE2d.t Shape.shape :=
  CSE2d.mk (AdaptiveAvgPool2d.mk 1) (conv2d_of c (c / r) 1 1 0 1 true) (ReLU.mk true)
    (conv2d_of (c / r) c 1 1 0 1 true) Sigmoid.mk.

Definition cse1d_of (c r : Z) : CSE1d.t Shape.shape :=
  CSE1d.mk (AdaptiveAvgPool1d.mk 1) (conv1d_of c (c / r) 1 1 0 1 true) (ReLU.mk true)
    (conv1d_of (c / r) c 1 1 0 1 true) Sigmoid.mk.

Definition scse1d_of (c r : Z) : SCSE1d.t Shape.shape :=
  SCSE1d.mk (cse1d_of c r) (SSE1d.mk (conv1d_of c 1 1 1 0 1 true) Sigmoid.mk).

Definition pool2d_of (stride : Z) (pool : pool_kind) : option Pool2d.t :=
  if 1 <? stride
  then match pool with
       | pool_max => Some (Pool2d.MaxPool2d stride stride)
       | pool_avg => Some (Pool2d.AvgPool2d stride stride)
       end
  else None.

Definition pool1d_of (stride : Z) (pool : pool_kind) : option Pool1d.t :=
  if 1 <? stride
  then match pool with
       | pool_max => Some (Pool1d.MaxPool1d stride stride)
       | pool_avg => Some (Pool1d.AvgPool1d stride stride)
       end
  else None.

Definition bottleneck2d_of (i o stride r d p : Z) (pool : pool_kind) (sc : bool)
    : SENextBottleneck2d.t Shape.shape :=
  SENextBottleneck2d.mk (convbr2d_of i o 3 p d 1 true) (convbr2d_of i o 3 p d 1 true)
    (cse2d_of o r) stride sc (ReLU.mk true)
    (if sc then Some (convbr2d_of i o 1 0 1 1 false) else None)
    (pool2d_of stride pool).

Definition bottleneck1d_of (i o stride r : Z) (pool : pool_kind) (sc : bool)
    : SENextBottleneck1d.t Shape.shape :=
  SENextBottleneck1d.mk (convbr1d_of i o 3 1 1 1 true) (convbr1d_of o o 3 1 1 1 true)
    (scse1d_of o r) stride sc
    (if sc then Some (convbr1d_of i o 1 0 1 1 false) else None)
    (ReLU.mk true) (pool1d_of stride pool).

Definition down1d_of (i o : Z) (pool : pool_kind) : Down1d.t Shape.shape :=
  Down1d.mk (bottleneck1d_of i o 2 16 pool true).

Definition down2d_of (i o : Z) (pool : pool_kind) : Down2d.t Shape.shape :=
  Down2d.mk (bottleneck2d_of i o 2 4 1 1 pool true)
    (bottleneck2d_of o o 1 4 1 1 pool_max false).

(** [Up1d(i, o, bilinear=False, merge=True)] *)
Definition up1d_of (i o : Z) : Up1d.t Shape.shape :=
  Up1d.mk true
    (Up1d.UpConvTranspose (ConvTranspose1d.mk [i; i; 2] (Some [i]) 2 0))
    (convbr1d_of (i + o) o 3 1 1 1 true) (convbr1d_of o o 3 1 1 1 true).

(** [Up2d(i, o, bilinear=True, merge=True)] *)
Definition up2d_of (i o : Z) : Up2d.t Shape.shape :=
  Up2d.mk true (Up2d.UpUpsample (Upsample.mk 2 bilinear_mode))
    (convbr2d_of (i + o) i 3 1 1 1 true)
    (bottleneck2d_of i o 1 4 1 1 pool_max true).

Definition unet1d_of (in_channels out_channels : Z) : UNet1d.t Shape.shape :=
  UNet1d.mk (conv1d_of in_channels 128 3 1 2 1 true) in_channels
    (down1d_of 128 256 pool_max) (down1d_of 256 512 pool_max)
    (down1d_of 512 1024 pool_max) (down1d_of 1024 2048 pool_max)
    (bottleneck1d_of 2048 2048 1 16 pool_max false)
    (up1d_of 2048 1024) (up1d_of 1024 512) (up1d_of 512 256) (up1d_of 256 128)
    (conv1d_of 128 out_channels 3 1 0 1 true)
    (Hardtanh.mk (1 / 10000000000)%R 1%R).

Definition unet2d_of (in_channels : Z) : UNet2d.t Shape.shape :=
  UNet2d.mk in_channels (conv2d_of 1 16 3 1 1 1 true)
    (down2d_of 16 32 pool_max) (down2d_of 32 64 pool_max) (down2d_of 64 128 pool_avg)
    (up2d_of 128 64) (up2d_of 64 32) (up2d_of 32 16)
    (bottleneck2d_of 16 16 1 4 1 1 pool_max true) (conv2d_of 16 1 1 1 0 1 true).

Definition resnext2d_of : ResNext2d.t Shape.shape :=
  ResNext2d.mk (convbr2d_of 1 128 5 2 1 1 true) (convbr2d_of 128 128 3 1 1 1 true)
    (bottleneck2d_of 128 256 1 4 1 1 pool_max true)
    (bottleneck2d_of 256 512 1 4 1 1 pool_max true)
    (conv2d_of 512 1 1 1 0 1 true) Sigmoid.mk.

Definition micro2d_of : Micro2d.t Shape.shape :=
  Micro2d.mk (conv2d_of 1 128 5 1 2 1 true) (ReLU.mk true)
    (conv2d_of 128 128 3 1 1 1 true) (ReLU.mk true)
    (ConvTranspose2d.mk [128; 128; 5; 5] (Some [128]) 1 2) (ReLU.mk true)
    (ConvTranspose2d.mk [128; 128; 3; 3] (Some [128]) 1 0) (ReLU.mk true)
    (conv2d_of 128 1 3 1 0 1 true) Sigmoid.mk.

(** The focal term of one element [b] of the cross-entropy tensor:
    [alpha * (1 - exp(-b)) ** gamma * b]. *)
Definition focal_term (alpha gamma b : R) : R :=
  (alpha * RTensor.scalar_pow gamma (1 - exp (- b)) * b)%R.

(** * Properties *)

Lemma bind_ok_inv {A B : Type} (r : result A) (k : A -> result B) (b : B) :
  bind r k = Ok b -> exists a, r = Ok a /\ k a = Ok b.
Proof.
  destruct r as [a|e]; simpl; intros E; [eauto | discriminate].
Qed.

Lemma bind_ok {A B : Type} (r : result A) (k : A -> result B) (a : A) :
  r = Ok a -> bind r k = k a.
Proof. intros ->; reflexivity. Qed.

(** ** Data flow of the residual branch *)

Section BottleneckFlow.
Context {T : Type} {ops : TensorOps T}.

Lemma bind_ret_r (r : result T) : (x <- r ;; Ok x) = r.
Proof. destruct r; reflexivity. Qed.

Lemma SENextBottleneck2d_forward_unfold (self : SENextBottleneck2d.t T) (x : T) :
  SENextBottleneck2d.forward self x =
  (s1 <- ConvBR2d.forward (SENextBottleneck2d.conv1 self) x ;;
   s <- ConvBR2d.forward (SENextBottleneck2d.conv2 self) x ;;
   SENextBottleneck2d_tail self x s).
Proof.
  unfold SENextBottleneck2d.forward, SENextBottleneck2d_tail.
  destruct (ConvBR2d.forward (SENextBottleneck2d.conv1 self) x) as [s1|e]; simpl; [|reflexivity].
  destruct (ConvBR2d.forward (SENextBottleneck2d.conv2 self) x) as [s|e]; simpl; [|reflexivity].
  repeat match goal with
         | |- bind ?r _ = bind ?r _ => destruct r; simpl; [|reflexivity]
         end.
  reflexivity.
Qed.

Lemma SENextBottleneck1d_forward_unfold (self : SENextBottleneck1d.t T) (x : T) :
  SENextBottleneck1d.forward self x =
  (s1 <- ConvBR1d.forward (SENextBottleneck1d.conv1 self) x ;;
   s <- ConvBR1d.forward (SENextBottleneck1d.conv2 self) s1 ;;
   SENextBottleneck1d_tail self x s).
Proof.
  unfold SENextBottleneck1d.forward, SENextBottleneck1d_tail.
  destruct (ConvBR1d.forward (SENextBottleneck1d.conv1 self) x) as [s1|e]; simpl; [|reflexivity].
  destruct (ConvBR1d.forward (SENextBottleneck1d.conv2 self) s1) as [s|e]; simpl; [|reflexivity].
  repeat match goal with
         | |- bind ?r _ = bind ?r _ => destruct r; simpl; [|reflexivity]
         end.
  reflexivity.
Qed.

(** C1. Once [conv1(x)] has returned, the 2-D block continues with
    [conv2] applied to the input [x] itself, whatever [conv1] returned,
    whereas the 1-D block continues with [conv2] applied to the result of
    [conv1]; for every tensor domain, module and input. *)
Theorem residual_branch_input :
  (forall (self : SENextBottleneck2d.t T) (x s1 : T),
      ConvBR2d.forward (SENextBottleneck2d.conv1 self) x = Ok s1 ->
      SENextBottleneck2d.forward self x =
      (s <- ConvBR2d.forward (SENextBottleneck2d.conv2 self) x ;;
       SENextBottleneck2d_tail self x s))
  /\
  (forall (self : SENextBottleneck1d.t T) (x s1 : T),
      ConvBR1d.forward (SENextBottleneck1d.conv1 self) x = Ok s1 ->
      SENextBottleneck1d.forward self x =
      (s <- ConvBR1d.forward (SENextBottleneck1d.conv2 self) s1 ;;
       SENextBottleneck1d_tail self x s)).
Proof.
  split; intros self x s1 H.
  - rewrite SENextBottleneck2d_forward_unfold, H. reflexivity.
  - rewrite SENextBottleneck1d_forward_unfold, H. reflexivity.
Qed.

(** The output of the 2-D block does not depend on the parameters of
    [conv1], as long as [conv1] accepts the input. *)
Lemma SENextBottleneck2d_ignores_conv1
    (c1 c1' c2 : ConvBR2d.t T) (se : CSE2d.t T) (stride : Z) (is_shortcut : bool)
    (act : ReLU.t) (sc : option (ConvBR2d.t T)) (pool : option Pool2d.t) (x s1 s1' : T) :
  ConvBR2d.forward c1 x = Ok s1 ->
  ConvBR2d.forward c1' x = Ok s1' ->
  SENextBottleneck2d.forward
    (SENextBottleneck2d.mk c1 c2 se stride is_shortcut act sc pool) x =
  SENextBottleneck2d.forward
    (SENextBottleneck2d.mk c1' c2 se stride is_shortcut act sc pool) x.
Proof.
  intros H H'. rewrite !SENextBottleneck2d_forward_unfold. simpl.
  rewrite H, H'. reflexivity.
Qed.

End BottleneckFlow.

(** A run of C1 in the size domain: blocks with 2 input and 4 output
    channels on batches of 2. *)
Lemma residual_branch_input_witness :
  (exists m : SENextBottleneck2d.t Shape.shape,
      SENextBottleneck2d.init 2 4 1 4 1 1 pool_max true = Ok m
      /\ SENextBottleneck2d.forward m [2; 2; 8; 8] =
         (s <- ConvBR2d.forward (SENextBottleneck2d.conv2 m) [2; 2; 8; 8] ;;
          SENextBottleneck2d_tail m [2; 2; 8; 8] s))
  /\
  (exists m : SENextBottleneck1d.t Shape.shape,
      SENextBottleneck1d.init 2 4 1 4 pool_max true = Ok m
      /\ SENextBottleneck1d.forward m [2; 2; 8] =
         (s <- ConvBR1d.forward (SENextBottleneck1d.conv2 m) [2; 4; 8] ;;
          SENextBottleneck1d_tail m [2; 2; 8] s)).
Proof.
  split; eexists; (split; [vm_compute; reflexivity|]).
  - apply (proj1 residual_branch_input) with (s1 := [2; 4; 8; 8]).
    vm_compute; reflexivity.
  - apply (proj2 residual_branch_input) with (s1 := [2; 4; 8]).
    vm_compute; reflexivity.
Defined.

(** ** Data flow of the 1-D U-Net decoder *)

Section UNet1dFlow.
Context {T : Type} {ops : TensorOps T}.

Ltac bind_inv H :=
  let a := fresh "n" in
  let E := fresh "E" in
  apply bind_ok_inv in H; destruct H as (a & E & H).

Lemma unet1d_forward_used_path (self : UNet1d.t T) (x y : T) :
  UNet1d.forward self x = Ok y -> UNet1d_used_path self x = Ok y.
Proof.
  unfold UNet1d.forward, UNet1d_used_path. intros H.
  do 11 bind_inv H. injection H as <-.
  rewrite E. cbn [bind]. rewrite E0. cbn [bind]. rewrite E8. cbn [bind]. assumption.
Qed.

(** C2. In a successful run of [UNet1d.forward] the decoder stages are
    called as [up4(n4, n3)], [up3(n3, n2)], [up2(n2, n1)], [up1(n1, n0)] on
    the encoder outputs; the results of [up4], [up3] and [up2] go nowhere,
    and the output is [outc(up1(n1, n0))], which is what the path through
    [inc], [down1], [up1] and [outc] alone computes. *)
Theorem unet1d_decoder_flow (self : UNet1d.t T) (x y : T) :
  UNet1d.forward self x = Ok y ->
  exists n0 n1 n2 n3 n4 c u4 u3 u2 n,
    UNet1d.inc self x = Ok n0
    /\ Down1d.forward (UNet1d.down1 self) n0 = Ok n1
    /\ Down1d.forward (UNet1d.down2 self) n1 = Ok n2
    /\ Down1d.forward (UNet1d.down3 self) n2 = Ok n3
    /\ Down1d.forward (UNet1d.down4 self) n3 = Ok n4
    /\ SENextBottleneck1d.forward (UNet1d.center self) n4 = Ok c
    /\ Up1d.forward (UNet1d.up4 self) c n3 = Ok u4
    /\ Up1d.forward (UNet1d.up3 self) n3 n2 = Ok u3
    /\ Up1d.forward (UNet1d.up2 self) n2 n1 = Ok u2
    /\ Up1d.forward (UNet1d.up1 self) n1 n0 = Ok n
    /\ UNet1d.outc self n = Ok y
    /\ UNet1d_used_path self x = Ok y.
Proof.
  unfold UNet1d.forward. intros H.
  do 11 bind_inv H. injection H as <-.
  exists n, n0, n1, n2, n3, n4, n5, n6, n7, n8.
  repeat split; try assumption.
  unfold UNet1d_used_path. rewrite E. simpl. rewrite E0. simpl.
  rewrite E8. simpl. assumption.
Qed.

(** Two networks that share [inc], [down1], [up1] and [outc] return the
    same tensor whenever both return. *)
Lemma unet1d_output_depends_on_outer_stages (self self' : UNet1d.t T) (x y y' : T) :
  UNet1d.inc_0 self = UNet1d.inc_0 self' ->
  UNet1d.down1 self = UNet1d.down1 self' ->
  UNet1d.up1 self = UNet1d.up1 self' ->
  UNet1d.outc_0 self = UNet1d.outc_0 self' ->
  UNet1d.outc_1 self = UNet1d.outc_1 self' ->
  UNet1d.forward self x = Ok y ->
  UNet1d.forward self' x = Ok y' ->
  y = y'.
Proof.
  intros Hi Hd Hu Ho0 Ho1 H H'.
  apply unet1d_forward_used_path in H. apply unet1d_forward_used_path in H'.
  unfold UNet1d_used_path, UNet1d.inc, UNet1d.outc in H, H'.
  rewrite Hi, Hd, Hu, Ho0, Ho1 in H. congruence.
Qed.

End UNet1dFlow.

(** A run of C2 in the size domain: [UNet1d(1, 1)] on a [(2, 1, 32)]
    tensor. *)
Lemma unet1d_decoder_flow_witness :
  exists m : UNet1d.t Shape.shape,
    UNet1d.init 1 1 = Ok m
    /\ UNet1d.forward m [2; 1; 32] = Ok [2; 1; 32]
    /\ exists n0 n1 n2 n3 n4 c u4 u3 u2 n,
        UNet1d.inc m [2; 1; 32] = Ok n0
        /\ Down1d.forward (UNet1d.down1 m) n0 = Ok n1
        /\ Down1d.forward (UNet1d.down2 m) n1 = Ok n2
        /\ Down1d.forward (UNet1d.down3 m) n2 = Ok n3
        /\ Down1d.forward (UNet1d.down4 m) n3 = Ok n4
        /\ SENextBottleneck1d.forward (UNet1d.center m) n4 = Ok c
        /\ Up1d.forward (UNet1d.up4 m) c n3 = Ok u4
        /\ Up1d.forward (UNet1d.up3 m) n3 n2 = Ok u3
        /\ Up1d.forward (UNet1d.up2 m) n2 n1 = Ok u2
        /\ Up1d.forward (UNet1d.up1 m) n1 n0 = Ok n
        /\ UNet1d.outc m n = Ok [2; 1; 32]
        /\ UNet1d_used_path m [2; 1; 32] = Ok [2; 1; 32].
Proof.
  eexists. split; [vm_compute; reflexivity|].
  split; [vm_compute; reflexivity|].
  apply unet1d_decoder_flow. vm_compute; reflexivity.
Defined.

(** ** The missing attribute of [ResNext1d] *)

(** C4 (ResNext1d). [ResNext1d.forward] raises on every input, in every
    tensor domain: it reads [self.bottlenecks], which [__init__] never
    assigns. *)
Theorem resnext1d_forward_raises {T : Type} {ops : TensorOps T}
    (self : ResNext1d.t T) (x : T) :
  exists e, ResNext1d.forward self x = Raise e.
Proof.
  unfold ResNext1d.forward.
  destruct (ResNext1d.inc self (torch_pow x (1 / 2))) as [n|e]; simpl; eauto.
Qed.

(** A valid input, [ResNext1d(in_channels=1, out_channels=1)] on a
    [(2, 1, 8)] tensor: the stem accepts it, then the lookup fails. *)
Example resnext1d_attribute_error :
  (m <- ResNext1d.init (T := Shape.shape) 1 1 ;; ResNext1d.inc m [2; 1; 8])
    = Ok [2; 1024; 8]
  /\ (m <- ResNext1d.init (T := Shape.shape) 1 1 ;; ResNext1d.forward m [2; 1; 8])
    = Raise AttributeError.
Proof. split; vm_compute; reflexivity. Qed.

(** ** Values: the additive gate, the final activation, the focal loss *)

Section Values.
Context {K : RTensor.kernels}.

Import RTensor.

Lemma shape_eqb_refl (s : list Z) : Shape.shape_eqb s s = true.
Proof. induction s as [|d s IH]; simpl; [reflexivity|]. rewrite Z.eqb_refl; exact IH. Qed.

Lemma broadcast_rev_refl (s : list Z) : Shape.broadcast_rev s s = Some s.
Proof.
  induction s as [|d s IH]; simpl; [reflexivity|].
  rewrite Z.eqb_refl, IH. reflexivity.
Qed.

Lemma broadcast_shapes_refl (s : list Z) : Shape.broadcast_shapes s s = Ok s.
Proof.
  unfold Shape.broadcast_shapes. rewrite broadcast_rev_refl, rev_involutive. reflexivity.
Qed.

(** On two tensors of one size, a broadcasting operator is the pointwise
    operator. *)
Lemma broadcast2_same_size (f : R -> R -> R) (s : list Z) (da db : list R) :
  broadcast2 f (mk s da) (mk s db) = Ok (mk s (map2 f da db)).
Proof.
  unfold broadcast2, expand_to; simpl.
  rewrite broadcast_shapes_refl; simpl. rewrite shape_eqb_refl. reflexivity.
Qed.

(** C8. [SCSE2d(x)] is [torch_add] of [CSE2d(x)] and [SSE2d(x)], and
    likewise in 1-D, for every module and input (a failure of either gate
    is a failure of the combination); and [torch_add] of two tensors of one
    size is their elementwise sum. *)
Theorem scse_is_sum_of_gates :
  (forall (self : SCSE2d.t rtensor) (x : rtensor),
      SCSE2d.forward self x =
      (a <- CSE2d.forward (SCSE2d.c_se self) x ;;
       b <- SSE2d.forward (SCSE2d.s_se self) x ;;
       torch_add a b))
  /\ (forall (self : SCSE1d.t rtensor) (x : rtensor),
      SCSE1d.forward self x =
      (a <- CSE1d.forward (SCSE1d.c_se self) x ;;
       b <- SSE1d.forward (SCSE1d.s_se self) x ;;
       torch_add a b))
  /\ (forall (s : list Z) (da db : list R),
      torch_add (mk s da) (mk s db) = Ok (mk s (map2 Rplus da db))).
Proof.
  repeat split.
  intros s da db. apply broadcast2_same_size.
Qed.

Lemma relu_nonneg (v : R) : (0 <= relu v)%R.
Proof. unfold relu. apply Rmax_l. Qed.

Lemma F_relu_nonneg (x : rtensor) : Forall (fun v => (0 <= v)%R) (rdata (F_relu x)).
Proof.
  simpl. apply Forall_forall. intros v Hv. apply in_map_iff in Hv.
  destruct Hv as (u & <- & _). apply relu_nonneg.
Qed.

(** C10. Whenever a bottleneck block returns, every element of the
    returned tensor is non-negative, in 2-D and in 1-D, whatever the
    parameters and the kernels. *)
Theorem bottleneck_output_nonneg :
  (forall (self : SENextBottleneck2d.t rtensor) (x y : rtensor),
      SENextBottleneck2d.forward self x = Ok y ->
      Forall (fun v => (0 <= v)%R) (rdata y))
  /\ (forall (self : SENextBottleneck1d.t rtensor) (x y : rtensor),
      SENextBottleneck1d.forward self x = Ok y ->
      Forall (fun v => (0 <= v)%R) (rdata y)).
Proof.
  split; intros self x y H.
  - unfold SENextBottleneck2d.forward in H.
    repeat (apply bind_ok_inv in H; destruct H as (? & ? & H)).
    injection H as <-.
    match goal with
    | E : ReLU.forward _ _ = Ok _ |- _ => unfold ReLU.forward in E; injection E as <-
    end.
    apply F_relu_nonneg.
  - unfold SENextBottleneck1d.forward in H.
    repeat (apply bind_ok_inv in H; destruct H as (? & ? & H)).
    injection H as <-.
    match goal with
    | E : ReLU.forward _ _ = Ok _ |- _ => unfold ReLU.forward in E; injection E as <-
    end.
    apply F_relu_nonneg.
Qed.

Lemma map2_map_l (f : R -> R -> R) (g : R -> R) (d : list R) :
  map2 f (map g d) d = map (fun v => f (g v) v) d.
Proof. induction d as [|v d IH]; simpl; [reflexivity|]. rewrite IH. reflexivity. Qed.

Lemma focal_factor_times_bce (alpha gamma : R) (b : rtensor) :
  torch_mul (torch_scale alpha (torch_pow (torch_rsub 1%R (torch_exp (torch_neg b))) gamma)) b
  = Ok (pointwise (focal_term alpha gamma) b).
Proof.
  destruct b as [s d]. simpl. unfold pointwise; simpl.
  rewrite broadcast2_same_size. rewrite !map_map, map2_map_l. reflexivity.
Qed.

Lemma scalar_pow_0 (base : R) : scalar_pow 0 base = 1%R.
Proof. unfold scalar_pow. destruct (Req_dec_T 0 0) as [_|N]; [reflexivity | contradiction]. Qed.

Lemma focal_term_1_0 (b : R) : focal_term 1 0 b = b.
Proof. unfold focal_term. rewrite scalar_pow_0. ring. Qed.

(** C9. [FocalLoss.forward] is, on the cross-entropy tensor [BCE],
    the elementwise [alpha * (1 - exp(-BCE)) ** gamma * BCE], reduced to its
    mean when [reduce] is set and returned as it is otherwise; with
    [alpha = 1], [gamma = 0] and [reduce = True] it is the mean of the
    cross-entropy of its arguments. *)
Theorem focal_loss_formula :
  (forall (self : FocalLoss.t) (inputs targets : rtensor),
      FocalLoss.forward self inputs targets =
      (BCE <- F_binary_cross_entropy inputs targets ;;
       let F_loss := pointwise (focal_term (FocalLoss.alpha self) (FocalLoss.gamma self)) BCE in
       Ok (if FocalLoss.reduce self then torch_mean F_loss else F_loss)))
  /\ (forall (inputs targets : rtensor),
      FocalLoss.forward (FocalLoss.init 1 0 true) inputs targets =
      (BCE <- F_binary_cross_entropy inputs targets ;; Ok (torch_mean BCE))).
Proof.
  assert (A : forall (self : FocalLoss.t) (inputs targets : rtensor),
      FocalLoss.forward self inputs targets =
      (BCE <- F_binary_cross_entropy inputs targets ;;
       let F_loss := pointwise (focal_term (FocalLoss.alpha self) (FocalLoss.gamma self)) BCE in
       Ok (if FocalLoss.reduce self then torch_mean F_loss else F_loss))).
  { intros self inputs targets. unfold FocalLoss.forward.
    destruct (F_binary_cross_entropy inputs targets) as [b|e]; [|reflexivity].
    cbn [bind]. rewrite focal_factor_times_bce. cbn [bind].
    destruct (FocalLoss.reduce self); reflexivity. }
  split; [exact A|].
  intros inputs targets. rewrite A.
  destruct (F_binary_cross_entropy inputs targets) as [[s d]|e]; [|reflexivity].
  cbn [bind FocalLoss.init FocalLoss.alpha FocalLoss.gamma FocalLoss.reduce].
  unfold pointwise; cbn [rshape rdata].
  rewrite (map_ext _ (fun v => v) focal_term_1_0), map_id. reflexivity.
Qed.

End Values.

(** A run of C10 with the zero kernels: blocks with one channel and no
    shortcut, on inputs with elements of both signs. *)
Lemma bottleneck_output_nonneg_witness :
  (exists m y,
      SENextBottleneck2d.init (ops := RTensor.ops (K := RTensor.zero_kernels))
        1 1 1 1 1 1 pool_max false = Ok m
      /\ SENextBottleneck2d.forward (ops := RTensor.ops (K := RTensor.zero_kernels)) m
           (RTensor.mk [2; 1; 2; 2] [-1; 2; -3; 4; 5; -6; 7; -8]%R) = Ok y
      /\ Forall (fun v => (0 <= v)%R) (RTensor.rdata y))
  /\ (exists m y,
      SENextBottleneck1d.init (ops := RTensor.ops (K := RTensor.zero_kernels))
        1 1 1 1 pool_max false = Ok m
      /\ SENextBottleneck1d.forward (ops := RTensor.ops (K := RTensor.zero_kernels)) m
           (RTensor.mk [2; 1; 3] [-1; 2; -3; 4; 5; -6]%R) = Ok y
      /\ Forall (fun v => (0 <= v)%R) (RTensor.rdata y)).
Proof.
  split.
  - eexists. eexists. split; [reflexivity|].
    match goal with |- ?A /\ _ => assert (F : A) by reflexivity end.
    split; [exact F|].
    exact (proj1 (bottleneck_output_nonneg (K := RTensor.zero_kernels)) _ _ _ F).
  - eexists. eexists. split; [reflexivity|].
    match goal with |- ?A /\ _ => assert (F : A) by reflexivity end.
    split; [exact F|].
    exact (proj2 (bottleneck_output_nonneg (K := RTensor.zero_kernels)) _ _ _ F).
Defined.

(** ** Sizes: the alignment of the upsampled tensor *)

Section UpAlignment.
Import Shape.

Lemma pad_last (n c l a b : Z) (y : shape) :
  pad [n; c; l] [a; b] = Ok y -> y = [n; c; l + a + b].
Proof.
  unfold pad. cbn [rev app pad_rev].
  destruct (narrow_ok l a b && _); cbn; [|discriminate].
  intros H; injection H as <-. reflexivity.
Qed.

Lemma up1d_init_up (i o : Z) (bl mg : bool) (self : Up1d.t shape) :
  Up1d.init i o bl mg = Ok self ->
  Up1d.up self = Up1d.UpUpsample (Upsample.mk 2 linear)
  \/ exists c, Up1d.up self = Up1d.UpConvTranspose c.
Proof.
  unfold Up1d.init. intros H.
  apply bind_ok_inv in H. destruct H as (u & Eu & H).
  apply bind_ok_inv in H. destruct H as (c1 & _ & H).
  apply bind_ok_inv in H. destruct H as (c2 & _ & H).
  injection H as <-. cbn.
  destruct bl.
  - injection Eu as <-. left; reflexivity.
  - apply bind_ok_inv in Eu. destruct Eu as (c & _ & Eu).
    injection Eu as <-. right; eauto.
Qed.

Lemma up1d_rank3 (i o : Z) (bl mg : bool) (self : Up1d.t shape) (x y : shape) :
  Up1d.init i o bl mg = Ok self ->
  Up1d.up_forward (Up1d.up self) x = Ok y -> exists n c l, y = [n; c; l].
Proof.
  intros Hi. apply up1d_init_up in Hi. destruct Hi as [-> | [[w b s p] ->]]; cbn.
  - unfold interpolate.
    destruct x as [|n [|c [|l [|? ?]]]]; try discriminate.
    destruct (_ && _); try discriminate. intros H; injection H as <-; eauto.
  - unfold conv_transpose1d.
    destruct x as [|n [|c [|l [|? ?]]]]; try discriminate.
    destruct w as [|ci [|co [|k [|? ?]]]]; try discriminate.
    destruct (_ && _); try discriminate. intros H; injection H as <-; eauto.
Qed.

(** C3 (1-D part). Whenever the alignment step of [Up1d.forward] returns,
    the length of the aligned tensor is the length of the skip input, also
    when the upsampled tensor is the longer one. *)
Lemma up1d_aligned_length (i o : Z) (bl mg : bool) (self : Up1d.t shape)
    (x1 x2 y : shape) :
  Up1d.init i o bl mg = Ok self ->
  Up1d.aligned self x1 x2 = Ok y ->
  exists l, size_at x2 2 = Ok l /\ size_at y 2 = Ok l.
Proof.
  unfold Up1d.aligned. intros Hi H.
  apply bind_ok_inv in H. destruct H as (u & Eu & H).
  apply bind_ok_inv in H. destruct H as (a & Ea & H).
  apply bind_ok_inv in H. destruct H as (b & Eb & H).
  eapply up1d_rank3 in Eu; [|exact Hi]. destruct Eu as (n & c & l & ->).
  cbn in Eb. injection Eb as <-.
  apply pad_last in H. subst y. exists a. split; [assumption|].
  cbn. f_equal. lia.
Qed.

(** C3 (2-D part). [Up2d(32, 16, bilinear=True)] on a coarse tensor of
    size [(1, 32, 2, 2)] and a skip tensor of size [(1, 16, 5, 4)]: the
    upsampled tensor is 4 by 4; the alignment step leaves its height at 4
    and makes its width 5, where the skip tensor is 5 by 4; the
    concatenation then raises. *)
Theorem up2d_alignment_misses_target :
  (m <- Up2d.init 32 16 true true ;; Up2d.up_forward (Up2d.up m) [1; 32; 2; 2])
    = Ok [1; 32; 4; 4]
  /\ (m <- Up2d.init 32 16 true true ;; Up2d.aligned m [1; 32; 2; 2] [1; 16; 5; 4])
    = Ok [1; 32; 4; 5]
  /\ (m <- Up2d.init 32 16 true true ;; Up2d.forward m [1; 32; 2; 2] [1; 16; 5; 4])
    = Raise RuntimeError.
Proof. repeat split; vm_compute; reflexivity. Qed.

Lemma pad_last_any_rank (x : shape) (a b : Z) (y : shape) :
  pad x [a; b] = Ok y ->
  exists pre l, x = pre ++ [l] /\ y = pre ++ [l + a + b].
Proof.
  unfold pad. destruct (rev x) as [|l r] eqn:E; cbn; [discriminate|].
  destruct (narrow_ok l a b && _); cbn; [|discriminate].
  intros H; injection H as <-. exists (rev r), l. split; [|reflexivity].
  rewrite <- (rev_involutive x), E. reflexivity.
Qed.

(** X11. The alignment step of [Up2d.forward] never changes the height,
    for every module and every pair of inputs. *)
Lemma up2d_aligned_keeps_height (self : Up2d.t shape) (x1 x2 u y : shape) :
  Up2d.up_forward (Up2d.up self) x1 = Ok u ->
  Up2d.aligned self x1 x2 = Ok y ->
  size_at y 2 = size_at u 2.
Proof.
  unfold Up2d.aligned. intros Eu H. rewrite Eu in H. cbn [bind] in H.
  apply bind_ok_inv in H. destruct H as (a & _ & H).
  apply bind_ok_inv in H. destruct H as (b & _ & H).
  apply bind_ok_inv in H. destruct H as (a' & _ & H).
  apply bind_ok_inv in H. destruct H as (b' & Eb & H).
  apply pad_last_any_rank in H. destruct H as (pre & l & -> & ->).
  unfold size_at in *. cbn [size ops] in *.
  assert (L : (3 < length (pre ++ [l]))%nat).
  { apply nth_error_Some. destruct (nth_error (pre ++ [l]) 3); discriminate. }
  rewrite length_app in L. cbn in L.
  rewrite !nth_error_app1 by lia. reflexivity.
Qed.

End UpAlignment.

(** ** Sizes: construction and forward of the channel gate *)

Section GateConstruction.
Import Shape.

Lemma empty_ok (s : shape) :
  Forall (fun d => 0 <= d) s -> empty s = Ok s.
Proof.
  intros H. unfold empty.
  replace (forallb (fun d => 0 <=? d) s) with true; [reflexivity|].
  symmetry. apply forallb_forall. intros d Hd.
  apply Z.leb_le. revert d Hd. apply Forall_forall. exact H.
Qed.

Lemma conv2d_init_ok (i o k s p d : Z) (b : bool) :
  0 <= i -> 0 <= o -> 0 <= k ->
  Conv2d.init i o k s p d b
  = Ok (Conv2d.mk [o; i; k; k] (if b then Some [o] else None) s p d).
Proof.
  intros Hi Ho Hk. unfold Conv2d.init. cbn [torch_empty ops].
  rewrite empty_ok by (repeat constructor; assumption). cbn [bind].
  destruct b; [|reflexivity].
  rewrite empty_ok by (repeat constructor; assumption). reflexivity.
Qed.

Lemma conv1d_init_ok (i o k s p d : Z) (b : bool) :
  0 <= i -> 0 <= o -> 0 <= k ->
  Conv1d.init i o k s p d b
  = Ok (Conv1d.mk [o; i; k] (if b then Some [o] else None) s p d).
Proof.
  intros Hi Ho Hk. unfold Conv1d.init. cbn [torch_empty ops].
  rewrite empty_ok by (repeat constructor; assumption). cbn [bind].
  destruct b; [|reflexivity].
  rewrite empty_ok by (repeat constructor; assumption). reflexivity.
Qed.

Lemma floordiv_ok (a b : Z) : b <> 0 -> floordiv a b = Ok (a / b).
Proof. intros H. unfold floordiv. apply Z.eqb_neq in H. rewrite H. reflexivity. Qed.

Lemma cse2d_init_ok (c r : Z) :
  0 <= c -> 0 < r ->
  CSE2d.init c r
  = Ok (CSE2d.mk (AdaptiveAvgPool2d.mk 1)
          (Conv2d.mk [c / r; c; 1; 1] (Some [c / r]) 1 0 1) (ReLU.mk true)
          (Conv2d.mk [c; c / r; 1; 1] (Some [c]) 1 0 1) Sigmoid.mk).
Proof.
  intros Hc Hr. unfold CSE2d.init.
  assert (0 <= c / r) by (apply Z.div_pos; lia).
  rewrite floordiv_ok by lia. cbn [bind].
  rewrite !conv2d_init_ok by lia. reflexivity.
Qed.

Lemma cse1d_init_ok (c r : Z) :
  0 <= c -> 0 < r ->
  CSE1d.init c r
  = Ok (CSE1d.mk (AdaptiveAvgPool1d.mk 1)
          (Conv1d.mk [c / r; c; 1] (Some [c / r]) 1 0 1) (ReLU.mk true)
          (Conv1d.mk [c; c / r; 1] (Some [c]) 1 0 1) Sigmoid.mk).
Proof.
  intros Hc Hr. unfold CSE1d.init.
  assert (0 <= c / r) by (apply Z.div_pos; lia).
  rewrite floordiv_ok by lia. cbn [bind].
  rewrite !conv1d_init_ok by lia. reflexivity.
Qed.

(** C6, as the code has it. For [1 <= reduction <= in_channels], whether
    or not [reduction] divides [in_channels], both constructors return: the
    squeeze convolution gets [in_channels // reduction] output channels
    (rounded down) and the expansion maps them back to [in_channels]. *)
Theorem cse_init_rounds_down (in_channels reduction : Z) :
  1 <= reduction <= in_channels ->
  (exists m : CSE2d.t shape,
      CSE2d.init in_channels reduction = Ok m
      /\ Conv2d.weight (CSE2d.se_1 m) = [in_channels / reduction; in_channels; 1; 1]
      /\ Conv2d.weight (CSE2d.se_3 m) = [in_channels; in_channels / reduction; 1; 1]
      /\ 1 <= in_channels / reduction)
  /\ (exists m : CSE1d.t shape,
      CSE1d.init in_channels reduction = Ok m
      /\ Conv1d.weight (CSE1d.se_1 m) = [in_channels / reduction; in_channels; 1]
      /\ Conv1d.weight (CSE1d.se_3 m) = [in_channels; in_channels / reduction; 1]
      /\ 1 <= in_channels / reduction).
Proof.
  intros H.
  assert (1 <= in_channels / reduction).
  { apply Z.div_le_lower_bound; lia. }
  split; eexists; (split; [first [apply cse2d_init_ok | apply cse1d_init_ok]; lia|]);
    cbn; auto.
Qed.

(** [CSE2d(10, 4)] and [CSE1d(10, 4)]: 4 does not divide 10, both
    constructors return (with 2 squeezed channels), and [forward] works. *)
Lemma cse_init_non_divisor_succeeds :
  10 mod 4 <> 0
  /\ is_ok (CSE2d.init (T := shape) 10 4) = true
  /\ is_ok (CSE1d.init (T := shape) 10 4) = true
  /\ (m <- CSE2d.init 10 4 ;; CSE2d.forward m [2; 10; 8; 8]) = Ok [2; 10; 8; 8]
  /\ (m <- CSE1d.init 10 4 ;; CSE1d.forward m [2; 10; 8]) = Ok [2; 10; 8].
Proof. repeat split; vm_compute; congruence. Qed.

Lemma cse_init_rounds_down_witness :
  (exists m : CSE2d.t shape,
      CSE2d.init 10 4 = Ok m
      /\ Conv2d.weight (CSE2d.se_1 m) = [10 / 4; 10; 1; 1]
      /\ Conv2d.weight (CSE2d.se_3 m) = [10; 10 / 4; 1; 1]
      /\ 1 <= 10 / 4)
  /\ (exists m : CSE1d.t shape,
      CSE1d.init 10 4 = Ok m
      /\ Conv1d.weight (CSE1d.se_1 m) = [10 / 4; 10; 1]
      /\ Conv1d.weight (CSE1d.se_3 m) = [10; 10 / 4; 1]
      /\ 1 <= 10 / 4).
Proof. apply (cse_init_rounds_down (in_channels := 10) (reduction := 4)). lia. Defined.

End GateConstruction.

(** ** Sizes: what the constructors build *)

Lemma empty_inv (s t : Shape.shape) : Shape.empty s = Ok t -> t = s.
Proof. unfold Shape.empty. destruct (forallb _ s); [|discriminate]. intros H; injection H; auto. Qed.

Lemma floordiv_inv (a b q : Z) : floordiv a b = Ok q -> b <> 0 /\ q = a / b.
Proof.
  unfold floordiv. destruct (Z.eqb_spec b 0); [discriminate|].
  intros H; injection H; auto.
Qed.

Ltac inv_ok :=
  repeat match goal with
         | H : bind _ _ = Ok _ |- _ =>
             apply bind_ok_inv in H; destruct H as (? & ? & H)
         | H : Ok _ = Ok _ |- _ => injection H as H
         | H : Shape.empty _ = Ok _ |- _ => apply empty_inv in H
         | H : floordiv _ _ = Ok _ |- _ => apply floordiv_inv in H; destruct H
         end.

Section ConstructorInversion.
Import Shape.

Lemma conv2d_init_inv (i o k s p d : Z) (b : bool) (c : Conv2d.t shape) :
  Conv2d.init i o k s p d b = Ok c -> c = conv2d_of i o k s p d b.
Proof.
  unfold Conv2d.init, conv2d_of. cbn [torch_empty ops]. intros H.
  destruct b; inv_ok; subst; reflexivity.
Qed.

Lemma conv1d_init_inv (i o k s p d : Z) (b : bool) (c : Conv1d.t shape) :
  Conv1d.init i o k s p d b = Ok c -> c = conv1d_of i o k s p d b.
Proof.
  unfold Conv1d.init, conv1d_of. cbn [torch_empty ops]. intros H.
  destruct b; inv_ok; subst; reflexivity.
Qed.

Lemma bn_init_inv (n : Z) (b : BatchNorm.t shape) :
  BatchNorm.init n = Ok b -> b = bn_of n.
Proof.
  unfold BatchNorm.init, bn_of. cbn [torch_ones torch_zeros ops]. intros H.
  inv_ok; subst; reflexivity.
Qed.

Lemma convbr2d_init_inv (i o k p d s : Z) (act : bool) (c : ConvBR2d.t shape) :
  ConvBR2d.init i o k p d s act = Ok c -> c = convbr2d_of i o k p d s act.
Proof.
  unfold ConvBR2d.init, convbr2d_of. intros H. inv_ok.
  repeat match goal with
         | E : Conv2d.init _ _ _ _ _ _ _ = Ok _ |- _ => apply conv2d_init_inv in E
         | E : BatchNorm.init _ = Ok _ |- _ => apply bn_init_inv in E
         end.
  subst; reflexivity.
Qed.

Lemma convbr1d_init_inv (i o k p d s : Z) (act : bool) (c : ConvBR1d.t shape) :
  ConvBR1d.init i o k p d s act = Ok c -> c = convbr1d_of i o k p d s act.
Proof.
  unfold ConvBR1d.init, convbr1d_of. intros H. inv_ok.
  repeat match goal with
         | E : Conv1d.init _ _ _ _ _ _ _ = Ok _ |- _ => apply conv1d_init_inv in E
         | E : BatchNorm.init _ = Ok _ |- _ => apply bn_init_inv in E
         end.
  subst; reflexivity.
Qed.

Lemma cse2d_init_inv (c r : Z) (m : CSE2d.t shape) :
  CSE2d.init c r = Ok m -> r <> 0 /\ m = cse2d_of c r.
Proof.
  unfold CSE2d.init, cse2d_of. intros H. inv_ok.
  repeat match goal with
         | E : Conv2d.init _ _ _ _ _ _ _ = Ok _ |- _ => apply conv2d_init_inv in E
         end.
  subst; auto.
Qed.

Lemma cse1d_init_inv (c r : Z) (m : CSE1d.t shape) :
  CSE1d.init c r = Ok m -> r <> 0 /\ m = cse1d_of c r.
Proof.
  unfold CSE1d.init, cse1d_of. intros H. inv_ok.
  repeat match goal with
         | E : Conv1d.init _ _ _ _ _ _ _ = Ok _ |- _ => apply conv1d_init_inv in E
         end.
  subst; auto.
Qed.

Lemma scse1d_init_inv (c r : Z) (m : SCSE1d.t shape) :
  SCSE1d.init c r = Ok m -> r <> 0 /\ m = scse1d_of c r.
Proof.
  unfold SCSE1d.init, scse1d_of, SSE1d.init. intros H. inv_ok.
  repeat match goal with
         | E : Conv1d.init _ _ _ _ _ _ _ = Ok _ |- _ => apply conv1d_init_inv in E
         | E : CSE1d.init _ _ = Ok _ |- _ => apply cse1d_init_inv in E; destruct E
         end.
  subst; auto.
Qed.

Lemma bottleneck2d_init_inv (i o st r d p : Z) (pool : pool_kind) (sc : bool)
    (m : SENextBottleneck2d.t shape) :
  SENextBottleneck2d.init i o st r d p pool sc = Ok m ->
  r <> 0 /\ m = bottleneck2d_of i o st r d p pool sc.
Proof.
  unfold SENextBottleneck2d.init, bottleneck2d_of, pool2d_of. intros H.
  destruct sc; inv_ok;
    repeat match goal with
           | E : ConvBR2d.init _ _ _ _ _ _ _ = Ok _ |- _ => apply convbr2d_init_inv in E
           | E : CSE2d.init _ _ = Ok _ |- _ => apply cse2d_init_inv in E; destruct E
           end;
    subst; auto.
Qed.

Lemma bottleneck1d_init_inv (i o st r : Z) (pool : pool_kind) (sc : bool)
    (m : SENextBottleneck1d.t shape) :
  SENextBottleneck1d.init i o st r pool sc = Ok m ->
  r <> 0 /\ m = bottleneck1d_of i o st r pool sc.
Proof.
  unfold SENextBottleneck1d.init, bottleneck1d_of, pool1d_of. intros H.
  destruct sc; inv_ok;
    repeat match goal with
           | E : ConvBR1d.init _ _ _ _ _ _ _ = Ok _ |- _ => apply convbr1d_init_inv in E
           | E : SCSE1d.init _ _ = Ok _ |- _ => apply scse1d_init_inv in E; destruct E
           end;
    subst; auto.
Qed.

End ConstructorInversion.

(** ** Sizes: forward of the building blocks *)

Section BlockSizes.
Import Shape.

Lemma conv_out_stride1 (l k p d : Z) : conv_out l k 1 p d = l + 2 * p - d * (k - 1).
Proof. unfold conv_out. rewrite Z.div_1_r. lia. Qed.

(** [ConvBR2d.forward] on a 4-D input with the right channel count. *)
Lemma convbr2d_forward_size (i o k p d s : Z) (act : bool) (n h w : Z) :
  ConvBR2d.forward (convbr2d_of i o k p d s act) [n; i; h; w] =
  if conv_args_ok s p d && conv_fits h k p d && conv_fits w k p d
  then if n * (conv_out h k s p d * (conv_out w k s p d * 1)) =? 1
       then Raise ValueError
       else Ok [n; o; conv_out h k s p d; conv_out w k s p d]
  else Raise RuntimeError.
Proof.
  unfold ConvBR2d.forward, convbr2d_of, Conv2d.forward, conv2d_of, bn_of.
  cbn [ConvBR2d.conv ConvBR2d.bn ConvBR2d.is_activation ConvBR2d.activation
       Conv2d.weight Conv2d.bias Conv2d.stride Conv2d.padding Conv2d.dilation
       F_conv2d ops conv2d bias_ok].
  rewrite Z.eqb_refl. cbn [andb].
  rewrite <- !andb_assoc.
  destruct (conv_args_ok s p d && (conv_fits h k p d && conv_fits w k p d)); [|reflexivity].
  cbn [bind]. unfold BatchNorm.forward2d, BatchNorm.batch_norm.
  cbn [size ops length Nat.eqb negb BatchNorm.running_mean BatchNorm.running_var
       BatchNorm.weight BatchNorm.bias BatchNorm.training F_batch_norm batch_norm
       shape_eqb numel fold_right].
  rewrite Z.eqb_refl. cbn [andb negb].
  destruct (_ =? 1); cbn [bind]; [reflexivity|].
  destruct act; reflexivity.
Qed.

Lemma broadcast_gate2d (n c h w : Z) :
  broadcast_shapes [n; c; h; w] [n; c; 1; 1] = Ok [n; c; h; w].
Proof.
  unfold broadcast_shapes. cbn [rev app broadcast_rev].
  rewrite !Z.eqb_refl.
  destruct (w =? 1) eqn:Ew; destruct (h =? 1) eqn:Eh; cbn; reflexivity.
Qed.

(** [CSE2d.forward] keeps the size of a 4-D input with the right channel
    count. *)
Lemma cse2d_forward_size (c r n h w : Z) :
  1 <= h -> 1 <= w ->
  CSE2d.forward (cse2d_of c r) [n; c; h; w] = Ok [n; c; h; w].
Proof.
  intros Hh Hw.
  unfold CSE2d.forward, CSE2d.se, cse2d_of, conv2d_of, AdaptiveAvgPool2d.forward,
    Conv2d.forward, ReLU.forward, Sigmoid.forward.
  cbn [CSE2d.se_0 CSE2d.se_1 CSE2d.se_2 CSE2d.se_3 CSE2d.se_4
       AdaptiveAvgPool2d.output_size F_adaptive_avg_pool2d ops adaptive_avg_pool2d].
  apply Z.leb_le in Hh, Hw. rewrite Hh, Hw. cbn [andb Z.leb Z.compare bind].
  cbn [Conv2d.weight Conv2d.bias Conv2d.stride Conv2d.padding Conv2d.dilation
       F_conv2d F_relu torch_sigmoid torch_mul ops conv2d bias_ok].
  rewrite !Z.eqb_refl. cbn. rewrite !Z.eqb_refl. cbn.
  rewrite broadcast_gate2d. reflexivity.
Qed.

Lemma broadcast_channels_mismatch (n n' i o h h' w w' : Z) :
  i <> o -> i <> 1 -> o <> 1 ->
  broadcast_shapes [n; i; h; w] [n'; o; h'; w'] = Raise RuntimeError.
Proof.
  intros Hio Hi Ho. unfold broadcast_shapes. cbn [rev app broadcast_rev].
  apply Z.eqb_neq in Hio, Hi, Ho. rewrite Hio, Hi, Ho.
  destruct (w =? w'), (w =? 1), (w' =? 1), (h =? h'), (h =? 1), (h' =? 1); reflexivity.
Qed.

End BlockSizes.

(** ** Sizes: the residual sum without a shortcut *)

Section ResidualSum.
Import Shape.

Lemma convbr2d_forward_bad_input (i o k p d s : Z) (act : bool) (x : shape) :
  (forall n h w, x <> [n; i; h; w]) ->
  ConvBR2d.forward (convbr2d_of i o k p d s act) x = Raise RuntimeError.
Proof.
  intros H. unfold ConvBR2d.forward, Conv2d.forward, convbr2d_of, conv2d_of.
  cbn [ConvBR2d.conv Conv2d.weight Conv2d.bias Conv2d.stride Conv2d.padding
       Conv2d.dilation F_conv2d ops].
  unfold conv2d.
  destruct x as [|n [|c [|h [|w [|? ?]]]]]; try reflexivity.
  destruct (Z.eqb_spec c i) as [->|N]; [|reflexivity].
  exfalso. apply (H n h w). reflexivity.
Qed.

Lemma bottleneck2d_forward_plain (i o r d p : Z) (pool : pool_kind) (x : shape) :
  SENextBottleneck2d.forward (bottleneck2d_of i o 1 r d p pool false) x =
  (s <- ConvBR2d.forward (convbr2d_of i o 3 p d 1 true) x ;;
   s <- ConvBR2d.forward (convbr2d_of i o 3 p d 1 true) x ;;
   s <- CSE2d.forward (cse2d_of o r) s ;;
   broadcast_shapes x s).
Proof.
  rewrite SENextBottleneck2d_forward_unfold.
  unfold SENextBottleneck2d_tail, bottleneck2d_of, ReLU.forward.
  cbn [SENextBottleneck2d.conv1 SENextBottleneck2d.conv2 SENextBottleneck2d.se
       SENextBottleneck2d.stride SENextBottleneck2d.is_shortcut bind
       torch_add F_relu ops].
  change (1 <? 1) with false. cbn iota.
  destruct (ConvBR2d.forward _ x); cbn [bind]; [|reflexivity].
  destruct (CSE2d.forward _ _); cbn [bind]; [|reflexivity].
  destruct (broadcast_shapes _ _); reflexivity.
Qed.

(** C7, as the code has it. A [SENextBottleneck2d] built with
    [is_shortcut=False], [stride=1] and [in_channels <> out_channels],
    neither of them 1, raises on every input: a [RuntimeError] on the
    sizes (at the latest at [x + s]), or the [ValueError] of batch
    normalisation on a single value per channel. *)
Theorem bottleneck2d_channel_mismatch_raises
    (in_channels out_channels reduction dilation padding : Z) (pool : pool_kind)
    (m : SENextBottleneck2d.t shape) (x : shape) :
  in_channels <> out_channels -> in_channels <> 1 -> out_channels <> 1 ->
  SENextBottleneck2d.init in_channels out_channels 1 reduction dilation padding pool false
    = Ok m ->
  SENextBottleneck2d.forward m x = Raise RuntimeError
  \/ SENextBottleneck2d.forward m x = Raise ValueError.
Proof.
  intros Hio Hi Ho Hm.
  apply bottleneck2d_init_inv in Hm. destruct Hm as [_ ->].
  rewrite bottleneck2d_forward_plain.
  assert (D : (exists n h w, x = [n; in_channels; h; w])
              \/ (forall n h w, x <> [n; in_channels; h; w])).
  { destruct x as [|n [|c [|h [|w [|? ?]]]]];
      try (right; intros; discriminate).
    destruct (Z.eq_dec c in_channels) as [->|N].
    - left; eauto.
    - right; intros ? ? ? E; injection E; intros; subst; contradiction. }
  destruct D as [(n & h & w & ->)|D].
  - rewrite convbr2d_forward_size.
    destruct (conv_args_ok 1 padding dilation && conv_fits h 3 padding dilation
              && conv_fits w 3 padding dilation) eqn:F; [|left; reflexivity].
    destruct (_ =? 1); [right; reflexivity|]. cbn [bind].
    apply andb_prop in F. destruct F as [F Fw].
    apply andb_prop in F. destruct F as [A Fh].
    unfold conv_fits in Fh, Fw. apply Z.leb_le in Fh, Fw.
    rewrite cse2d_forward_size by (rewrite conv_out_stride1; lia).
    cbn [bind]. left. apply broadcast_channels_mismatch; assumption.
  - rewrite convbr2d_forward_bad_input by assumption. left; reflexivity.
Qed.

(** [SENextBottleneck2d(1, 4, is_shortcut=False)] (stride 1) on a
    [(2, 1, 8, 8)] tensor: the channel counts differ, the sum [x + s]
    broadcasts the single input channel, and [forward] returns. *)
Lemma bottleneck2d_single_channel_broadcasts :
  (m <- SENextBottleneck2d.init 1 4 1 4 1 1 pool_max false ;;
   SENextBottleneck2d.forward m [2; 1; 8; 8]) = Ok [2; 4; 8; 8].
Proof. vm_compute. reflexivity. Qed.

Lemma bottleneck2d_channel_mismatch_raises_witness :
  exists m : SENextBottleneck2d.t shape,
    SENextBottleneck2d.init 3 4 1 4 1 1 pool_max false = Ok m
    /\ (SENextBottleneck2d.forward m [2; 3; 8; 8] = Raise RuntimeError
        \/ SENextBottleneck2d.forward m [2; 3; 8; 8] = Raise ValueError).
Proof.
  eexists. split; [vm_compute; reflexivity|].
  eapply (@bottleneck2d_channel_mismatch_raises 3 4 4 1 1 pool_max);
    [lia | lia | lia | vm_compute; reflexivity].
Defined.

End ResidualSum.

(** ** Sizes: the 2-D architectures *)

Section Architectures2d.
Import Shape.

(** C5 (UNet2d). [UNet2d(1, 1)] on a [(2, 12, 16)] tensor: the third
    encoder output is 1 by 2, the second 3 by 4; [up3] upsamples to 2 by 4,
    its alignment step leaves the height at 2 and widens to 5, and the
    concatenation with the 3 by 4 skip tensor raises. *)
Theorem unet2d_raises_on_height_12 :
  (m <- UNet2d.init 1 1 ;;
   x <- view_add_channel [2; 12; 16] ;;
   n0 <- UNet2d.inc m x ;;
   n1 <- Down2d.forward (UNet2d.down1 m) n0 ;;
   n2 <- Down2d.forward (UNet2d.down2 m) n1 ;;
   n3 <- Down2d.forward (UNet2d.down3 m) n2 ;;
   a <- Up2d.aligned (UNet2d.up3 m) n3 n2 ;;
   Ok (n2, n3, a)) = Ok ([2; 64; 3; 4], [2; 128; 1; 2], [2; 128; 2; 5])
  /\ (m <- UNet2d.init 1 1 ;; UNet2d.forward m [2; 12; 16]) = Raise RuntimeError.
Proof. split; vm_compute; reflexivity. Qed.

(** The end-to-end example of the specification: a [(2, 64, 64)] input
    comes back with its size. *)
Example unet2d_64_by_64 :
  (m <- UNet2d.init 1 1 ;; UNet2d.forward m [2; 64; 64]) = Ok [2; 64; 64].
Proof. vm_compute; reflexivity. Qed.

End Architectures2d.

(** ** Sizes: what the architectures' constructors build *)

Section ArchitectureConstruction.
Import Shape.

Lemma unet1d_init_eq (i o : Z) :
  0 <= i -> 0 <= o -> UNet1d.init i o = Ok (unet1d_of i o).
Proof.
  intros Hi Ho. unfold UNet1d.init.
  rewrite conv1d_init_ok by lia. cbn [bind].
  set (tail := Conv1d.init (128 * 1) o 3 1 0 1 true).
  assert (Et : tail = Ok (conv1d_of 128 o 3 1 0 1 true)).
  { unfold tail. change (128 * 1) with 128. apply conv1d_init_ok; lia. }
  clearbody tail. subst tail. vm_compute. reflexivity.
Qed.

Lemma unet2d_init_eq (i o : Z) : UNet2d.init i o = Ok (unet2d_of i).
Proof. vm_compute. reflexivity. Qed.

Lemma resnext2d_init_eq (i o : Z) : ResNext2d.init i o = Ok resnext2d_of.
Proof. vm_compute. reflexivity. Qed.

Lemma micro2d_init_eq (i o : Z) : Micro2d.init i o = Ok micro2d_of.
Proof. vm_compute. reflexivity. Qed.

End ArchitectureConstruction.

(** ** Sizes: forward of the 1-D blocks *)

Section BlockSizes1d.
Import Shape.

Lemma bn_batch_ok (n l : Z) :
  1 <= n -> 1 <= l -> 2 <= n \/ 2 <= l -> (n * (l * 1) =? 1) = false.
Proof. intros Hn Hl H. apply Z.eqb_neq. nia. Qed.

Lemma conv1d_forward_size (i o k s p d : Z) (b : bool) (n l : Z) :
  Conv1d.forward (conv1d_of i o k s p d b) [n; i; l] =
  if conv_args_ok s p d && conv_fits l k p d
  then Ok [n; o; conv_out l k s p d]
  else Raise RuntimeError.
Proof.
  unfold Conv1d.forward, conv1d_of.
  cbn [Conv1d.weight Conv1d.bias Conv1d.stride Conv1d.padding Conv1d.dilation
       F_conv1d ops conv1d].
  rewrite Z.eqb_refl.
  destruct b; cbn [bias_ok andb]; rewrite ?Z.eqb_refl; reflexivity.
Qed.

Lemma convbr1d_forward_size (i o k p d s : Z) (act : bool) (n l : Z) :
  ConvBR1d.forward (convbr1d_of i o k p d s act) [n; i; l] =
  if conv_args_ok s p d && conv_fits l k p d
  then if n * (conv_out l k s p d * 1) =? 1
       then Raise ValueError
       else Ok [n; o; conv_out l k s p d]
  else Raise RuntimeError.
Proof.
  unfold ConvBR1d.forward, convbr1d_of.
  cbn [ConvBR1d.conv ConvBR1d.bn ConvBR1d.is_activation ConvBR1d.activation].
  rewrite conv1d_forward_size.
  destruct (conv_args_ok s p d && conv_fits l k p d); [|reflexivity].
  cbn [bind]. unfold BatchNorm.forward1d, BatchNorm.batch_norm, bn_of.
  cbn [size ops length Nat.eqb negb andb BatchNorm.running_mean BatchNorm.running_var
       BatchNorm.weight BatchNorm.bias BatchNorm.training F_batch_norm batch_norm
       shape_eqb numel fold_right].
  rewrite Z.eqb_refl. cbn [andb negb].
  destruct (_ =? 1); cbn [bind]; [reflexivity|].
  destruct act; reflexivity.
Qed.

(** The 3-tap, padding-1 convolution block keeps the length. *)
Lemma convbr1d_same_size (i o : Z) (n l : Z) :
  1 <= n -> 1 <= l -> 2 <= n \/ 2 <= l ->
  ConvBR1d.forward (convbr1d_of i o 3 1 1 1 true) [n; i; l] = Ok [n; o; l].
Proof.
  intros Hn Hl H. rewrite convbr1d_forward_size.
  rewrite conv_out_stride1.
  replace (l + 2 * 1 - 1 * (3 - 1)) with l by lia.
  unfold conv_args_ok, conv_fits.
  replace (1 * (3 - 1) + 1 <=? l + 2 * 1) with true by (symmetry; apply Z.leb_le; lia).
  cbn [Z.leb Z.compare Pos.compare Pos.compare_cont andb].
  rewrite bn_batch_ok by assumption. reflexivity.
Qed.

(** The 1-tap projection of the shortcut keeps the length. *)
Lemma convbr1d_pointwise_size (i o : Z) (n l : Z) :
  1 <= n -> 1 <= l -> 2 <= n \/ 2 <= l ->
  ConvBR1d.forward (convbr1d_of i o 1 0 1 1 false) [n; i; l] = Ok [n; o; l].
Proof.
  intros Hn Hl H. rewrite convbr1d_forward_size.
  rewrite conv_out_stride1.
  replace (l + 2 * 0 - 1 * (1 - 1)) with l by lia.
  unfold conv_args_ok, conv_fits.
  replace (1 * (1 - 1) + 1 <=? l + 2 * 0) with true by (symmetry; apply Z.leb_le; lia).
  cbn [Z.leb Z.compare Pos.compare Pos.compare_cont andb].
  rewrite bn_batch_ok by assumption. reflexivity.
Qed.

Lemma broadcast_gate1d (n c l : Z) :
  broadcast_shapes [n; c; l] [n; c; 1] = Ok [n; c; l]
  /\ broadcast_shapes [n; c; l] [n; 1; l] = Ok [n; c; l].
Proof.
  unfold broadcast_shapes. cbn [rev app broadcast_rev].
  rewrite !Z.eqb_refl.
  destruct (l =? 1), (c =? 1); cbn; split; reflexivity.
Qed.

Lemma conv1d_pointwise_size (i o : Z) (b : bool) (n l : Z) :
  1 <= l ->
  Conv1d.forward (conv1d_of i o 1 1 0 1 b) [n; i; l] = Ok [n; o; l].
Proof.
  intros Hl. rewrite conv1d_forward_size, conv_out_stride1.
  unfold conv_args_ok, conv_fits.
  replace (1 * (1 - 1) + 1 <=? l + 2 * 0) with true by (symmetry; apply Z.leb_le; lia).
  replace (l + 2 * 0 - 1 * (1 - 1)) with l by lia.
  reflexivity.
Qed.

Lemma cse1d_forward_size (c r n l : Z) :
  1 <= l ->
  CSE1d.forward (cse1d_of c r) [n; c; l] = Ok [n; c; l].
Proof.
  intros Hl.
  unfold CSE1d.forward, CSE1d.se, cse1d_of, AdaptiveAvgPool1d.forward, ReLU.forward,
    Sigmoid.forward.
  cbn [CSE1d.se_0 CSE1d.se_1 CSE1d.se_2 CSE1d.se_3 CSE1d.se_4
       AdaptiveAvgPool1d.output_size F_adaptive_avg_pool1d ops adaptive_avg_pool1d].
  replace (1 <=? l) with true by (symmetry; apply Z.leb_le; lia).
  change (0 <=? 1) with true. cbn [andb bind].
  rewrite conv1d_pointwise_size by lia. cbn [bind F_relu ops].
  rewrite conv1d_pointwise_size by lia. cbn [bind torch_sigmoid torch_mul ops].
  rewrite (proj1 (broadcast_gate1d n c l)). reflexivity.
Qed.

Lemma sse1d_forward_size (c n l : Z) :
  1 <= l ->
  SSE1d.forward (SSE1d.mk (conv1d_of c 1 1 1 0 1 true) Sigmoid.mk) [n; c; l]
  = Ok [n; c; l].
Proof.
  intros Hl. unfold SSE1d.forward, SSE1d.se, Sigmoid.forward.
  cbn [SSE1d.se_0 SSE1d.se_1].
  rewrite conv1d_pointwise_size by lia. cbn [bind torch_sigmoid torch_mul ops].
  rewrite (proj2 (broadcast_gate1d n c l)). reflexivity.
Qed.

Lemma scse1d_forward_size (c r n l : Z) :
  1 <= l ->
  SCSE1d.forward (scse1d_of c r) [n; c; l] = Ok [n; c; l].
Proof.
  intros Hl. unfold SCSE1d.forward, scse1d_of. cbn [SCSE1d.c_se SCSE1d.s_se].
  rewrite cse1d_forward_size, sse1d_forward_size by lia.
  cbn [bind torch_add ops]. apply broadcast_shapes_refl.
Qed.

Lemma pool_out_halves (l : Z) : pool_out l 2 2 = l / 2.
Proof.
  unfold pool_out. replace (l - 2) with (l + (-1) * 2) by lia.
  rewrite Z.div_add by lia. lia.
Qed.

Lemma pool1d_halves (n c l : Z) :
  2 <= l -> pool1d [n; c; l] 2 2 = Ok [n; c; l / 2].
Proof.
  intros Hl. unfold pool1d. rewrite pool_out_halves.
  replace (1 <=? l / 2) with true
    by (symmetry; apply Z.leb_le; apply Z.div_le_lower_bound; lia).
  reflexivity.
Qed.

(** A stride-2 block with shortcut ([Down1d]) halves the length, rounding
    down. *)
Lemma down1d_forward_size (i o : Z) (pool : pool_kind) (n l : Z) :
  1 <= n -> 2 <= l -> 2 <= n \/ 4 <= l ->
  Down1d.forward (down1d_of i o pool) [n; i; l] = Ok [n; o; l / 2].
Proof.
  intros Hn Hl H.
  assert (1 <= l / 2) by (apply Z.div_le_lower_bound; lia).
  assert (2 <= n \/ 2 <= l / 2).
  { destruct H; [left; assumption|right; apply Z.div_le_lower_bound; lia]. }
  unfold Down1d.forward, down1d_of. cbn [Down1d.block_0].
  rewrite SENextBottleneck1d_forward_unfold.
  unfold SENextBottleneck1d_tail, bottleneck1d_of, pool1d_of, ReLU.forward.
  cbn [SENextBottleneck1d.conv1 SENextBottleneck1d.conv2 SENextBottleneck1d.se
       SENextBottleneck1d.stride SENextBottleneck1d.is_shortcut
       SENextBottleneck1d.shortcut SENextBottleneck1d.pool
       SENextBottleneck1d.activation].
  change (1 <? 2) with true. cbn iota.
  rewrite convbr1d_same_size by lia. cbn [bind].
  rewrite convbr1d_same_size by lia. cbn [bind].
  destruct pool; cbn [getattr bind Pool1d.forward F_max_pool1d F_avg_pool1d ops];
    rewrite !pool1d_halves by lia; cbn [bind];
    rewrite scse1d_forward_size by lia; cbn [bind getattr];
    rewrite convbr1d_pointwise_size by lia; cbn [bind torch_add F_relu ops];
    rewrite broadcast_shapes_refl; reflexivity.
Qed.

(** A stride-1 block without shortcut on as many channels as it returns
    (the [center] of [UNet1d]) keeps the size. *)
Lemma center1d_forward_size (c r : Z) (pool : pool_kind) (n l : Z) :
  1 <= n -> 1 <= l -> 2 <= n \/ 2 <= l ->
  SENextBottleneck1d.forward (bottleneck1d_of c c 1 r pool false) [n; c; l]
  = Ok [n; c; l].
Proof.
  intros Hn Hl H.
  rewrite SENextBottleneck1d_forward_unfold.
  unfold SENextBottleneck1d_tail, bottleneck1d_of, pool1d_of, ReLU.forward.
  cbn [SENextBottleneck1d.conv1 SENextBottleneck1d.conv2 SENextBottleneck1d.se
       SENextBottleneck1d.stride SENextBottleneck1d.is_shortcut
       SENextBottleneck1d.shortcut SENextBottleneck1d.pool
       SENextBottleneck1d.activation].
  change (1 <? 1) with false. cbn iota.
  rewrite convbr1d_same_size by lia. cbn [bind].
  rewrite convbr1d_same_size by lia. cbn [bind].
  rewrite scse1d_forward_size by lia. cbn [bind torch_add F_relu ops].
  rewrite broadcast_shapes_refl. reflexivity.
Qed.

Lemma cat_channels1d (n a b l : Z) :
  cat [[n; a; l]; [n; b; l]] 1 = Ok [n; a + b; l].
Proof.
  unfold cat. change (1 <? 0) with false. change (Z.to_nat 1) with 1%nat.
  cbn [fold_left bind cat2 shape_eqb]. rewrite !Z.eqb_refl. reflexivity.
Qed.

Lemma pad_last_nonneg (n c l a b : Z) :
  0 <= a -> 0 <= b -> 0 <= l -> 0 < l + a + b ->
  pad [n; c; l] [a; b] = Ok [n; c; l + a + b].
Proof.
  intros Ha Hb Hl Hp. unfold pad. cbn [rev app pad_rev]. unfold narrow_ok.
  replace (a <? 0) with false by (symmetry; apply Z.ltb_ge; lia).
  replace (b <? 0) with false by (symmetry; apply Z.ltb_ge; lia).
  replace (0 <=? l) with true by (symmetry; apply Z.leb_le; lia).
  replace (0 <? l + a + b) with true by (symmetry; apply Z.ltb_lt; lia).
  rewrite orb_true_r. reflexivity.
Qed.

(** [Up1d] (transposed convolution, merge) on a coarse tensor of length
    [l1] and a skip tensor at least twice as long returns a tensor of the
    skip tensor's length. *)
Lemma up1d_forward_size (i o : Z) (n l1 l2 : Z) :
  1 <= n -> 1 <= l1 -> 2 * l1 <= l2 -> 2 <= n \/ 2 <= l2 ->
  Up1d.forward (up1d_of i o) [n; i; l1] [n; o; l2] = Ok [n; o; l2].
Proof.
  intros Hn Hl1 Hl2 H.
  unfold Up1d.forward, Up1d.aligned, up1d_of, Up1d.up_forward, ConvTranspose1d.forward.
  cbn [Up1d.up Up1d.merge Up1d.conv1 Up1d.conv2 ConvTranspose1d.weight
       ConvTranspose1d.bias ConvTranspose1d.stride ConvTranspose1d.padding
       F_conv_transpose1d ops conv_transpose1d bias_ok].
  rewrite !Z.eqb_refl.
  replace (conv_transpose_out l1 2 2 0) with (2 * l1) by (unfold conv_transpose_out; lia).
  replace (1 <=? 2 * l1) with true by (symmetry; apply Z.leb_le; lia).
  change (1 <=? 2) with true. change (0 <=? 0) with true.
  unfold size_at. cbn [andb bind size ops nth_error].
  remember (l2 - 2 * l1) as diff eqn:Ed.
  assert (Ep : pad [n; i; 2 * l1] [diff / 2; diff - diff / 2] = Ok [n; i; l2]).
  { assert (0 <= diff / 2 <= diff) by (subst diff; Z.div_mod_to_equations; lia).
    rewrite pad_last_nonneg by lia.
    replace (2 * l1 + diff / 2 + (diff - diff / 2)) with l2 by lia. reflexivity. }
  cbn [F_pad ops]. rewrite Ep. cbn [bind torch_cat ops].
  rewrite cat_channels1d. cbn [bind].
  replace (o + i) with (i + o) by lia.
  rewrite convbr1d_same_size by lia. cbn [bind].
  rewrite convbr1d_same_size by lia. reflexivity.
Qed.

End BlockSizes1d.

(** ** Sizes: the 1-D U-Net *)

Section UNet1dSize.
Import Shape.

Ltac dlia := Z.div_mod_to_equations; lia.

(** X1 (the UNet1d half of C4). On an input of size [(B, in_channels, L)] with [B >= 1]
    and [L >= 14] (and [L >= 30] when [B = 1], for batch normalisation in
    training mode), [UNet1d.forward] returns a tensor of size
    [(B, out_channels, L)]. *)
Lemma unet1d_forward_size (in_channels out_channels B L : Z) :
  1 <= in_channels -> 1 <= out_channels ->
  1 <= B -> 14 <= L -> 2 <= B \/ 30 <= L ->
  (m <- UNet1d.init in_channels out_channels ;; UNet1d.forward m [B; in_channels; L])
  = Ok [B; out_channels; L].
Proof.
  intros Hi Ho HB HL H.
  rewrite unet1d_init_eq by lia. cbn [bind].
  unfold UNet1d.forward, UNet1d.inc, UNet1d.outc, unet1d_of, Hardtanh.forward.
  cbn [UNet1d.inc_0 UNet1d.down1 UNet1d.down2 UNet1d.down3 UNet1d.down4 UNet1d.center
       UNet1d.up4 UNet1d.up3 UNet1d.up2 UNet1d.up1 UNet1d.outc_0 UNet1d.outc_1].
  rewrite conv1d_forward_size, conv_out_stride1.
  unfold conv_args_ok, conv_fits.
  replace (1 * (3 - 1) + 1 <=? L + 2 * 2) with true by (symmetry; apply Z.leb_le; lia).
  change (1 <=? 1) with true. change (0 <=? 2) with true. cbn [andb bind].
  replace (L + 2 * 2 - 1 * (3 - 1)) with (L + 2) by lia.
  rewrite down1d_forward_size by dlia. cbn [bind].
  rewrite down1d_forward_size by dlia. cbn [bind].
  rewrite down1d_forward_size by dlia. cbn [bind].
  rewrite down1d_forward_size by dlia. cbn [bind].
  rewrite center1d_forward_size by dlia. cbn [bind].
  rewrite up1d_forward_size by dlia. cbn [bind].
  rewrite up1d_forward_size by dlia. cbn [bind].
  rewrite up1d_forward_size by dlia. cbn [bind].
  rewrite up1d_forward_size by dlia. cbn [bind].
  rewrite conv1d_forward_size, conv_out_stride1.
  unfold conv_args_ok, conv_fits.
  replace (1 * (3 - 1) + 1 <=? L + 2 + 2 * 0) with true by (symmetry; apply Z.leb_le; lia).
  change (1 <=? 1) with true. change (0 <=? 0) with true. cbn [andb bind F_hardtanh ops].
  replace (L + 2 + 2 * 0 - 1 * (3 - 1)) with L by lia.
  reflexivity.
Qed.

(** Shorter inputs are refused: with [L = 13] the fourth pooling has
    nothing left to pool. *)
Example unet1d_length_13 :
  (m <- UNet1d.init 3 5 ;; UNet1d.forward m [2; 3; 13]) = Raise RuntimeError
  /\ (m <- UNet1d.init 3 5 ;; UNet1d.forward m [2; 3; 14]) = Ok [2; 5; 14].
Proof. split; vm_compute; reflexivity. Qed.

End UNet1dSize.

(** ** Sizes: forward of the 2-D blocks *)

Section BlockSizes2d.
Import Shape.

Ltac dlia := Z.div_mod_to_equations; lia.

Lemma bn_batch_ok2d (n h w : Z) :
  1 <= n -> 1 <= h -> 1 <= w -> 2 <= n \/ 2 <= h \/ 2 <= w ->
  (n * (h * (w * 1)) =? 1) = false.
Proof. intros Hn Hh Hw H. apply Z.eqb_neq. nia. Qed.

Lemma conv2d_forward_size (i o k s p d : Z) (b : bool) (n h w : Z) :
  Conv2d.forward (conv2d_of i o k s p d b) [n; i; h; w] =
  if conv_args_ok s p d && conv_fits h k p d && conv_fits w k p d
  then Ok [n; o; conv_out h k s p d; conv_out w k s p d]
  else Raise RuntimeError.
Proof.
  unfold Conv2d.forward, conv2d_of.
  cbn [Conv2d.weight Conv2d.bias Conv2d.stride Conv2d.padding Conv2d.dilation
       F_conv2d ops conv2d].
  rewrite Z.eqb_refl.
  destruct b; cbn [bias_ok andb]; rewrite ?Z.eqb_refl; reflexivity.
Qed.

(** A stride-1 convolution whose padding makes up for the kernel keeps the
    extent. *)
Lemma conv_same (l k p : Z) :
  1 <= l -> 0 <= p -> k = 2 * p + 1 ->
  conv_args_ok 1 p 1 = true /\ conv_fits l k p 1 = true /\ conv_out l k 1 p 1 = l.
Proof.
  intros Hl Hp ->. rewrite conv_out_stride1. unfold conv_args_ok, conv_fits.
  repeat split.
  - change (1 <=? 1) with true. cbn [andb]. rewrite andb_true_r. apply Z.leb_le; lia.
  - apply Z.leb_le; lia.
  - lia.
Qed.

Lemma convbr2d_same_size (i o k p : Z) (act : bool) (n h w : Z) :
  0 <= p -> k = 2 * p + 1 ->
  1 <= n -> 1 <= h -> 1 <= w -> 2 <= n \/ 2 <= h \/ 2 <= w ->
  ConvBR2d.forward (convbr2d_of i o k p 1 1 act) [n; i; h; w] = Ok [n; o; h; w].
Proof.
  intros Hp Hk Hn Hh Hw H. rewrite convbr2d_forward_size.
  destruct (conv_same Hh Hp Hk) as (A & Fh & Oh).
  destruct (conv_same Hw Hp Hk) as (_ & Fw & Ow).
  rewrite A, Fh, Fw, Oh, Ow. cbn [andb].
  rewrite bn_batch_ok2d by assumption. reflexivity.
Qed.

Lemma conv2d_same_size (i o k p : Z) (b : bool) (n h w : Z) :
  0 <= p -> k = 2 * p + 1 -> 1 <= h -> 1 <= w ->
  Conv2d.forward (conv2d_of i o k 1 p 1 b) [n; i; h; w] = Ok [n; o; h; w].
Proof.
  intros Hp Hk Hh Hw. rewrite conv2d_forward_size.
  destruct (conv_same Hh Hp Hk) as (A & Fh & Oh).
  destruct (conv_same Hw Hp Hk) as (_ & Fw & Ow).
  rewrite A, Fh, Fw, Oh, Ow. reflexivity.
Qed.

(** A stride-1 block, with or without shortcut; without one the channel
    counts must agree. *)
Lemma bottleneck2d_same_size (i o r : Z) (pool : pool_kind) (sc : bool) (n h w : Z) :
  (sc = false -> i = o) ->
  1 <= n -> 1 <= h -> 1 <= w -> 2 <= n \/ 2 <= h \/ 2 <= w ->
  SENextBottleneck2d.forward (bottleneck2d_of i o 1 r 1 1 pool sc) [n; i; h; w]
  = Ok [n; o; h; w].
Proof.
  intros Hsc Hn Hh Hw H.
  rewrite SENextBottleneck2d_forward_unfold.
  unfold SENextBottleneck2d_tail, bottleneck2d_of, pool2d_of, ReLU.forward.
  cbn [SENextBottleneck2d.conv1 SENextBottleneck2d.conv2 SENextBottleneck2d.se
       SENextBottleneck2d.stride SENextBottleneck2d.is_shortcut
       SENextBottleneck2d.shortcut SENextBottleneck2d.pool
       SENextBottleneck2d.activation].
  change (1 <? 1) with false. cbn iota.
  rewrite convbr2d_same_size by lia. cbn [bind].
  rewrite cse2d_forward_size by lia. cbn [bind].
  destruct sc.
  - cbn [getattr bind].
    rewrite convbr2d_same_size by lia.
    cbn [bind torch_add F_relu ops]. rewrite broadcast_shapes_refl. reflexivity.
  - rewrite (Hsc eq_refl). cbn [bind torch_add F_relu ops].
    rewrite broadcast_shapes_refl. reflexivity.
Qed.

Lemma pool2d_halves (n c h w : Z) :
  2 <= h -> 2 <= w -> pool2d [n; c; h; w] 2 2 = Ok [n; c; h / 2; w / 2].
Proof.
  intros Hh Hw. unfold pool2d. rewrite !pool_out_halves.
  replace (1 <=? h / 2) with true by (symmetry; apply Z.leb_le; dlia).
  replace (1 <=? w / 2) with true by (symmetry; apply Z.leb_le; dlia).
  reflexivity.
Qed.

(** [Down2d] halves height and width, rounding down. *)
Lemma down2d_forward_size (i o : Z) (pool : pool_kind) (n h w : Z) :
  1 <= n -> 2 <= h -> 2 <= w -> 2 <= n \/ 4 <= h \/ 4 <= w ->
  Down2d.forward (down2d_of i o pool) [n; i; h; w] = Ok [n; o; h / 2; w / 2].
Proof.
  intros Hn Hh Hw H.
  unfold Down2d.forward, down2d_of. cbn [Down2d.block_0 Down2d.block_1].
  set (b1 := bottleneck2d_of o o 1 4 1 1 pool_max false).
  rewrite SENextBottleneck2d_forward_unfold.
  unfold SENextBottleneck2d_tail, bottleneck2d_of, pool2d_of, ReLU.forward.
  cbn [SENextBottleneck2d.conv1 SENextBottleneck2d.conv2 SENextBottleneck2d.se
       SENextBottleneck2d.stride SENextBottleneck2d.is_shortcut
       SENextBottleneck2d.shortcut SENextBottleneck2d.pool
       SENextBottleneck2d.activation].
  change (1 <? 2) with true. cbn iota.
  rewrite convbr2d_same_size by lia. cbn [bind].
  destruct pool; cbn [getattr bind Pool2d.forward F_max_pool2d F_avg_pool2d ops];
    rewrite !pool2d_halves by lia; cbn [bind];
    rewrite cse2d_forward_size by dlia; cbn [bind];
    rewrite convbr2d_same_size by dlia;
    cbn [bind torch_add F_relu ops];
    rewrite broadcast_shapes_refl; cbn [bind]; subst b1;
    apply bottleneck2d_same_size; first [reflexivity | dlia].
Qed.

End BlockSizes2d.

(** ** Sizes: the 2-D architectures on all their valid inputs *)

Section ArchitectureSizes2d.
Import Shape.

Ltac dlia := Z.div_mod_to_equations; lia.

Lemma view_add_channel_size (b h w : Z) :
  0 <= b -> 0 <= h -> 0 <= w ->
  view_add_channel [b; h; w] = Ok [b; 1; h; w]
  /\ view [b; 1; h; w] [b; h; w] = Ok [b; h; w].
Proof.
  intros Hb Hh Hw. unfold view_add_channel. cbn [size view ops]. unfold view_shape.
  cbn [forallb numel fold_right].
  apply Z.leb_le in Hb, Hh, Hw. rewrite Hb, Hh, Hw. change (0 <=? 1) with true.
  cbn [andb].
  replace (b * (h * (w * 1)) =? b * (1 * (h * (w * 1)))) with true
    by (symmetry; apply Z.eqb_eq; ring).
  replace (b * (1 * (h * (w * 1))) =? b * (h * (w * 1))) with true
    by (symmetry; apply Z.eqb_eq; ring).
  split; reflexivity.
Qed.

Lemma conv_transpose2d_forward_size (c k s p : Z) (n h w : Z) :
  1 <= s -> 0 <= p ->
  1 <= conv_transpose_out h k s p -> 1 <= conv_transpose_out w k s p ->
  ConvTranspose2d.forward (ConvTranspose2d.mk [c; c; k; k] (Some [c]) s p) [n; c; h; w]
  = Ok [n; c; conv_transpose_out h k s p; conv_transpose_out w k s p].
Proof.
  intros Hs Hp Hh Hw. unfold ConvTranspose2d.forward.
  cbn [ConvTranspose2d.weight ConvTranspose2d.bias ConvTranspose2d.stride
       ConvTranspose2d.padding F_conv_transpose2d ops conv_transpose2d bias_ok].
  rewrite !Z.eqb_refl. apply Z.leb_le in Hs, Hp, Hh, Hw. rewrite Hs, Hp, Hh, Hw.
  reflexivity.
Qed.

(** X9 (the Micro2d part of C5). [Micro2d.forward] returns a tensor of the size of its
    input, for every 3-D input with positive height and width. *)
Lemma micro2d_forward_size (in_channels out_channels B H W : Z) :
  0 <= B -> 1 <= H -> 1 <= W ->
  (m <- Micro2d.init in_channels out_channels ;; Micro2d.forward m [B; H; W])
  = Ok [B; H; W].
Proof.
  intros HB HH HW. rewrite micro2d_init_eq. cbn [bind].
  unfold Micro2d.forward. cbn [size ops].
  destruct (@view_add_channel_size B H W) as [V1 V2]; try lia.
  rewrite V1. cbn [bind].
  unfold Micro2d.inc, micro2d_of, ReLU.forward, Sigmoid.forward.
  cbn [Micro2d.inc_0 Micro2d.inc_1 Micro2d.inc_2 Micro2d.inc_3 Micro2d.inc_4
       Micro2d.inc_5 Micro2d.inc_6 Micro2d.inc_7 Micro2d.inc_8 Micro2d.inc_9].
  rewrite conv2d_same_size by lia. cbn [bind F_relu ops].
  rewrite conv2d_same_size by lia. cbn [bind F_relu ops].
  rewrite conv_transpose2d_forward_size by (unfold conv_transpose_out; lia).
  cbn [bind F_relu ops].
  rewrite conv_transpose2d_forward_size by (unfold conv_transpose_out; lia).
  cbn [bind F_relu ops].
  rewrite conv2d_forward_size, !conv_out_stride1.
  unfold conv_args_ok, conv_fits, conv_transpose_out.
  change (1 <=? 1) with true. change (0 <=? 0) with true. cbn [andb].
  repeat match goal with
         | |- context [?a <=? ?b] =>
             replace (a <=? b) with true by (symmetry; apply Z.leb_le; lia)
         end.
  cbn [andb bind torch_sigmoid ops].
  match goal with
  | |- context [view [B; 1; ?a; ?b] _] =>
      replace a with H by lia; replace b with W by lia
  end.
  rewrite V2. reflexivity.
Qed.

(** X10 (the ResNext2d part of C5). [ResNext2d.forward] returns a tensor of the size of
    its input, for every 3-D input with positive extents and more than one
    element (batch normalisation in training mode). *)
Lemma resnext2d_forward_size (in_channels out_channels B H W : Z) :
  1 <= B -> 1 <= H -> 1 <= W -> 2 <= B \/ 2 <= H \/ 2 <= W ->
  (m <- ResNext2d.init in_channels out_channels ;; ResNext2d.forward m [B; H; W])
  = Ok [B; H; W].
Proof.
  intros HB HH HW Hn. rewrite resnext2d_init_eq. cbn [bind].
  unfold ResNext2d.forward. cbn [size ops].
  destruct (@view_add_channel_size B H W) as [V1 V2]; try lia.
  rewrite V1. cbn [bind].
  unfold ResNext2d.inc, ResNext2d.bottlenecks, ResNext2d.outc, resnext2d_of,
    Sigmoid.forward.
  cbn [ResNext2d.inc_0 ResNext2d.inc_1 ResNext2d.bottlenecks_0 ResNext2d.bottlenecks_1
       ResNext2d.outc_0 ResNext2d.outc_1].
  rewrite convbr2d_same_size by lia. cbn [bind].
  rewrite convbr2d_same_size by lia. cbn [bind].
  rewrite bottleneck2d_same_size by (try discriminate; lia). cbn [bind].
  rewrite bottleneck2d_same_size by (try discriminate; lia). cbn [bind].
  rewrite conv2d_same_size by lia. cbn [bind torch_sigmoid torch_add ops].
  rewrite broadcast_shapes_refl. cbn [bind]. rewrite V2. reflexivity.
Qed.

Lemma pad_width_nonneg (n c h w a b : Z) :
  0 <= a -> 0 <= b -> 0 <= w -> 0 < w + a + b ->
  pad [n; c; h; w] [a; b] = Ok [n; c; h; w + a + b].
Proof.
  intros Ha Hb Hw Hp. unfold pad. cbn [rev app pad_rev]. unfold narrow_ok.
  replace (a <? 0) with false by (symmetry; apply Z.ltb_ge; lia).
  replace (b <? 0) with false by (symmetry; apply Z.ltb_ge; lia).
  replace (0 <=? w) with true by (symmetry; apply Z.leb_le; lia).
  replace (0 <? w + a + b) with true by (symmetry; apply Z.ltb_lt; lia).
  rewrite orb_true_r. reflexivity.
Qed.

Lemma cat_channels2d (n a b h w : Z) :
  cat [[n; a; h; w]; [n; b; h; w]] 1 = Ok [n; a + b; h; w].
Proof.
  unfold cat. change (1 <? 0) with false. change (Z.to_nat 1) with 1%nat.
  cbn [fold_left bind cat2 shape_eqb]. rewrite !Z.eqb_refl. reflexivity.
Qed.

(** [Up2d] (bilinear, merge) returns a tensor of the skip tensor's size
    when the skip tensor is exactly twice as high as the coarse one and
    twice as wide, or one more. *)
Lemma up2d_forward_size (i o : Z) (n h1 w1 h2 w2 : Z) :
  1 <= n -> 1 <= h1 -> 1 <= w1 ->
  h2 = h1 * 2 -> 0 <= w2 - w1 * 2 <= 1 ->
  Up2d.forward (up2d_of i o) [n; i; h1; w1] [n; o; h2; w2] = Ok [n; o; h2; w2].
Proof.
  intros Hn Hh1 Hw1 -> Hw2.
  unfold Up2d.forward, Up2d.aligned, up2d_of, Up2d.up_forward, Upsample.forward.
  cbn [Up2d.up Up2d.merge Up2d.conv1 Up2d.conv2 Upsample.scale_factor Upsample.mode
       F_interpolate ops interpolate].
  replace (1 <=? h1) with true by (symmetry; apply Z.leb_le; lia).
  replace (1 <=? w1) with true by (symmetry; apply Z.leb_le; lia).
  replace (1 <=? h1 * 2) with true by (symmetry; apply Z.leb_le; lia).
  replace (1 <=? w1 * 2) with true by (symmetry; apply Z.leb_le; lia).
  unfold size_at. cbn [andb bind size ops nth_error].
  replace (h1 * 2 - h1 * 2) with 0 by lia. change (0 - 0 / 2) with 0.
  remember (w2 - w1 * 2) as dw eqn:Ed.
  assert (dw / 2 = 0) by dlia.
  cbn [F_pad ops]. rewrite pad_width_nonneg by lia. cbn [bind torch_cat ops].
  replace (w1 * 2 + 0 + (dw - dw / 2)) with w2 by lia.
  rewrite cat_channels2d. cbn [bind].
  replace (o + i) with (i + o) by lia.
  rewrite convbr2d_same_size by lia. cbn [bind].
  rewrite bottleneck2d_same_size by (try discriminate; lia). reflexivity.
Qed.

(** X3 (UNet2d, the inputs it accepts). On a 3-D input whose height is a
    multiple of 8 and whose width is at least 8, [UNet2d.forward] returns a
    tensor of the size of its input. *)
Lemma unet2d_forward_size (in_channels out_channels B H W : Z) :
  1 <= B -> 8 <= H -> H mod 8 = 0 -> 8 <= W -> 2 <= B \/ 16 <= H \/ 16 <= W ->
  (m <- UNet2d.init in_channels out_channels ;; UNet2d.forward m [B; H; W])
  = Ok [B; H; W].
Proof.
  intros HB HH H8 HW Hn. rewrite unet2d_init_eq. cbn [bind].
  unfold UNet2d.forward. cbn [size ops].
  destruct (@view_add_channel_size B H W) as [V1 V2]; try lia.
  rewrite V1. cbn [bind].
  unfold UNet2d.inc, UNet2d.outc, unet2d_of.
  cbn [UNet2d.inc_0 UNet2d.down1 UNet2d.down2 UNet2d.down3 UNet2d.up3 UNet2d.up2
       UNet2d.up1 UNet2d.outc_0 UNet2d.outc_1 torch_log ops].
  rewrite conv2d_same_size by lia. cbn [bind].
  rewrite down2d_forward_size by dlia. cbn [bind].
  rewrite down2d_forward_size by dlia. cbn [bind].
  rewrite down2d_forward_size by dlia. cbn [bind].
  rewrite up2d_forward_size by dlia. cbn [bind].
  rewrite up2d_forward_size by dlia. cbn [bind].
  rewrite up2d_forward_size by dlia. cbn [bind].
  rewrite bottleneck2d_same_size by (try discriminate; lia). cbn [bind].
  rewrite conv2d_same_size by lia. cbn [bind torch_add torch_exp ops].
  rewrite broadcast_shapes_refl. cbn [bind]. rewrite V2. reflexivity.
Qed.

End ArchitectureSizes2d.

(** ** Sizes: the 1-D alignment is total *)

Section UpAlignmentTotal.
Import Shape.

Lemma pad_last_nonpos (n c l a b : Z) :
  a <= 0 -> b <= 0 -> 0 <= l + a + b ->
  pad [n; c; l] [a; b] = Ok [n; c; l + a + b].
Proof.
  intros Ha Hb Hl. unfold pad. cbn [rev app pad_rev existsb].
  replace (0 <? a) with false by (symmetry; apply Z.ltb_ge; lia).
  replace (0 <? b) with false by (symmetry; apply Z.ltb_ge; lia).
  cbn [orb negb]. rewrite andb_true_r.
  replace (narrow_ok l a b) with true; [reflexivity|].
  symmetry. unfold narrow_ok.
  destruct (Z.ltb_spec a 0), (Z.ltb_spec b 0);
    apply andb_true_intro; split; apply Z.leb_le; lia.
Qed.

(** C3 (1-D part, totality). The alignment step of
    [Up1d(i, o, bilinear=False)] returns for every coarse tensor of length
    [l1 >= 1] and every skip tensor of length [l2 >= 1], shorter or longer
    than [2 * l1], and the result has length [l2]. *)
Lemma up1d_aligned_total (i o : Z) (n l1 n2 c2 l2 : Z) :
  1 <= l1 -> 1 <= l2 ->
  Up1d.aligned (up1d_of i o) [n; i; l1] [n2; c2; l2] = Ok [n; i; l2].
Proof.
  intros Hl1 Hl2.
  unfold Up1d.aligned, up1d_of, Up1d.up_forward, ConvTranspose1d.forward.
  cbn [Up1d.up ConvTranspose1d.weight ConvTranspose1d.bias ConvTranspose1d.stride
       ConvTranspose1d.padding F_conv_transpose1d ops conv_transpose1d bias_ok].
  rewrite !Z.eqb_refl.
  replace (conv_transpose_out l1 2 2 0) with (2 * l1) by (unfold conv_transpose_out; lia).
  replace (1 <=? 2 * l1) with true by (symmetry; apply Z.leb_le; lia).
  change (1 <=? 2) with true. change (0 <=? 0) with true.
  unfold size_at. cbn [andb bind size ops nth_error F_pad].
  remember (l2 - 2 * l1) as diff eqn:Ed.
  destruct (Z.le_gt_cases 0 diff) as [P|N].
  - assert (0 <= diff / 2 <= diff) by (Z.div_mod_to_equations; lia).
    rewrite pad_last_nonneg by lia.
    replace (2 * l1 + diff / 2 + (diff - diff / 2)) with l2 by lia. reflexivity.
  - assert (diff <= diff / 2 <= 0) by (Z.div_mod_to_equations; lia).
    rewrite pad_last_nonpos by lia.
    replace (2 * l1 + diff / 2 + (diff - diff / 2)) with l2 by lia. reflexivity.
Qed.

(** The upsampled tensor is longer than the skip tensor: it is cropped. *)
Example up1d_aligned_crops :
  Up1d.aligned (up1d_of 32 16) [1; 32; 4] [1; 16; 3] = Ok [1; 32; 3].
Proof. vm_compute; reflexivity. Qed.

End UpAlignmentTotal.

(** ** Sizes: the two gates agree *)

Section GateSizes.
Import Shape.

Lemma broadcast_spatial_gate2d (n c h w : Z) :
  broadcast_shapes [n; c; h; w] [n; 1; h; w] = Ok [n; c; h; w].
Proof.
  unfold broadcast_shapes. cbn [rev app broadcast_rev].
  rewrite !Z.eqb_refl. destruct (c =? 1); reflexivity.
Qed.

Lemma sse2d_forward_size (c n h w : Z) :
  1 <= h -> 1 <= w ->
  SSE2d.forward (SSE2d.mk (conv2d_of c 1 1 1 0 1 true) Sigmoid.mk) [n; c; h; w]
  = Ok [n; c; h; w].
Proof.
  intros Hh Hw.
  unfold SSE2d.forward, SSE2d.se, Sigmoid.forward. cbn [SSE2d.se_0 SSE2d.se_1].
  rewrite conv2d_same_size by lia. cbn [bind torch_sigmoid torch_mul ops].
  rewrite broadcast_spatial_gate2d. reflexivity.
Qed.

(** The channel gate and the spatial gate of a constructed [SCSE2d] both
    return a tensor of the size of the input, so that their sum is taken
    element by element, without broadcasting. *)
Lemma scse2d_gates_same_size (c r n h w : Z) (m : SCSE2d.t shape) :
  1 <= h -> 1 <= w ->
  SCSE2d.init c r = Ok m ->
  CSE2d.forward (SCSE2d.c_se m) [n; c; h; w] = Ok [n; c; h; w]
  /\ SSE2d.forward (SCSE2d.s_se m) [n; c; h; w] = Ok [n; c; h; w]
  /\ SCSE2d.forward m [n; c; h; w] = Ok [n; c; h; w].
Proof.
  intros Hh Hw Hm. unfold SCSE2d.init in Hm.
  apply bind_ok_inv in Hm. destruct Hm as (cm & Ec & Hm).
  apply bind_ok_inv in Hm. destruct Hm as (sm & Es & Hm).
  injection Hm as <-. cbn [SCSE2d.c_se SCSE2d.s_se].
  apply cse2d_init_inv in Ec. destruct Ec as [_ ->].
  unfold SSE2d.init in Es.
  apply bind_ok_inv in Es. destruct Es as (cv & Ev & Es).
  apply conv2d_init_inv in Ev. subst cv. injection Es as <-.
  assert (S := @sse2d_forward_size c n h w Hh Hw).
  assert (C := @cse2d_forward_size c r n h w Hh Hw).
  repeat split; try assumption.
  unfold SCSE2d.forward. cbn [SCSE2d.c_se SCSE2d.s_se].
  rewrite C, S. cbn [bind torch_add ops]. apply broadcast_shapes_refl.
Qed.

End GateSizes.

(** * Further properties *)

(** ** Which inputs the 1-D blocks accept *)

Section Accepted1d.
Import Shape.

Ltac dlia := Z.div_mod_to_equations; lia.

Ltac if_inv H :=
  match type of H with
  | (if ?c then _ else _) = Ok _ =>
      let E := fresh "E" in destruct c eqn:E; try discriminate H
  end.

Lemma convbr1d_bad_input (i o k p d s : Z) (act : bool) (x : shape) :
  (forall n l, x <> [n; i; l]) ->
  ConvBR1d.forward (convbr1d_of i o k p d s act) x = Raise RuntimeError.
Proof.
  intros H. unfold ConvBR1d.forward, Conv1d.forward, convbr1d_of, conv1d_of.
  cbn [ConvBR1d.conv Conv1d.weight Conv1d.bias Conv1d.stride Conv1d.padding
       Conv1d.dilation F_conv1d ops].
  unfold conv1d.
  destruct x as [|n [|c [|l [|? ?]]]]; try reflexivity.
  destruct (Z.eqb_spec c i) as [->|N]; [|reflexivity].
  exfalso. apply (H n l). reflexivity.
Qed.

Lemma input_form1d (i : Z) (x : shape) :
  (exists n l, x = [n; i; l]) \/ (forall n l, x <> [n; i; l]).
Proof.
  destruct x as [|n [|c [|l [|? ?]]]]; try (right; intros; discriminate).
  destruct (Z.eq_dec c i) as [->|N].
  - left; eauto.
  - right; intros ? ? E; injection E; intros; subst; contradiction.
Qed.

(** The 3-tap block returns only on a 3-D input with its channel count, and
    then keeps the length. *)
Lemma convbr1d_same_inv (i o : Z) (x y : shape) :
  ConvBR1d.forward (convbr1d_of i o 3 1 1 1 true) x = Ok y ->
  exists n l, x = [n; i; l] /\ 1 <= l /\ y = [n; o; l].
Proof.
  intros H. destruct (input_form1d i x) as [(n & l & ->)|N].
  - rewrite convbr1d_forward_size in H. if_inv H. if_inv H.
    apply andb_prop in E. destruct E as [_ F]. unfold conv_fits in F.
    apply Z.leb_le in F. injection H as <-. rewrite conv_out_stride1.
    exists n, l. repeat split; [lia|]. do 3 f_equal. lia.
  - rewrite convbr1d_bad_input in H by assumption. discriminate.
Qed.

Lemma convbr1d_pointwise_inv (i o : Z) (x y : shape) :
  ConvBR1d.forward (convbr1d_of i o 1 0 1 1 false) x = Ok y ->
  exists n l, x = [n; i; l] /\ 1 <= l /\ y = [n; o; l].
Proof.
  intros H. destruct (input_form1d i x) as [(n & l & ->)|N].
  - rewrite convbr1d_forward_size in H. if_inv H. if_inv H.
    apply andb_prop in E. destruct E as [_ F]. unfold conv_fits in F.
    apply Z.leb_le in F. injection H as <-. rewrite conv_out_stride1.
    exists n, l. repeat split; [lia|]. do 3 f_equal. lia.
  - rewrite convbr1d_bad_input in H by assumption. discriminate.
Qed.

Lemma pool1d_halves_inv (n c l : Z) (y : shape) :
  pool1d [n; c; l] 2 2 = Ok y -> 2 <= l /\ y = [n; c; l / 2].
Proof.
  unfold pool1d. rewrite pool_out_halves. intros H. if_inv H.
  apply andb_prop in E. destruct E as [_ E]. apply Z.leb_le in E.
  injection H as <-. split; [dlia|reflexivity].
Qed.

(** [Down1d.forward] returns only on a 3-D input with its channel count
    and a length of at least 2, and then halves the length. *)
Lemma down1d_forward_inv (i o : Z) (pool : pool_kind) (x y : shape) :
  Down1d.forward (down1d_of i o pool) x = Ok y ->
  exists n l, x = [n; i; l] /\ 2 <= l /\ y = [n; o; l / 2].
Proof.
  unfold Down1d.forward, down1d_of. cbn [Down1d.block_0].
  rewrite SENextBottleneck1d_forward_unfold.
  unfold SENextBottleneck1d_tail, bottleneck1d_of, pool1d_of, ReLU.forward.
  cbn [SENextBottleneck1d.conv1 SENextBottleneck1d.conv2 SENextBottleneck1d.se
       SENextBottleneck1d.stride SENextBottleneck1d.is_shortcut
       SENextBottleneck1d.shortcut SENextBottleneck1d.pool
       SENextBottleneck1d.activation].
  change (1 <? 2) with true. cbn iota. intros H.
  apply bind_ok_inv in H. destruct H as (s1 & E1 & H).
  apply convbr1d_same_inv in E1. destruct E1 as (n & l & -> & Hl & ->).
  apply bind_ok_inv in H. destruct H as (s2 & E2 & H).
  apply convbr1d_same_inv in E2. destruct E2 as (n' & l' & E & _ & ->).
  injection E as <- <-.
  apply bind_ok_inv in H. destruct H as (s3 & E3 & H).
  assert (P : pool1d [n; o; l] 2 2 = Ok s3) by (destruct pool; exact E3).
  apply pool1d_halves_inv in P. destruct P as [Hl2 ->].
  assert (1 <= l / 2) by dlia.
  rewrite scse1d_forward_size in H by assumption. cbn [bind] in H.
  apply bind_ok_inv in H. destruct H as (x' & Ex & H).
  apply bind_ok_inv in Ex. destruct Ex as (xp & Ep & Ex).
  cbn [F_avg_pool1d ops] in Ep. apply pool1d_halves_inv in Ep. destruct Ep as [_ ->].
  cbn [getattr bind] in Ex.
  apply convbr1d_pointwise_inv in Ex. destruct Ex as (n' & l' & E & _ & ->).
  injection E as <- <-.
  cbn [torch_add ops F_relu] in H. rewrite broadcast_shapes_refl in H.
  cbn [bind] in H. injection H as <-.
  exists n, l. auto.
Qed.

Lemma conv1d_forward_inv (i o k s p d : Z) (b : bool) (x y : shape) :
  Conv1d.forward (conv1d_of i o k s p d b) x = Ok y ->
  exists n l, x = [n; i; l] /\ conv_fits l k p d = true
              /\ y = [n; o; conv_out l k s p d].
Proof.
  intros H. destruct (input_form1d i x) as [(n & l & ->)|N].
  - rewrite conv1d_forward_size in H. if_inv H.
    apply andb_prop in E. destruct E as [_ F]. injection H as <-. eauto.
  - exfalso. revert H. unfold Conv1d.forward, conv1d_of.
    cbn [Conv1d.weight Conv1d.bias Conv1d.stride Conv1d.padding Conv1d.dilation
         F_conv1d ops].
    unfold conv1d.
    destruct x as [|n [|c [|l [|? ?]]]]; try discriminate.
    destruct (Z.eqb_spec c i) as [->|Nc]; [|discriminate].
    exfalso. apply (N n l). reflexivity.
Qed.

(** [Up1d.forward] (transposed convolution, merge), when it returns, returns
    a tensor of the skip tensor's length with [out_channels] channels. *)
Lemma up1d_forward_inv (i o : Z) (n l1 l2 : Z) (y : shape) :
  Up1d.forward (up1d_of i o) [n; i; l1] [n; o; l2] = Ok y -> y = [n; o; l2].
Proof.
  unfold Up1d.forward. intros H.
  apply bind_ok_inv in H. destruct H as (a & Ea & H).
  assert (A : a = [n; i; l2]).
  { revert Ea. unfold Up1d.aligned, up1d_of, Up1d.up_forward, ConvTranspose1d.forward.
    cbn [Up1d.up ConvTranspose1d.weight ConvTranspose1d.bias ConvTranspose1d.stride
         ConvTranspose1d.padding F_conv_transpose1d ops conv_transpose1d bias_ok].
    intros Ea. apply bind_ok_inv in Ea. destruct Ea as (u & Eu & Ea).
    if_inv Eu. injection Eu as <-.
    unfold size_at in Ea. cbn [bind size ops nth_error F_pad] in Ea.
    apply pad_last in Ea. subst a. do 3 f_equal. lia. }
  subst a. unfold up1d_of in H. cbn [Up1d.merge Up1d.conv1 Up1d.conv2 torch_cat ops] in H.
  rewrite cat_channels1d in H. cbn [bind] in H.
  apply bind_ok_inv in H. destruct H as (c1 & E1 & H).
  replace (o + i) with (i + o) in E1 by lia.
  apply convbr1d_same_inv in E1. destruct E1 as (n' & l' & E & _ & ->).
  injection E as <- <-.
  apply bind_ok_inv in H. destruct H as (c2 & E2 & H).
  apply convbr1d_same_inv in E2. destruct E2 as (n' & l' & E & _ & ->).
  injection E as <- <-. injection H as <-. reflexivity.
Qed.

(** X2. [UNet1d.forward] returns only on a 3-D input with [in_channels]
    channels and a length of at least 14, and what it returns has the size
    [(B, out_channels, L)] of the input with the channels replaced. *)
Theorem unet1d_accepted_inputs (in_channels out_channels : Z) (x y : shape) :
  1 <= in_channels -> 1 <= out_channels ->
  (m <- UNet1d.init in_channels out_channels ;; UNet1d.forward m x) = Ok y ->
  exists B L, x = [B; in_channels; L] /\ 14 <= L /\ y = [B; out_channels; L].
Proof.
  intros Hi Ho H. rewrite unet1d_init_eq in H by lia. cbn [bind] in H.
  unfold UNet1d.forward, UNet1d.inc, UNet1d.outc, unet1d_of, Hardtanh.forward in H.
  cbn [UNet1d.inc_0 UNet1d.down1 UNet1d.down2 UNet1d.down3 UNet1d.down4 UNet1d.center
       UNet1d.up4 UNet1d.up3 UNet1d.up2 UNet1d.up1 UNet1d.outc_0 UNet1d.outc_1] in H.
  apply bind_ok_inv in H. destruct H as (n0 & E0 & H).
  apply conv1d_forward_inv in E0. destruct E0 as (B & L & -> & F0 & ->).
  rewrite conv_out_stride1 in H.
  apply bind_ok_inv in H. destruct H as (n1 & E1 & H).
  apply down1d_forward_inv in E1. destruct E1 as (? & l0 & E & H1 & ->).
  injection E as <- <-.
  apply bind_ok_inv in H. destruct H as (n2 & E2 & H).
  apply down1d_forward_inv in E2. destruct E2 as (? & l1 & E & H2 & ->).
  injection E as <- <-.
  apply bind_ok_inv in H. destruct H as (n3 & E3 & H).
  apply down1d_forward_inv in E3. destruct E3 as (? & l2 & E & H3 & ->).
  injection E as <- <-.
  apply bind_ok_inv in H. destruct H as (n4 & E4 & H).
  apply down1d_forward_inv in E4. destruct E4 as (? & l3 & E & H4 & ->).
  injection E as <- <-.
  apply bind_ok_inv in H. destruct H as (c & _ & H).
  apply bind_ok_inv in H. destruct H as (u4 & _ & H).
  apply bind_ok_inv in H. destruct H as (u3 & _ & H).
  apply bind_ok_inv in H. destruct H as (u2 & _ & H).
  apply bind_ok_inv in H. destruct H as (u1 & E & H).
  apply up1d_forward_inv in E. subst u1.
  apply bind_ok_inv in H. destruct H as (r & E & H).
  apply bind_ok_inv in E. destruct E as (r' & E & E').
  apply conv1d_forward_inv in E. destruct E as (? & l & E & _ & ->).
  injection E as <- <-. cbn [F_hardtanh ops] in E'. injection E' as <-.
  injection H as <-. rewrite conv_out_stride1.
  exists B, L. split; [reflexivity|]. split; [dlia|]. do 3 f_equal. lia.
Qed.

Lemma unet1d_accepted_inputs_witness :
  exists B L, [2; 3; 14] = [B; 3; L] /\ 14 <= L /\ [2; 5; 14] = [B; 5; L].
Proof.
  apply (@unet1d_accepted_inputs 3 5 [2; 3; 14] [2; 5; 14]); [lia | lia |].
  vm_compute. reflexivity.
Defined.

End Accepted1d.

(** ** Which inputs the 2-D blocks accept *)

Section Accepted2d.
Import Shape.

Ltac dlia := Z.div_mod_to_equations; lia.

Ltac if_inv H :=
  match type of H with
  | (if ?c then _ else _) = Ok _ =>
      let E := fresh "E" in destruct c eqn:E; try discriminate H
  end.

Lemma input_form2d (i : Z) (x : shape) :
  (exists n h w, x = [n; i; h; w]) \/ (forall n h w, x <> [n; i; h; w]).
Proof.
  destruct x as [|n [|c [|h [|w [|? ?]]]]]; try (right; intros; discriminate).
  destruct (Z.eq_dec c i) as [->|N].
  - left; eauto.
  - right; intros ? ? ? E; injection E; intros; subst; contradiction.
Qed.

Lemma convbr2d_same_inv (i o k p : Z) (act : bool) (x y : shape) :
  0 <= p -> k = 2 * p + 1 ->
  ConvBR2d.forward (convbr2d_of i o k p 1 1 act) x = Ok y ->
  exists n h w, x = [n; i; h; w] /\ 1 <= h /\ 1 <= w /\ y = [n; o; h; w].
Proof.
  intros Hp Hk H. destruct (input_form2d i x) as [(n & h & w & ->)|N].
  - rewrite convbr2d_forward_size in H. if_inv H. if_inv H.
    apply andb_prop in E. destruct E as [E Fw].
    apply andb_prop in E. destruct E as [_ Fh].
    unfold conv_fits in Fh, Fw. apply Z.leb_le in Fh, Fw.
    injection H as <-. rewrite !conv_out_stride1.
    exists n, h, w. repeat split; [lia | lia |]. do 3 f_equal; [lia|]. f_equal. lia.
  - rewrite convbr2d_forward_bad_input in H by assumption. discriminate.
Qed.

Lemma conv2d_forward_inv (i o k s p d : Z) (b : bool) (x y : shape) :
  Conv2d.forward (conv2d_of i o k s p d b) x = Ok y ->
  exists n h w, x = [n; i; h; w] /\ conv_fits h k p d = true /\ conv_fits w k p d = true
                /\ y = [n; o; conv_out h k s p d; conv_out w k s p d].
Proof.
  intros H. destruct (input_form2d i x) as [(n & h & w & ->)|N].
  - rewrite conv2d_forward_size in H. if_inv H.
    apply andb_prop in E. destruct E as [E Fw].
    apply andb_prop in E. destruct E as [_ Fh].
    injection H as <-. exists n, h, w. auto.
  - exfalso. revert H. unfold Conv2d.forward, conv2d_of.
    cbn [Conv2d.weight Conv2d.bias Conv2d.stride Conv2d.padding Conv2d.dilation
         F_conv2d ops].
    unfold conv2d.
    destruct x as [|n [|c [|h [|w [|? ?]]]]]; try discriminate.
    destruct (Z.eqb_spec c i) as [->|Nc]; [|discriminate].
    exfalso. apply (N n h w). reflexivity.
Qed.

Lemma pool2d_halves_inv (n c h w : Z) (y : shape) :
  pool2d [n; c; h; w] 2 2 = Ok y -> 2 <= h /\ 2 <= w /\ y = [n; c; h / 2; w / 2].
Proof.
  unfold pool2d. rewrite !pool_out_halves. intros H. if_inv H.
  apply andb_prop in E. destruct E as [E Ew].
  apply andb_prop in E. destruct E as [_ Eh]. apply Z.leb_le in Eh, Ew.
  injection H as <-. repeat split; dlia.
Qed.

(** A stride-1 block with a shortcut, or without one on equal channel
    counts, returns a tensor of the input's extents when it returns. *)
Lemma bottleneck2d_same_inv (i o r : Z) (pool : pool_kind) (sc : bool) (x y : shape) :
  (sc = false -> i = o) ->
  SENextBottleneck2d.forward (bottleneck2d_of i o 1 r 1 1 pool sc) x = Ok y ->
  exists n h w, x = [n; i; h; w] /\ 1 <= h /\ 1 <= w /\ y = [n; o; h; w].
Proof.
  intros Hsc. rewrite SENextBottleneck2d_forward_unfold.
  unfold SENextBottleneck2d_tail, bottleneck2d_of, pool2d_of, ReLU.forward.
  cbn [SENextBottleneck2d.conv1 SENextBottleneck2d.conv2 SENextBottleneck2d.se
       SENextBottleneck2d.stride SENextBottleneck2d.is_shortcut
       SENextBottleneck2d.shortcut SENextBottleneck2d.pool
       SENextBottleneck2d.activation].
  change (1 <? 1) with false. cbn iota. intros H.
  apply bind_ok_inv in H. destruct H as (s1 & E1 & H).
  apply convbr2d_same_inv in E1; try lia. destruct E1 as (n & h & w & -> & Hh & Hw & ->).
  apply bind_ok_inv in H. destruct H as (s2 & E2 & H).
  apply convbr2d_same_inv in E2; try lia. destruct E2 as (? & ? & ? & E & _ & _ & ->).
  injection E as <- <- <-. cbn [bind] in H.
  rewrite cse2d_forward_size in H by assumption. cbn [bind] in H.
  exists n, h, w. repeat split; try assumption.
  destruct sc.
  - cbn [getattr bind] in H.
    apply bind_ok_inv in H. destruct H as (x' & Ex & H).
    apply convbr2d_same_inv in Ex; try lia. destruct Ex as (? & ? & ? & E & _ & _ & ->).
    injection E as <- <- <-.
    cbn [torch_add ops F_relu] in H. rewrite broadcast_shapes_refl in H.
    cbn [bind] in H. injection H as <-. reflexivity.
  - rewrite (Hsc eq_refl) in H. cbn [bind torch_add ops F_relu] in H.
    rewrite broadcast_shapes_refl in H. cbn [bind] in H. injection H as <-.
    reflexivity.
Qed.

(** [Down2d.forward] returns only on a 4-D input with its channel count
    and extents of at least 2, and then halves both. *)
Lemma down2d_forward_inv (i o : Z) (pool : pool_kind) (x y : shape) :
  Down2d.forward (down2d_of i o pool) x = Ok y ->
  exists n h w, x = [n; i; h; w] /\ 2 <= h /\ 2 <= w /\ y = [n; o; h / 2; w / 2].
Proof.
  unfold Down2d.forward, down2d_of. cbn [Down2d.block_0 Down2d.block_1].
  set (b1 := bottleneck2d_of o o 1 4 1 1 pool_max false).
  rewrite SENextBottleneck2d_forward_unfold.
  unfold SENextBottleneck2d_tail, bottleneck2d_of, pool2d_of, ReLU.forward.
  cbn [SENextBottleneck2d.conv1 SENextBottleneck2d.conv2 SENextBottleneck2d.se
       SENextBottleneck2d.stride SENextBottleneck2d.is_shortcut
       SENextBottleneck2d.shortcut SENextBottleneck2d.pool
       SENextBottleneck2d.activation].
  change (1 <? 2) with true. cbn iota. intros H.
  apply bind_ok_inv in H. destruct H as (z & Ez & H).
  apply bind_ok_inv in Ez. destruct Ez as (s1 & E1 & Ez).
  apply convbr2d_same_inv in E1; try lia. destruct E1 as (n & h & w & -> & Hh & Hw & ->).
  apply bind_ok_inv in Ez. destruct Ez as (s2 & E2 & Ez).
  apply convbr2d_same_inv in E2; try lia. destruct E2 as (? & ? & ? & E & _ & _ & ->).
  injection E as <- <- <-.
  apply bind_ok_inv in Ez. destruct Ez as (s3 & E3 & Ez).
  assert (P : pool2d [n; o; h; w] 2 2 = Ok s3) by (destruct pool; exact E3).
  apply pool2d_halves_inv in P. destruct P as (Hh2 & Hw2 & ->).
  rewrite cse2d_forward_size in Ez by dlia. cbn [bind] in Ez.
  apply bind_ok_inv in Ez. destruct Ez as (x' & Ex & Ez).
  apply bind_ok_inv in Ex. destruct Ex as (xp & Ep & Ex).
  cbn [F_avg_pool2d ops] in Ep. apply pool2d_halves_inv in Ep. destruct Ep as (_ & _ & ->).
  cbn [getattr bind] in Ex.
  apply convbr2d_same_inv in Ex; try lia. destruct Ex as (? & ? & ? & E & _ & _ & ->).
  injection E as <- <- <-.
  cbn [torch_add ops F_relu] in Ez. rewrite broadcast_shapes_refl in Ez.
  cbn [bind] in Ez. injection Ez as <-.
  subst b1. apply bottleneck2d_same_inv in H; [|reflexivity].
  destruct H as (? & ? & ? & E & _ & _ & ->). injection E as <- <- <-.
  exists n, h, w. auto.
Qed.

Lemma cat_channels2d_inv (n a h w n' b h' w' : Z) (y : shape) :
  cat [[n; a; h; w]; [n'; b; h'; w']] 1 = Ok y ->
  n = n' /\ h = h' /\ w = w' /\ y = [n; a + b; h; w].
Proof.
  unfold cat. change (1 <? 0) with false. change (Z.to_nat 1) with 1%nat.
  cbn [fold_left bind cat2 shape_eqb].
  destruct (Z.eqb_spec n n') as [<-|]; [|discriminate].
  destruct (Z.eqb_spec h h') as [<-|]; [|discriminate].
  destruct (Z.eqb_spec w w') as [<-|]; [|discriminate].
  cbn. intros H; injection H as <-. auto.
Qed.

Lemma pad_width_inv (n c h w a b : Z) (y : shape) :
  pad [n; c; h; w] [a; b] = Ok y -> y = [n; c; h; w + a + b].
Proof.
  unfold pad. cbn [rev app pad_rev].
  destruct (narrow_ok w a b && _); cbn; [|discriminate].
  intros H; injection H as <-. reflexivity.
Qed.

(** [Up2d.forward] (bilinear, merge) returns only when the skip tensor is
    exactly twice as high as the coarse one, and twice as wide or one
    more. *)
Lemma up2d_forward_inv (i o : Z) (n h1 w1 h2 w2 : Z) (y : shape) :
  Up2d.forward (up2d_of i o) [n; i; h1; w1] [n; o; h2; w2] = Ok y ->
  h2 = h1 * 2 /\ 0 <= w2 - w1 * 2 <= 1 /\ y = [n; o; h2; w2].
Proof.
  unfold Up2d.forward. intros H.
  apply bind_ok_inv in H. destruct H as (a & Ea & H).
  assert (A : a = [n; i; h1 * 2;
                   w1 * 2 + (h2 - h1 * 2 - (h2 - h1 * 2) / 2)
                   + (w2 - w1 * 2 - (w2 - w1 * 2) / 2)]).
  { revert Ea. unfold Up2d.aligned, up2d_of, Up2d.up_forward, Upsample.forward.
    cbn [Up2d.up Upsample.scale_factor Upsample.mode F_interpolate ops interpolate].
    intros Ea. apply bind_ok_inv in Ea. destruct Ea as (u & Eu & Ea).
    if_inv Eu. injection Eu as <-.
    unfold size_at in Ea. cbn [bind size ops nth_error F_pad] in Ea.
    apply pad_width_inv in Ea. exact Ea. }
  subst a. unfold up2d_of in H. cbn [Up2d.merge Up2d.conv1 Up2d.conv2 torch_cat ops] in H.
  apply bind_ok_inv in H. destruct H as (c & Ec & H).
  apply cat_channels2d_inv in Ec. destruct Ec as (_ & Hh & Hw & ->).
  apply bind_ok_inv in H. destruct H as (c1 & E1 & H).
  replace (o + i) with (i + o) in E1 by lia.
  apply convbr2d_same_inv in E1; try lia. destruct E1 as (? & ? & ? & E & _ & _ & ->).
  injection E as <- <- <-.
  apply bind_ok_inv in H. destruct H as (c2 & E2 & H).
  apply bottleneck2d_same_inv in E2; [|discriminate].
  destruct E2 as (? & ? & ? & E & _ & _ & ->). injection E as <- <- <-.
  injection H as <-.
  split; [assumption|]. split; [|reflexivity].
  subst h2. replace (h1 * 2 - h1 * 2) with 0 in Hw by lia.
  change (0 - 0 / 2) with 0 in Hw. dlia.
Qed.

(** X4. [UNet2d.forward] returns only on a 3-D input whose height is a
    multiple of 8 and whose height and width are at least 8, and what it
    returns has the size of the input. *)
Theorem unet2d_accepted_inputs (in_channels out_channels : Z) (x y : shape) :
  (m <- UNet2d.init in_channels out_channels ;; UNet2d.forward m x) = Ok y ->
  exists B H W, x = [B; H; W] /\ 8 <= H /\ H mod 8 = 0 /\ 8 <= W /\ y = x.
Proof.
  intros H. rewrite unet2d_init_eq in H. cbn [bind] in H.
  unfold UNet2d.forward in H. cbn [size ops] in H.
  apply bind_ok_inv in H. destruct H as (v & Ev & H).
  unfold UNet2d.inc, UNet2d.outc, unet2d_of in H.
  cbn [UNet2d.inc_0 UNet2d.down1 UNet2d.down2 UNet2d.down3 UNet2d.up3 UNet2d.up2
       UNet2d.up1 UNet2d.outc_0 UNet2d.outc_1 torch_log ops] in H.
  apply bind_ok_inv in H. destruct H as (n0 & E0 & H).
  apply conv2d_forward_inv in E0. destruct E0 as (B & h & w & -> & _ & _ & ->).
  rewrite !conv_out_stride1 in H.
  replace (h + 2 * 1 - 1 * (3 - 1)) with h in H by lia.
  replace (w + 2 * 1 - 1 * (3 - 1)) with w in H by lia.
  assert (X : x = [B; h; w]).
  { unfold view_add_channel in Ev. cbn [size ops view] in Ev.
    destruct x as [|b rest]; [discriminate|].
    unfold view_shape in Ev. if_inv Ev. injection Ev as -> ->. reflexivity. }
  subst x.
  apply bind_ok_inv in H. destruct H as (n1 & E1 & H).
  apply down2d_forward_inv in E1. destruct E1 as (? & ? & ? & E & Hh1 & Hw1 & ->).
  injection E as <- <- <-.
  apply bind_ok_inv in H. destruct H as (n2 & E2 & H).
  apply down2d_forward_inv in E2. destruct E2 as (? & ? & ? & E & Hh2 & Hw2 & ->).
  injection E as <- <- <-.
  apply bind_ok_inv in H. destruct H as (n3 & E3 & H).
  apply down2d_forward_inv in E3. destruct E3 as (? & ? & ? & E & Hh3 & Hw3 & ->).
  injection E as <- <- <-.
  apply bind_ok_inv in H. destruct H as (u3 & U3 & H).
  apply up2d_forward_inv in U3. destruct U3 as (A3 & _ & _).
  apply bind_ok_inv in H. destruct H as (u2 & U2 & H).
  apply up2d_forward_inv in U2. destruct U2 as (A2 & _ & _).
  apply bind_ok_inv in H. destruct H as (u1 & U1 & H).
  apply up2d_forward_inv in U1. destruct U1 as (A1 & _ & ->).
  apply bind_ok_inv in H. destruct H as (r & Er & H).
  apply bind_ok_inv in Er. destruct Er as (r' & Er' & Er).
  apply bottleneck2d_same_inv in Er'; [|discriminate].
  destruct Er' as (? & ? & ? & E & _ & _ & ->). injection E as <- <- <-.
  apply conv2d_forward_inv in Er. destruct Er as (? & ? & ? & E & _ & _ & ->).
  injection E as <- <- <-.
  rewrite !conv_out_stride1 in H.
  replace (h + 2 * 0 - 1 * (1 - 1)) with h in H by lia.
  replace (w + 2 * 0 - 1 * (1 - 1)) with w in H by lia.
  cbn [torch_add torch_exp ops] in H. rewrite broadcast_shapes_refl in H.
  cbn [bind] in H.
  apply bind_ok_inv in H. destruct H as (z & Ez & H). injection H as <-.
  cbn [view ops] in Ez. unfold view_shape in Ez. if_inv Ez. injection Ez as <-.
  exists B, h, w. repeat split; dlia.
Qed.

Lemma unet2d_accepted_inputs_witness :
  exists B H W, [2; 16; 9] = [B; H; W] /\ 8 <= H /\ H mod 8 = 0 /\ 8 <= W
                /\ [2; 16; 9] = [2; 16; 9].
Proof.
  apply (@unet2d_accepted_inputs 1 1 [2; 16; 9] [2; 16; 9]).
  vm_compute. reflexivity.
Defined.

End Accepted2d.

(** ** Sizes: the sampling blocks as constructed *)

Section SamplingBlocks.
Import Shape.

Ltac dlia := Z.div_mod_to_equations; lia.

Lemma down1d_init_inv (i o : Z) (pool : pool_kind) (m : Down1d.t shape) :
  Down1d.init i o pool = Ok m -> m = down1d_of i o pool.
Proof.
  unfold Down1d.init, down1d_of. intros H.
  apply bind_ok_inv in H. destruct H as (b & E & H).
  apply bottleneck1d_init_inv in E. destruct E as [_ ->].
  injection H as <-. reflexivity.
Qed.

Lemma down2d_init_inv (i o : Z) (pool : pool_kind) (m : Down2d.t shape) :
  Down2d.init i o pool = Ok m -> m = down2d_of i o pool.
Proof.
  unfold Down2d.init, down2d_of. intros H.
  apply bind_ok_inv in H. destruct H as (b0 & E0 & H).
  apply bottleneck2d_init_inv in E0. destruct E0 as [_ ->].
  apply bind_ok_inv in H. destruct H as (b1 & E1 & H).
  apply bottleneck2d_init_inv in E1. destruct E1 as [_ ->].
  injection H as <-. reflexivity.
Qed.

(** X5. A constructed [Down1d] (at least 16 output channels, so that the
    gate keeps a channel) halves the length, rounding down: on a batch of at
    least 2 it returns [(n, out_channels, l // 2)] on every
    [(n, in_channels, l)] input with [l >= 2], and it returns on no other
    input (wrong rank, wrong channel count or [l < 2]). *)
Theorem down1d_halves (i o : Z) (pool : pool_kind) (m : Down1d.t shape) :
  1 <= i -> 16 <= o ->
  Down1d.init i o pool = Ok m ->
  (forall n l, 2 <= n -> 2 <= l -> Down1d.forward m [n; i; l] = Ok [n; o; l / 2])
  /\ (forall x y, Down1d.forward m x = Ok y ->
        exists n l, x = [n; i; l] /\ 2 <= l /\ y = [n; o; l / 2]).
Proof.
  intros Hi Ho Hm. apply down1d_init_inv in Hm. subst m. split.
  - intros n l Hn Hl. apply down1d_forward_size; lia.
  - intros x y. apply down1d_forward_inv.
Qed.

Lemma down1d_halves_witness :
  exists m : Down1d.t shape,
    Down1d.init 128 256 pool_max = Ok m
    /\ Down1d.forward m [2; 128; 5] = Ok [2; 256; 5 / 2]
    /\ exists n l, [2; 128; 5] = [n; 128; l] /\ 2 <= l /\ [2; 256; 2] = [n; 256; l / 2].
Proof.
  eexists. split; [vm_compute; reflexivity|].
  match goal with
  | |- Down1d.forward ?m _ = _ /\ _ =>
      assert (I : Down1d.init 128 256 pool_max = Ok m) by (vm_compute; reflexivity);
      destruct (@down1d_halves 128 256 pool_max m) as [P Q]; [lia | lia | exact I |]
  end.
  split; [apply P; lia|]. apply Q. vm_compute. reflexivity.
Defined.

(** X6. A constructed [Down2d] (at least 4 output channels) halves height
    and width, rounding down: on a batch of at least 2 it returns [(n, out_channels, h // 2, w // 2)] on
    every [(n, in_channels, h, w)] input with [h, w >= 2], and it returns on
    no other input. *)
Theorem down2d_halves (i o : Z) (pool : pool_kind) (m : Down2d.t shape) :
  1 <= i -> 4 <= o ->
  Down2d.init i o pool = Ok m ->
  (forall n h w, 2 <= n -> 2 <= h -> 2 <= w ->
      Down2d.forward m [n; i; h; w] = Ok [n; o; h / 2; w / 2])
  /\ (forall x y, Down2d.forward m x = Ok y ->
        exists n h w, x = [n; i; h; w] /\ 2 <= h /\ 2 <= w
                      /\ y = [n; o; h / 2; w / 2]).
Proof.
  intros Hi Ho Hm. apply down2d_init_inv in Hm. subst m. split.
  - intros n h w Hn Hh Hw. apply down2d_forward_size; lia.
  - intros x y. apply down2d_forward_inv.
Qed.

Lemma down2d_halves_witness :
  exists m : Down2d.t shape,
    Down2d.init 16 32 pool_avg = Ok m
    /\ Down2d.forward m [2; 16; 5; 8] = Ok [2; 32; 5 / 2; 8 / 2]
    /\ exists n h w, [2; 16; 5; 8] = [n; 16; h; w] /\ 2 <= h /\ 2 <= w
                     /\ [2; 32; 2; 4] = [n; 32; h / 2; w / 2].
Proof.
  eexists. split; [vm_compute; reflexivity|].
  match goal with
  | |- Down2d.forward ?m _ = _ /\ _ =>
      assert (I : Down2d.init 16 32 pool_avg = Ok m) by (vm_compute; reflexivity);
      destruct (@down2d_halves 16 32 pool_avg m) as [P Q]; [lia | lia | exact I |]
  end.
  split; [apply P; lia|]. apply Q. vm_compute. reflexivity.
Defined.

Lemma bn_init_ok (n : Z) : 0 <= n -> BatchNorm.init n = Ok (bn_of n).
Proof.
  intros Hn. unfold BatchNorm.init. cbn [torch_ones torch_zeros ops].
  rewrite !empty_ok by (repeat constructor; lia). reflexivity.
Qed.

Lemma convbr2d_init_ok (i o k p d s : Z) (act : bool) :
  0 <= i -> 0 <= o -> 0 <= k ->
  ConvBR2d.init i o k p d s act = Ok (convbr2d_of i o k p d s act).
Proof.
  intros Hi Ho Hk. unfold ConvBR2d.init.
  rewrite conv2d_init_ok by lia. cbn [bind].
  rewrite bn_init_ok by lia. reflexivity.
Qed.

Lemma convbr1d_init_ok (i o k p d s : Z) (act : bool) :
  0 <= i -> 0 <= o -> 0 <= k ->
  ConvBR1d.init i o k p d s act = Ok (convbr1d_of i o k p d s act).
Proof.
  intros Hi Ho Hk. unfold ConvBR1d.init.
  rewrite conv1d_init_ok by lia. cbn [bind].
  rewrite bn_init_ok by lia. reflexivity.
Qed.

Lemma bottleneck2d_init_ok (i o st r d p : Z) (pool : pool_kind) (sc : bool) :
  0 <= i -> 0 <= o -> 0 < r ->
  SENextBottleneck2d.init i o st r d p pool sc
  = Ok (bottleneck2d_of i o st r d p pool sc).
Proof.
  intros Hi Ho Hr. unfold SENextBottleneck2d.init.
  rewrite floordiv_ok by lia. cbn [bind].
  rewrite convbr2d_init_ok by lia. cbn [bind].
  rewrite cse2d_init_ok by lia. cbn [bind].
  destruct sc; [rewrite convbr2d_init_ok by lia|]; reflexivity.
Qed.

Lemma up1d_init_eq (i o : Z) :
  0 <= i -> 0 <= o -> Up1d.init i o false true = Ok (up1d_of i o).
Proof.
  intros Hi Ho. unfold Up1d.init, ConvTranspose1d.init.
  cbn [torch_empty ops].
  rewrite !empty_ok by (repeat constructor; lia). cbn [bind].
  rewrite convbr1d_init_ok by lia. cbn [bind].
  rewrite convbr1d_init_ok by lia. reflexivity.
Qed.


(** X7. [Up1d(i, o, bilinear=False, merge=True)] returns a tensor of the
    skip tensor's length, whatever the two lengths are: the upsampled
    tensor is padded when it is shorter and cropped when it is longer. *)
Theorem up1d_returns_skip_length (i o : Z) (n l1 l2 : Z) :
  1 <= i -> 1 <= o -> 2 <= n -> 1 <= l1 -> 1 <= l2 ->
  (m <- Up1d.init i o false true ;; Up1d.forward m [n; i; l1] [n; o; l2])
  = Ok [n; o; l2].
Proof.
  intros Hi Ho Hn Hl1 Hl2. rewrite up1d_init_eq by lia. cbn [bind].
  unfold Up1d.forward. rewrite up1d_aligned_total by assumption. cbn [bind].
  unfold up1d_of. cbn [Up1d.merge Up1d.conv1 Up1d.conv2 torch_cat ops].
  rewrite cat_channels1d. cbn [bind].
  replace (o + i) with (i + o) by lia.
  rewrite convbr1d_same_size by lia. cbn [bind].
  rewrite convbr1d_same_size by lia. reflexivity.
Qed.

Lemma up1d_returns_skip_length_witness :
  (m <- Up1d.init 32 16 false true ;; Up1d.forward m [2; 32; 4] [2; 16; 3])
  = Ok [2; 16; 3].
Proof. apply up1d_returns_skip_length; lia. Defined.



End SamplingBlocks.

(** ** Runs of the size statements *)

Section SizeRuns.
Import Shape.

Lemma unet1d_forward_size_witness :
  (m <- UNet1d.init 3 5 ;; UNet1d.forward m [1; 3; 30]) = Ok [1; 5; 30].
Proof. apply unet1d_forward_size; lia. Defined.

Lemma unet2d_forward_size_witness :
  (m <- UNet2d.init 1 1 ;; UNet2d.forward m [2; 16; 9]) = Ok [2; 16; 9].
Proof. apply unet2d_forward_size; try lia. reflexivity. Defined.

Lemma micro2d_forward_size_witness :
  (m <- Micro2d.init 1 1 ;; Micro2d.forward m [1; 1; 1]) = Ok [1; 1; 1].
Proof. apply micro2d_forward_size; lia. Defined.

Lemma resnext2d_forward_size_witness :
  (m <- ResNext2d.init 1 1 ;; ResNext2d.forward m [1; 5; 7]) = Ok [1; 5; 7].
Proof. apply resnext2d_forward_size; lia. Defined.

Lemma up2d_aligned_keeps_height_witness :
  size_at [1; 32; 4; 5] 2 = size_at [1; 32; 4; 4] 2.
Proof.
  apply (@up2d_aligned_keeps_height (up2d_of 32 16) [1; 32; 2; 2] [1; 16; 5; 4]);
    vm_compute; reflexivity.
Defined.

End SizeRuns.

(** ** Sizes: strided bottleneck blocks *)

Section StridedBlocks.
Import Shape.

Ltac dlia := Z.div_mod_to_equations; lia.

Lemma pool_out_div (l s : Z) : 1 <= s -> pool_out l s s = l / s.
Proof.
  intros Hs. unfold pool_out. replace (l - s) with (l + (-1) * s) by lia.
  rewrite Z.div_add by lia. lia.
Qed.

Lemma div_ge_1 (l s : Z) : 1 <= s -> s <= l -> 1 <= l / s.
Proof. intros Hs Hl. apply Z.div_le_lower_bound; lia. Qed.

Lemma pool1d_strided (n c l s : Z) :
  1 <= s -> s <= l -> pool1d [n; c; l] s s = Ok [n; c; l / s].
Proof.
  intros Hs Hl. unfold pool1d. rewrite pool_out_div by assumption.
  pose proof (div_ge_1 Hs Hl).
  replace (1 <=? s) with true by (symmetry; apply Z.leb_le; lia).
  replace (1 <=? l / s) with true by (symmetry; apply Z.leb_le; lia).
  reflexivity.
Qed.

Lemma pool2d_strided (n c h w s : Z) :
  1 <= s -> s <= h -> s <= w -> pool2d [n; c; h; w] s s = Ok [n; c; h / s; w / s].
Proof.
  intros Hs Hh Hw. unfold pool2d. rewrite !pool_out_div by assumption.
  pose proof (div_ge_1 Hs Hh). pose proof (div_ge_1 Hs Hw).
  replace (1 <=? s) with true by (symmetry; apply Z.leb_le; lia).
  replace (1 <=? h / s) with true by (symmetry; apply Z.leb_le; lia).
  replace (1 <=? w / s) with true by (symmetry; apply Z.leb_le; lia).
  reflexivity.
Qed.

Lemma bottleneck1d_init_ok (i o st r : Z) (pool : pool_kind) (sc : bool) :
  0 <= i -> 0 <= o -> 0 < r ->
  SENextBottleneck1d.init i o st r pool sc = Ok (bottleneck1d_of i o st r pool sc).
Proof.
  intros Hi Ho Hr. unfold SENextBottleneck1d.init.
  rewrite floordiv_ok by lia. cbn [bind].
  rewrite convbr1d_init_ok by lia. cbn [bind].
  rewrite convbr1d_init_ok by lia. cbn [bind].
  unfold SCSE1d.init, SSE1d.init. rewrite cse1d_init_ok by lia. cbn [bind].
  rewrite conv1d_init_ok by lia. cbn [bind].
  destruct sc; [rewrite convbr1d_init_ok by lia|]; reflexivity.
Qed.

(** The branch [s] of a strided 1-D block just before the residual sum, and
    the input of that sum on the shortcut side. *)
Lemma bottleneck1d_strided_unfold (i o s r : Z) (pool : pool_kind) (sc : bool)
    (n l : Z) :
  2 <= s -> 2 <= n -> s <= l ->
  SENextBottleneck1d.forward (bottleneck1d_of i o s r pool sc) [n; i; l] =
  broadcast_shapes (if sc then [n; o; l / s] else [n; i; l]) [n; o; l / s].
Proof.
  intros Hs Hn Hl. pose proof (@div_ge_1 l s ltac:(lia) Hl).
  rewrite SENextBottleneck1d_forward_unfold.
  unfold SENextBottleneck1d_tail, bottleneck1d_of, pool1d_of, ReLU.forward.
  cbn [SENextBottleneck1d.conv1 SENextBottleneck1d.conv2 SENextBottleneck1d.se
       SENextBottleneck1d.stride SENextBottleneck1d.is_shortcut
       SENextBottleneck1d.shortcut SENextBottleneck1d.pool
       SENextBottleneck1d.activation].
  replace (1 <? s) with true by (symmetry; apply Z.ltb_lt; lia). cbn iota.
  rewrite convbr1d_same_size by lia. cbn [bind].
  rewrite convbr1d_same_size by lia. cbn [bind].
  assert (P : forall x, (p <- getattr (match pool with
                                        | pool_max => Some (Pool1d.MaxPool1d s s)
                                        | pool_avg => Some (Pool1d.AvgPool1d s s)
                                        end) ;; Pool1d.forward p x) = pool1d x s s)
    by (intros x; destruct pool; reflexivity).
  rewrite P, pool1d_strided by lia. cbn [bind].
  rewrite scse1d_forward_size by lia. cbn [bind].
  destruct sc.
  - cbn [F_avg_pool1d ops]. rewrite pool1d_strided by lia. cbn [bind getattr].
    rewrite convbr1d_pointwise_size by lia. cbn [bind torch_add F_relu ops].
    destruct (broadcast_shapes _ _); reflexivity.
  - cbn [bind torch_add F_relu ops]. destruct (broadcast_shapes _ _); reflexivity.
Qed.

Lemma broadcast_length_mismatch (n n' c c' l l' : Z) :
  l <> l' -> l <> 1 -> l' <> 1 ->
  broadcast_shapes [n; c; l] [n'; c'; l'] = Raise RuntimeError.
Proof.
  intros A B C. unfold broadcast_shapes. cbn [rev app broadcast_rev].
  apply Z.eqb_neq in A, B, C. rewrite A, B, C. reflexivity.
Qed.

(** X13. A 1-D bottleneck block with stride [s >= 2]: built with a
    shortcut it divides the length by [s], rounding down; built without one
    (the default of [SENextBottleneck1d]) it raises at the residual sum on
    every input at least [2 * s] long, since the pooled branch is shorter
    than the input it is added to. *)
Theorem bottleneck1d_strided (i o s r : Z) (pool : pool_kind) (n l : Z) :
  1 <= i -> 1 <= r <= o -> 2 <= s -> 2 <= n ->
  (s <= l ->
   (m <- SENextBottleneck1d.init i o s r pool true ;;
    SENextBottleneck1d.forward m [n; i; l]) = Ok [n; o; l / s])
  /\ (2 * s <= l ->
      (m <- SENextBottleneck1d.init i o s r pool false ;;
       SENextBottleneck1d.forward m [n; i; l]) = Raise RuntimeError).
Proof.
  intros Hi Hr Hs Hn. split; intros Hl.
  - rewrite bottleneck1d_init_ok by lia. cbn [bind].
    rewrite bottleneck1d_strided_unfold by lia. apply broadcast_shapes_refl.
  - rewrite bottleneck1d_init_ok by lia. cbn [bind].
    rewrite bottleneck1d_strided_unfold by lia.
    assert (2 <= l / s) by (apply Z.div_le_lower_bound; lia).
    assert (l / s < l) by (apply Z.div_lt; lia).
    apply broadcast_length_mismatch; lia.
Qed.

Lemma bottleneck1d_strided_witness :
  (m <- SENextBottleneck1d.init 4 32 3 16 pool_avg true ;;
   SENextBottleneck1d.forward m [2; 4; 7]) = Ok [2; 32; 7 / 3]
  /\ (m <- SENextBottleneck1d.init 4 32 3 16 pool_avg false ;;
      SENextBottleneck1d.forward m [2; 4; 7]) = Raise RuntimeError.
Proof.
  destruct (@bottleneck1d_strided 4 32 3 16 pool_avg 2 7) as [P Q]; try lia.
  split; [apply P | apply Q]; lia.
Defined.

Lemma bottleneck2d_strided_unfold (i o s r : Z) (pool : pool_kind) (sc : bool)
    (n h w : Z) :
  2 <= s -> 2 <= n -> s <= h -> s <= w ->
  SENextBottleneck2d.forward (bottleneck2d_of i o s r 1 1 pool sc) [n; i; h; w] =
  broadcast_shapes (if sc then [n; o; h / s; w / s] else [n; i; h; w])
    [n; o; h / s; w / s].
Proof.
  intros Hs Hn Hh Hw.
  pose proof (@div_ge_1 h s ltac:(lia) Hh). pose proof (@div_ge_1 w s ltac:(lia) Hw).
  rewrite SENextBottleneck2d_forward_unfold.
  unfold SENextBottleneck2d_tail, bottleneck2d_of, pool2d_of, ReLU.forward.
  cbn [SENextBottleneck2d.conv1 SENextBottleneck2d.conv2 SENextBottleneck2d.se
       SENextBottleneck2d.stride SENextBottleneck2d.is_shortcut
       SENextBottleneck2d.shortcut SENextBottleneck2d.pool
       SENextBottleneck2d.activation].
  replace (1 <? s) with true by (symmetry; apply Z.ltb_lt; lia). cbn iota.
  rewrite convbr2d_same_size by lia. cbn [bind].
  assert (P : forall x, (p <- getattr (match pool with
                                        | pool_max => Some (Pool2d.MaxPool2d s s)
                                        | pool_avg => Some (Pool2d.AvgPool2d s s)
                                        end) ;; Pool2d.forward p x) = pool2d x s s)
    by (intros x; destruct pool; reflexivity).
  rewrite P, pool2d_strided by lia. cbn [bind].
  rewrite cse2d_forward_size by lia. cbn [bind].
  destruct sc.
  - cbn [F_avg_pool2d ops]. rewrite pool2d_strided by lia. cbn [bind getattr].
    rewrite convbr2d_same_size by lia. cbn [bind torch_add F_relu ops].
    destruct (broadcast_shapes _ _); reflexivity.
  - cbn [bind torch_add F_relu ops]. destruct (broadcast_shapes _ _); reflexivity.
Qed.

Lemma broadcast_extent_mismatch (n n' c c' h h' w w' : Z) :
  (h <> h' /\ h <> 1 /\ h' <> 1) \/ (w <> w' /\ w <> 1 /\ w' <> 1) ->
  broadcast_shapes [n; c; h; w] [n'; c'; h'; w'] = Raise RuntimeError.
Proof.
  intros H. unfold broadcast_shapes. cbn [rev app broadcast_rev].
  destruct H as [(A & B & C)|(A & B & C)]; apply Z.eqb_neq in A, B, C.
  - rewrite A, B, C. destruct (w =? w'), (w =? 1), (w' =? 1); reflexivity.
  - rewrite A, B, C. reflexivity.
Qed.

(** X14. A 2-D bottleneck block with stride [s >= 2] (3 by 3 convolutions
    with padding 1): built with a shortcut it divides height and width by
    [s], rounding down; built without one it raises at the residual sum as
    soon as the height or the width is at least [2 * s]. *)
Theorem bottleneck2d_strided (i o s r : Z) (pool : pool_kind) (n h w : Z) :
  1 <= i -> 1 <= r <= o -> 2 <= s -> 2 <= n -> s <= h -> s <= w ->
  (m <- SENextBottleneck2d.init i o s r 1 1 pool true ;;
   SENextBottleneck2d.forward m [n; i; h; w]) = Ok [n; o; h / s; w / s]
  /\ (2 * s <= h \/ 2 * s <= w ->
      (m <- SENextBottleneck2d.init i o s r 1 1 pool false ;;
       SENextBottleneck2d.forward m [n; i; h; w]) = Raise RuntimeError).
Proof.
  intros Hi Hr Hs Hn Hh Hw. split; [|intros Hl].
  - rewrite bottleneck2d_init_ok by lia. cbn [bind].
    rewrite bottleneck2d_strided_unfold by lia. apply broadcast_shapes_refl.
  - rewrite bottleneck2d_init_ok by lia. cbn [bind].
    rewrite bottleneck2d_strided_unfold by lia.
    apply broadcast_extent_mismatch.
    destruct Hl as [Hl|Hl]; [left|right].
    + assert (2 <= h / s) by (apply Z.div_le_lower_bound; lia).
      assert (h / s < h) by (apply Z.div_lt; lia). lia.
    + assert (2 <= w / s) by (apply Z.div_le_lower_bound; lia).
      assert (w / s < w) by (apply Z.div_lt; lia). lia.
Qed.

Lemma bottleneck2d_strided_witness :
  (m <- SENextBottleneck2d.init 4 8 3 4 1 1 pool_max true ;;
   SENextBottleneck2d.forward m [2; 4; 7; 5]) = Ok [2; 8; 7 / 3; 5 / 3]
  /\ (m <- SENextBottleneck2d.init 4 8 3 4 1 1 pool_max false ;;
      SENextBottleneck2d.forward m [2; 4; 7; 5]) = Raise RuntimeError.
Proof.
  destruct (@bottleneck2d_strided 4 8 3 4 pool_max 2 7 5) as [P Q]; try lia.
  split; [apply P | apply Q]; lia.
Defined.

End StridedBlocks.

(** ** Sizes: the combined gate *)

Section GateSizesBoth.
Import Shape.

(** X12. The gates keep the size: a constructed [SCSE2d] or [SCSE1d]
    (with [1 <= reduction <= in_channels]) returns a tensor of the size of
    its input, for every batch size and every positive extent; so do its
    channel gate and its spatial gate, which is why their sum involves no
    broadcasting. *)
Theorem scse_forward_keeps_size (c r n h w l : Z) :
  1 <= r <= c -> 1 <= h -> 1 <= w -> 1 <= l ->
  (m <- SCSE2d.init c r ;;
   a <- CSE2d.forward (SCSE2d.c_se m) [n; c; h; w] ;;
   b <- SSE2d.forward (SCSE2d.s_se m) [n; c; h; w] ;;
   y <- SCSE2d.forward m [n; c; h; w] ;;
   Ok (a, b, y)) = Ok ([n; c; h; w], [n; c; h; w], [n; c; h; w])
  /\ (m <- SCSE1d.init c r ;;
      a <- CSE1d.forward (SCSE1d.c_se m) [n; c; l] ;;
      b <- SSE1d.forward (SCSE1d.s_se m) [n; c; l] ;;
      y <- SCSE1d.forward m [n; c; l] ;;
      Ok (a, b, y)) = Ok ([n; c; l], [n; c; l], [n; c; l]).
Proof.
  intros Hr Hh Hw Hl. split.
  - unfold SCSE2d.init, SSE2d.init.
    rewrite cse2d_init_ok by lia. cbn [bind].
    rewrite conv2d_init_ok by lia. cbn [bind SCSE2d.c_se SCSE2d.s_se].
    change (Conv2d.mk [1; c; 1; 1] (Some [1]) 1 0 1) with (conv2d_of c 1 1 1 0 1 true).
    change (CSE2d.mk (AdaptiveAvgPool2d.mk 1)
              (Conv2d.mk [c / r; c; 1; 1] (Some [c / r]) 1 0 1) (ReLU.mk true)
              (Conv2d.mk [c; c / r; 1; 1] (Some [c]) 1 0 1) Sigmoid.mk)
      with (cse2d_of c r).
    unfold SCSE2d.forward. cbn [SCSE2d.c_se SCSE2d.s_se].
    rewrite cse2d_forward_size, sse2d_forward_size by assumption.
    cbn [bind torch_add ops]. rewrite broadcast_shapes_refl. reflexivity.
  - unfold SCSE1d.init, SSE1d.init.
    rewrite cse1d_init_ok by lia. cbn [bind].
    rewrite conv1d_init_ok by lia. cbn [bind SCSE1d.c_se SCSE1d.s_se].
    change (Conv1d.mk [1; c; 1] (Some [1]) 1 0 1) with (conv1d_of c 1 1 1 0 1 true).
    change (CSE1d.mk (AdaptiveAvgPool1d.mk 1)
              (Conv1d.mk [c / r; c; 1] (Some [c / r]) 1 0 1) (ReLU.mk true)
              (Conv1d.mk [c; c / r; 1] (Some [c]) 1 0 1) Sigmoid.mk)
      with (cse1d_of c r).
    unfold SCSE1d.forward. cbn [SCSE1d.c_se SCSE1d.s_se].
    rewrite cse1d_forward_size, sse1d_forward_size by assumption.
    cbn [bind torch_add ops]. rewrite broadcast_shapes_refl. reflexivity.
Qed.

Lemma scse_forward_keeps_size_witness :
  (m <- SCSE2d.init 10 4 ;;
   a <- CSE2d.forward (SCSE2d.c_se m) [1; 10; 1; 3] ;;
   b <- SSE2d.forward (SCSE2d.s_se m) [1; 10; 1; 3] ;;
   y <- SCSE2d.forward m [1; 10; 1; 3] ;;
   Ok (a, b, y)) = Ok ([1; 10; 1; 3], [1; 10; 1; 3], [1; 10; 1; 3])
  /\ (m <- SCSE1d.init 10 4 ;;
      a <- CSE1d.forward (SCSE1d.c_se m) [1; 10; 5] ;;
      b <- SSE1d.forward (SCSE1d.s_se m) [1; 10; 5] ;;
      y <- SCSE1d.forward m [1; 10; 5] ;;
      Ok (a, b, y)) = Ok ([1; 10; 5], [1; 10; 5], [1; 10; 5]).
Proof. apply scse_forward_keeps_size; lia. Defined.

End GateSizesBoth.

(** ** Values: ranges of the outputs *)

Section OutputRanges.
Context {K : RTensor.kernels}.
Import RTensor.

Lemma sigmoid_range (v : R) : (0 < sigmoid v < 1)%R.
Proof.
  unfold sigmoid. pose proof (exp_pos (- v)) as E.
  split.
  - apply Rinv_0_lt_compat. lra.
  - rewrite <- Rinv_1 at 2. apply Rinv_lt_contravar; lra.
Qed.

Lemma pointwise_forall (f : R -> R) (P : R -> Prop) (x : rtensor) :
  (forall v, P (f v)) -> Forall P (rdata (pointwise f x)).
Proof.
  intros H. unfold pointwise; cbn [rdata]. apply Forall_forall.
  intros v Hv. apply in_map_iff in Hv. destruct Hv as (u & <- & _). apply H.
Qed.

Ltac bind_all H :=
  repeat (apply bind_ok_inv in H; destruct H as (? & ? & H)).

Ltac last_sigmoid H :=
  unfold Sigmoid.forward in H; injection H as <-;
  apply pointwise_forall; intros u; pose proof (sigmoid_range u); lra.

(** X15. Every element of a gate lies between 0 and 1: the tensor that
    [SSE2d], [CSE2d], [SSE1d] and [CSE1d] multiply their input with,
    whenever it is computed, whatever the weights and the input. *)
Theorem gate_elements_in_unit_interval :
  (forall (self : SSE2d.t rtensor) x g,
      SSE2d.se self x = Ok g -> Forall (fun v => (0 <= v <= 1)%R) (rdata g))
  /\ (forall (self : CSE2d.t rtensor) x g,
      CSE2d.se self x = Ok g -> Forall (fun v => (0 <= v <= 1)%R) (rdata g))
  /\ (forall (self : SSE1d.t rtensor) x g,
      SSE1d.se self x = Ok g -> Forall (fun v => (0 <= v <= 1)%R) (rdata g))
  /\ (forall (self : CSE1d.t rtensor) x g,
      CSE1d.se self x = Ok g -> Forall (fun v => (0 <= v <= 1)%R) (rdata g)).
Proof.
  repeat split; intros self x g H.
  - unfold SSE2d.se in H. bind_all H. last_sigmoid H.
  - unfold CSE2d.se in H. bind_all H. last_sigmoid H.
  - unfold SSE1d.se in H. bind_all H. last_sigmoid H.
  - unfold CSE1d.se in H. bind_all H. last_sigmoid H.
Qed.

Lemma view_keeps_data (x y : rtensor) (s : list Z) :
  view x s = Ok y -> rdata y = rdata x.
Proof.
  cbn [view ops]. unfold view_data. intros H.
  apply bind_ok_inv in H. destruct H as (s' & _ & H). injection H as <-. reflexivity.
Qed.

(** X16. On an input with positive elements (the logarithm is taken of
    it), no element of what [UNet2d.forward] returns is negative, whatever
    the weights: the output is an exponential. *)
Theorem unet2d_output_nonneg (self : UNet2d.t rtensor) (x y : rtensor) :
  Forall (fun v => (0 < v)%R) (rdata x) ->
  UNet2d.forward self x = Ok y -> Forall (fun v => (0 <= v)%R) (rdata y).
Proof.
  unfold UNet2d.forward. intros _ H.
  do 10 (apply bind_ok_inv in H; destruct H as (? & ? & H)).
  apply bind_ok_inv in H. destruct H as (z & Ez & H). injection H as <-.
  apply view_keeps_data in Ez. rewrite Ez.
  apply pointwise_forall. intros u. left. apply exp_pos.
Qed.

(** X17. Every element of what [Micro2d.forward] returns lies between 0
    and 1, whatever the weights and the input: the stem ends with a
    sigmoid. *)
Theorem micro2d_output_in_unit_interval (self : Micro2d.t rtensor) (x y : rtensor) :
  Micro2d.forward self x = Ok y -> Forall (fun v => (0 <= v <= 1)%R) (rdata y).
Proof.
  unfold Micro2d.forward. intros H.
  apply bind_ok_inv in H. destruct H as (v & _ & H).
  apply bind_ok_inv in H. destruct H as (i & Ei & H).
  apply bind_ok_inv in H. destruct H as (z & Ez & H). injection H as <-.
  apply view_keeps_data in Ez. rewrite Ez.
  unfold Micro2d.inc in Ei. bind_all Ei. last_sigmoid Ei.
Qed.

Lemma hardtanh_range (lo hi v : R) :
  (lo <= hi)%R -> (lo <= hardtanh lo hi v <= hi)%R.
Proof.
  intros H. unfold hardtanh. split.
  - apply Rmin_glb; [assumption | apply Rmax_l].
  - apply Rmin_l.
Qed.

(** X18. Every element of what a constructed [UNet1d] returns lies between
    [1e-10] and 1: the head ends with [Hardtanh(1e-10, 1.0)]. *)
Theorem unet1d_output_clamped (i o : Z) (m : UNet1d.t rtensor) (x y : rtensor) :
  UNet1d.init i o = Ok m ->
  UNet1d.forward m x = Ok y ->
  Forall (fun v => (1 / 10000000000 <= v <= 1)%R) (rdata y).
Proof.
  intros Hm H.
  assert (Hh : UNet1d.outc_1 m = Hardtanh.mk (1 / 10000000000)%R 1%R).
  { unfold UNet1d.init in Hm. bind_all Hm. injection Hm as <-. reflexivity. }
  unfold UNet1d.forward in H.
  do 10 (apply bind_ok_inv in H; destruct H as (? & ? & H)).
  apply bind_ok_inv in H. destruct H as (z & Ez & H). injection H as <-.
  unfold UNet1d.outc in Ez. apply bind_ok_inv in Ez. destruct Ez as (c & _ & Ez).
  unfold Hardtanh.forward in Ez. rewrite Hh in Ez. cbn [Hardtanh.min_val Hardtanh.max_val] in Ez.
  injection Ez as <-. cbn [F_hardtanh ops].
  apply pointwise_forall. intros v. apply hardtanh_range. lra.
Qed.

End OutputRanges.

(** Runs with the zero kernels. *)
Lemma gate_elements_in_unit_interval_witness :
  exists m g,
    CSE2d.init (ops := RTensor.ops (K := RTensor.zero_kernels)) 4 2 = Ok m
    /\ CSE2d.se (ops := RTensor.ops (K := RTensor.zero_kernels)) m
         (RTensor.mk [1; 4; 1; 2] [1; -2; 3; -4; 5; -6; 7; -8]%R) = Ok g
    /\ Forall (fun v => (0 <= v <= 1)%R) (RTensor.rdata g).
Proof.
  eexists. eexists. split; [reflexivity|].
  match goal with |- ?A /\ _ => assert (F : A) by reflexivity end.
  split; [exact F|].
  exact (proj1 (proj2 (gate_elements_in_unit_interval (K := RTensor.zero_kernels)))
           _ _ _ F).
Defined.

Lemma micro2d_output_in_unit_interval_witness :
  exists m y,
    Micro2d.init (ops := RTensor.ops (K := RTensor.zero_kernels)) 1 1 = Ok m
    /\ Micro2d.forward (ops := RTensor.ops (K := RTensor.zero_kernels)) m
         (RTensor.mk [1; 1; 2] [3; -4]%R) = Ok y
    /\ Forall (fun v => (0 <= v <= 1)%R) (RTensor.rdata y).
Proof.
  eexists. eexists. split; [reflexivity|].
  match goal with |- ?A /\ _ => assert (F : A) by reflexivity end.
  split; [exact F|].
  exact (micro2d_output_in_unit_interval (K := RTensor.zero_kernels) _ _ F).
Defined.

Lemma unet2d_output_nonneg_witness :
  exists m y,
    UNet2d.init (ops := RTensor.ops (K := RTensor.zero_kernels)) 1 1 = Ok m
    /\ UNet2d.forward (ops := RTensor.ops (K := RTensor.zero_kernels)) m
         (RTensor.mk [2; 8; 8] (repeat 3%R 128)) = Ok y
    /\ Forall (fun v => (0 <= v)%R) (RTensor.rdata y).
Proof.
  eexists. eexists. split; [reflexivity|].
  match goal with |- ?A /\ _ => assert (F : A) by reflexivity end.
  split; [exact F|].
  assert (P : Forall (fun v => (0 < v)%R)
                (RTensor.rdata (RTensor.mk [2; 8; 8] (repeat 3%R 128))))
    by (apply Forall_forall; intros v Hv; apply repeat_spec in Hv; subst v; lra).
  exact (@unet2d_output_nonneg RTensor.zero_kernels _ _ _ P F).
Defined.

Lemma unet1d_output_clamped_witness :
  exists m y,
    UNet1d.init (ops := RTensor.ops (K := RTensor.zero_kernels)) 1 1 = Ok m
    /\ UNet1d.forward (ops := RTensor.ops (K := RTensor.zero_kernels)) m
         (RTensor.mk [2; 1; 14] (repeat 3%R 28)) = Ok y
    /\ Forall (fun v => (1 / 10000000000 <= v <= 1)%R) (RTensor.rdata y).
Proof.
  eexists. eexists.
  match goal with |- ?A /\ _ => assert (I : A) by reflexivity end.
  split; [exact I|].
  match goal with |- ?A /\ _ => assert (F : A) by reflexivity end.
  split; [exact F|].
  exact (@unet1d_output_clamped RTensor.zero_kernels _ _ _ _ _ I F).
Defined.

(** ** Values: the losses *)

Section LossValues.
Context {K : RTensor.kernels}.
Import RTensor.

Lemma clamped_log_nonpos (v : R) : (v <= 1)%R -> (clamped_log v <= 0)%R.
Proof.
  intros H. unfold clamped_log. destruct (Rle_dec v 0) as [L|L]; [lra|].
  apply Rmax_lub; [|lra].
  rewrite <- ln_1. destruct (Req_dec v 1) as [->|N]; [lra|].
  left. apply ln_increasing; lra.
Qed.

Lemma bce_nonneg (x t : R) :
  (0 <= x <= 1)%R -> (0 <= t <= 1)%R -> (0 <= bce x t)%R.
Proof.
  intros Hx Ht. unfold bce.
  pose proof (@clamped_log_nonpos x ltac:(lra)) as A.
  pose proof (@clamped_log_nonpos (1 - x) ltac:(lra)) as B.
  assert (t * clamped_log x <= 0)%R by nra.
  assert ((1 - t) * clamped_log (1 - x) <= 0)%R by nra.
  lra.
Qed.

Lemma in_unit_interval_spec (v : R) : in_unit_interval v = true -> (0 <= v <= 1)%R.
Proof.
  unfold in_unit_interval.
  destruct (Rle_dec 0 v), (Rle_dec v 1); try discriminate. lra.
Qed.

Lemma scalar_pow_unit (e base : R) :
  (0 <= e)%R -> (0 <= base < 1)%R -> (0 <= scalar_pow e base <= 1)%R.
Proof.
  intros He Hb. unfold scalar_pow.
  destruct (Req_dec_T e 0); [lra|].
  destruct (Req_dec_T e 2); [nra|].
  destruct (Rlt_dec 0 base) as [P|P]; [|lra].
  unfold Rpower. split; [left; apply exp_pos|].
  rewrite <- exp_0.
  assert (ln base < 0)%R by (rewrite <- ln_1; apply ln_increasing; lra).
  destruct (Req_dec (e * ln base) 0) as [->|N]; [lra|].
  left. apply exp_increasing. nra.
Qed.

(** The focal term never exceeds [alpha] times the cross-entropy, and is
    never negative. *)
Lemma focal_term_bounds (alpha gamma b : R) :
  (0 <= alpha)%R -> (0 <= gamma)%R -> (0 <= b)%R ->
  (0 <= focal_term alpha gamma b <= alpha * b)%R.
Proof.
  intros Ha Hg Hb. unfold focal_term.
  assert (0 < exp (- b) <= 1)%R.
  { split; [apply exp_pos|]. rewrite <- exp_0.
    destruct (Req_dec b 0) as [->|N]; [rewrite Ropp_0; lra|].
    left. apply exp_increasing. lra. }
  pose proof (@scalar_pow_unit gamma (1 - exp (- b)) Hg ltac:(lra)) as P.
  set (p := scalar_pow gamma (1 - exp (- b))) in *.
  split.
  - apply Rmult_le_pos; [apply Rmult_le_pos|]; lra.
  - assert (0 <= alpha * (1 - p) * b)%R
      by (apply Rmult_le_pos; [apply Rmult_le_pos|]; lra).
    replace (alpha * b)%R with (alpha * p * b + alpha * (1 - p) * b)%R by ring.
    lra.
Qed.

Lemma map2_bce_nonneg (xs ts : list R) :
  Forall (fun v => (0 <= v <= 1)%R) xs -> Forall (fun v => (0 <= v <= 1)%R) ts ->
  Forall (fun b => (0 <= b)%R) (map2 bce xs ts).
Proof.
  intros Hx. revert ts. induction Hx as [|x xs Hx _ IH]; intros ts Ht; [constructor|].
  destruct Ht as [|t ts Ht Hts]; cbn; constructor; [apply bce_nonneg; assumption|].
  apply IH; assumption.
Qed.

(** X19. With [alpha >= 0], [gamma >= 0] and targets in [[0, 1]], every
    element of the unreduced focal loss is non-negative and at most [alpha]
    times the corresponding element of the binary cross-entropy: the loss
    only ever scales an example's cross-entropy down. *)
Theorem focal_loss_down_weights (self : FocalLoss.t) (inputs targets y : rtensor) :
  (0 <= FocalLoss.alpha self)%R -> (0 <= FocalLoss.gamma self)%R ->
  FocalLoss.reduce self = false ->
  Forall (fun v => (0 <= v <= 1)%R) (rdata targets) ->
  FocalLoss.forward self inputs targets = Ok y ->
  exists BCE,
    F_binary_cross_entropy inputs targets = Ok BCE
    /\ rshape y = rshape BCE
    /\ Forall2 (fun v b => (0 <= v <= FocalLoss.alpha self * b)%R) (rdata y) (rdata BCE).
Proof.
  intros Ha Hg Hr Ht H. unfold FocalLoss.forward in H.
  apply bind_ok_inv in H. destruct H as (b & Eb & H).
  rewrite focal_factor_times_bce in H. cbn [bind] in H. rewrite Hr in H.
  injection H as <-. exists b. split; [exact Eb|]. split; [reflexivity|].
  assert (Hb : Forall (fun v => (0 <= v)%R) (rdata b)).
  { cbn [F_binary_cross_entropy ops] in Eb. unfold binary_cross_entropy in Eb.
    destruct (negb (Shape.shape_eqb (rshape targets) (rshape inputs))); [discriminate|].
    destruct (forallb in_unit_interval (rdata inputs)) eqn:Ei; [|discriminate].
    injection Eb as <-. cbn [rdata]. apply map2_bce_nonneg; [|assumption].
    apply Forall_forall. intros v Hv. apply in_unit_interval_spec.
    revert v Hv. apply forallb_forall. exact Ei. }
  unfold pointwise; cbn [rdata].
  induction Hb as [|v l Hv _ IH]; cbn; constructor; [|exact IH].
  apply focal_term_bounds; assumption.
Qed.

End LossValues.

Lemma in_unit_interval_half : RTensor.in_unit_interval (1 / 2)%R = true.
Proof.
  unfold RTensor.in_unit_interval.
  destruct (Rle_dec 0 (1 / 2)) as [_|N]; [|exfalso; lra].
  destruct (Rle_dec (1 / 2) 1) as [_|N]; [reflexivity|exfalso; lra].
Qed.

Lemma focal_loss_down_weights_witness :
  exists y BCE,
    FocalLoss.forward (ops := RTensor.ops (K := RTensor.zero_kernels))
      (FocalLoss.init 1 2 false) (RTensor.mk [1] [1 / 2]%R) (RTensor.mk [1] [1]%R) = Ok y
    /\ F_binary_cross_entropy (TensorOps := RTensor.ops (K := RTensor.zero_kernels))
         (RTensor.mk [1] [1 / 2]%R) (RTensor.mk [1] [1]%R) = Ok BCE
    /\ RTensor.rshape y = RTensor.rshape BCE
    /\ Forall2 (fun v b => (0 <= v <= 1 * b)%R) (RTensor.rdata y) (RTensor.rdata BCE).
Proof.
  assert (B : F_binary_cross_entropy (TensorOps := RTensor.ops (K := RTensor.zero_kernels))
                (RTensor.mk [1] [1 / 2]%R) (RTensor.mk [1] [1]%R)
              = Ok (RTensor.mk [1] [RTensor.bce (1 / 2) 1])).
  { cbn [F_binary_cross_entropy RTensor.ops]. unfold RTensor.binary_cross_entropy.
    cbn [RTensor.rshape RTensor.rdata forallb]. rewrite in_unit_interval_half.
    reflexivity. }
  assert (F : FocalLoss.forward (ops := RTensor.ops (K := RTensor.zero_kernels))
                (FocalLoss.init 1 2 false) (RTensor.mk [1] [1 / 2]%R)
                (RTensor.mk [1] [1]%R)
              = Ok (RTensor.pointwise (focal_term 1 2)
                      (RTensor.mk [1] [RTensor.bce (1 / 2) 1]))).
  { unfold FocalLoss.forward. rewrite B. cbn [bind].
    rewrite focal_factor_times_bce. reflexivity. }
  assert (A : (0 <= FocalLoss.alpha (FocalLoss.init 1 2 false))%R) by (cbn; lra).
  assert (G : (0 <= FocalLoss.gamma (FocalLoss.init 1 2 false))%R) by (cbn; lra).
  assert (Ht : Forall (fun v => (0 <= v <= 1)%R) (RTensor.rdata (RTensor.mk [1] [1]%R)))
    by (cbn; repeat constructor; lra).
  destruct (@focal_loss_down_weights RTensor.zero_kernels (FocalLoss.init 1 2 false)
              _ _ _ A G eq_refl Ht F) as (b & Eb & Hs & Hd).
  eexists. exists b. split; [exact F|]. split; [exact Eb|]. split; [exact Hs|exact Hd].
Defined.

(** ** Values: the log-cosh loss *)

Section LogCoshValues.
Import RTensor.

Lemma cosh_ge_1 (x : R) : (1 <= cosh x)%R.
Proof.
  unfold cosh.
  assert (P := exp_pos x). assert (Q := exp_pos (- x)).
  assert (E : (exp x * exp (- x) = 1)%R)
    by (rewrite <- exp_plus, Rplus_opp_r; apply exp_0).
  set (a := exp x) in *. set (b := exp (- x)) in *.
  destruct (Rle_dec 2 (a + b)) as [L|L]; [lra|].
  assert (S : ((a + b) * (a + b) < 2 * 2)%R)
    by (apply Rmult_le_0_lt_compat; lra).
  assert (D : (0 <= (a - b) * (a - b))%R) by apply Rle_0_sqr.
  exfalso.
  replace ((a + b) * (a + b))%R with ((a - b) * (a - b) + 4 * (a * b))%R in S by ring.
  lra.
Qed.

Lemma cosh_le_exp_abs (x : R) : (cosh x <= exp (Rabs x))%R.
Proof.
  unfold cosh, Rabs. destruct (Rcase_abs x) as [N|N].
  - assert (exp x <= exp (- x))%R.
    { destruct (Req_dec x (- x)) as [E|E]; [rewrite <- E; lra|].
      left. apply exp_increasing. lra. }
    lra.
  - assert (exp (- x) <= exp x)%R.
    { destruct (Req_dec (- x) x) as [E|E]; [rewrite E; lra|].
      left. apply exp_increasing. lra. }
    lra.
Qed.

Lemma ln_monotone (x y : R) : (0 < x)%R -> (x <= y)%R -> (ln x <= ln y)%R.
Proof.
  intros P [L|E]; [left; apply ln_increasing; assumption | rewrite E; lra].
Qed.

Lemma ln_cosh_bounds (x : R) : (0 <= ln (cosh x) <= Rabs x)%R.
Proof.
  assert (C := cosh_ge_1 x). split.
  - rewrite <- ln_1. apply ln_monotone; lra.
  - rewrite <- (ln_exp (Rabs x)). apply ln_monotone; [lra | apply cosh_le_exp_abs].
Qed.

Lemma sum_map_bounds (f g : R -> R) (l : list R) :
  (forall d, 0 <= f d <= g d)%R ->
  (0 <= sum (map f l) <= sum (map g l))%R.
Proof.
  intros H. unfold sum. induction l as [|d l IH]; cbn [map fold_right]; [lra|].
  specialize (H d). lra.
Qed.

(** X20. When the difference [ey_t] of the two arguments exists (their sizes
    broadcast) and has at least one element, [LogCoshLoss.forward] returns
    a scalar that is non-negative and at most the mean of
    [|ey_t + 1e-12|] over the elements. *)
Theorem logcosh_loss_bounds (self : LogCoshLoss.t) (y_t y_prime_t ey_t : rtensor) :
  broadcast2 Rminus y_t y_prime_t = Ok ey_t ->
  rdata ey_t <> [] ->
  exists v,
    LogCoshLoss.forward self y_t y_prime_t = Ok (mk [] [v])
    /\ (0 <= v
        <= sum (map (fun d => Rabs (d + 1 / 1000000000000)) (rdata ey_t))
           / INR (length (rdata ey_t)))%R.
Proof.
  intros E Hne. unfold LogCoshLoss.forward. rewrite E. cbn [bind].
  unfold mean, pointwise. cbn [rdata rshape].
  eexists. split; [reflexivity|].
  rewrite !length_map, !map_map.
  assert (N : (0 < INR (length (rdata ey_t)))%R).
  { apply lt_0_INR. destruct (rdata ey_t); [congruence | cbn; lia]. }
  assert (B := sum_map_bounds
                 (fun d => ln (cosh (d + 1 / 1000000000000)))
                 (fun d => Rabs (d + 1 / 1000000000000)) (rdata ey_t)
                 (fun d => ln_cosh_bounds _)).
  assert (I := Rinv_0_lt_compat _ N).
  unfold Rdiv. split.
  - apply Rmult_le_pos; lra.
  - apply Rmult_le_compat_r; lra.
Qed.

End LogCoshValues.

Lemma logcosh_loss_bounds_witness :
  exists v,
    LogCoshLoss.forward LogCoshLoss.init (RTensor.mk [2] [1; 2]%R) (RTensor.mk [1] [3]%R)
      = Ok (RTensor.mk [] [v])
    /\ (0 <= v
        <= RTensor.sum (map (fun d => Rabs (d + 1 / 1000000000000)) [1 - 3; 2 - 3])
           / INR 2)%R.
Proof.
  apply (@logcosh_loss_bounds LogCoshLoss.init (RTensor.mk [2] [1; 2]%R)
           (RTensor.mk [1] [3]%R) (RTensor.mk [2] [1 - 3; 2 - 3]%R)).
  - reflexivity.
  - cbn. discriminate.
Defined.
